(** * The database lifecycle and persistence manager of querynator5000

    A shallow embedding of the [useDatabase] hook (hooks/useDatabase.ts):
    the IndexedDB object stores, [localStorage], the sql.js engine
    instances the hook allocates, and the React state of the hook, with
    every callback of the hook as a function on that world. *)

From Stdlib Require Import ZArith String Ascii DecimalString DecimalZ.
From stdpp Require Import base option list gmap strings.

Local Open Scope string_scope.
Local Open Scope Z_scope.
Local Open Scope list_scope.

(** ** Strings as JavaScript sees them

    A [string] is a sequence of code units below 256.  The three
    regular expressions of the hook and the string methods it calls are
    written out on that representation. *)

Module Js.

Definition code (c : ascii) : N := N_of_ascii c.

(** [\s] and the characters [trim] strips: TAB, LF, VT, FF, CR, SP and NBSP. *)
Definition is_space (c : ascii) : bool :=
  let n := code c in
  ((9 <=? n) && (n <=? 13) || (n =? 32) || (n =? 160))%N.

(** [\w] is [A-Za-z0-9_], also under the [i] flag. *)
Definition is_word (c : ascii) : bool :=
  let n := code c in
  ((48 <=? n) && (n <=? 57) || (65 <=? n) && (n <=? 90)
   || (97 <=? n) && (n <=? 122) || (n =? 95))%N.

(** The class of the two quote characters, single (39) and double (34). *)
Definition is_quote (c : ascii) : bool :=
  let n := code c in ((n =? 39) || (n =? 34))%N.

Definition toLowerCase_char (c : ascii) : ascii :=
  let n := code c in
  if ((65 <=? n) && (n <=? 90)
      || (192 <=? n) && (n <=? 222) && negb (n =? 215))%N
  then ascii_of_N (n + 32) else c.

(** Canonicalisation of the [i] flag for a pattern letter of the ASCII
    range: only the two ASCII cases of the letter match it. *)
Definition upper_ascii (c : ascii) : ascii :=
  let n := code c in
  if ((97 <=? n) && (n <=? 122))%N then ascii_of_N (n - 32) else c.

Definition ci_eqb (a b : ascii) : bool :=
  Ascii.eqb (upper_ascii a) (upper_ascii b).

Fixpoint toLowerCase (s : string) : string :=
  match s with
  | EmptyString => EmptyString
  | String c r => String (toLowerCase_char c) (toLowerCase r)
  end.

(** [s.includes(t)] *)
Fixpoint includes (t s : string) : bool :=
  String.prefix t s ||
  match s with
  | EmptyString => false
  | String _ r => includes t r
  end.

(** The longest prefix of [s] made of characters of the class [p], and
    what follows it. *)
Fixpoint span (p : ascii -> bool) (s : string) : string * string :=
  match s with
  | EmptyString => (EmptyString, EmptyString)
  | String c r =>
      if p c then let '(a, b) := span p r in (String c a, b)
      else (EmptyString, s)
  end.

Fixpoint rev_onto (s acc : string) : string :=
  match s with
  | EmptyString => acc
  | String c r => rev_onto r (String c acc)
  end.

Definition rev (s : string) : string := rev_onto s EmptyString.

(** [s.trim()] *)
Definition trim (s : string) : string :=
  rev (span is_space (rev (span is_space s).2)).2.

(** A literal of the pattern under the [i] flag; the rest of the
    subject on success. *)
Fixpoint lit_ci (pat s : string) : option string :=
  match pat, s with
  | EmptyString, _ => Some s
  | String _ _, EmptyString => None
  | String p pat', String c s' =>
      if ci_eqb p c then lit_ci pat' s' else None
  end.

(** [C+] for a character class [C], greedy.  In the two patterns below
    the token after a [C+] never starts with a character of [C], so the
    longest run is the only one that lets the match go on. *)
Definition plus (p : ascii -> bool) (s : string) : option (string * string) :=
  match span p s with
  | (EmptyString, _) => None
  | r => Some r
  end.

(** One character of a class. *)
Definition one (p : ascii -> bool) (s : string) : option string :=
  match s with
  | String c r => if p c then Some r else None
  | EmptyString => None
  end.

End Js.

(** The pattern of [executeQuery], under the [i] flag, tried at the start
    of [s]: ATTACH, spaces, DATABASE, spaces, a quote character, one or
    more characters that are not quote characters (first capture), a quote
    character, spaces, AS, spaces, one or more word characters (second
    capture).  The opening and the closing quote need not be the same. *)
Definition attach_at (s : string) : option (string * string) :=
  r ← Js.lit_ci "ATTACH" s;
  '(_, r) ← Js.plus Js.is_space r;
  r ← Js.lit_ci "DATABASE" r;
  '(_, r) ← Js.plus Js.is_space r;
  r ← Js.one Js.is_quote r;
  '(dbPath, r) ← Js.plus (λ c, negb (Js.is_quote c)) r;
  r ← Js.one Js.is_quote r;
  '(_, r) ← Js.plus Js.is_space r;
  r ← Js.lit_ci "AS" r;
  '(_, r) ← Js.plus Js.is_space r;
  '(dbAlias, _) ← Js.plus Js.is_word r;
  Some (dbPath, dbAlias).

(** [query.match(...)]: the leftmost position where the pattern matches. *)
Fixpoint attachMatch (query : string) : option (string * string) :=
  match attach_at query with
  | Some m => Some m
  | None =>
      match query with
      | EmptyString => None
      | String _ r => attachMatch r
      end
  end.

(** [/^\s*(CREATE|DROP|ALTER)\s+/i.test(query.trim())] *)
Definition isDDL (query : string) : bool :=
  let s := (Js.span Js.is_space (Js.trim query)).2 in
  let kw k := match Js.lit_ci k s with
              | Some r => bool_decide (is_Some (Js.plus Js.is_space r))
              | None => false
              end in
  kw "CREATE" || kw "DROP" || kw "ALTER".

(** [Date.now().toString()] *)
Definition toString (n : Z) : string := NilZero.string_of_int (Z.to_int n).

(** ** The data of the hook *)

(** A cell of a result set. *)
Inductive SqlValue :=
  | SqlNull
  | SqlInteger (n : Z)
  | SqlText (s : string).

Module TableColumn.
Record t := mk { name : string; type : string; nullable : bool; primaryKey : bool }.
End TableColumn.

Module TableSchema.
Record t := mk { name : string; columns : list TableColumn.t; rowCount : Z }.
End TableSchema.

(** A record of the [queries] object store.  The store is declared with
    [keyPath: 'id'], so the [id] of a record is the key it is stored
    under; [fields] is what the store keeps under that key. *)
Module SavedQuery.
Record fields := mkFields {
  query : string;
  timestamp : Z;
  description : option string;
  isFavorite : option bool;       (* [isFavorite?: boolean] *)
  databaseId : string }.
Record t := mk { id : string; rest : fields }.
End SavedQuery.
Coercion SavedQuery.rest : SavedQuery.t >-> SavedQuery.fields.

Module DatabaseInfo.
Record t := mk {
  id : string;
  name : string;
  description : option string;
  createdAt : Z;
  lastModified : Z }.
End DatabaseInfo.

Module QueryResult.
Record t := mk {
  columns : list string;
  values : list (list SqlValue);
  rowCount : Z;
  executionTime : Z }.
End QueryResult.

(** ** The engine binding (sql.js)

    The engine is a collaborator of the hook.  A database is modelled by
    what the hook reads from it: the reserved table [database_info]
    (absent, or a table keyed by its primary key [id]) and the other
    tables of [sqlite_master], each with the rows [PRAGMA table_info]
    reports, its row count, and whether its name still names it when it
    is written into a statement without quotes, as [loadTables] writes
    it (a name with a space in it, or a reserved word, does not: the
    statement throws).  A reserved table of another shape, on which
    the statements of the hook would throw, is outside the model.  The
    statements the hook itself issues are written out on this model; the
    statements of the user are the parameter [sqlite_exec] of the
    controller below. *)

Record InfoRow := mkInfoRow {
  info_name : string;
  info_description : option string;
  created_at : Z;
  last_modified : Z }.

Record PragmaRow := mkPragmaRow {
  pragma_name : string;      (* row[1] *)
  pragma_type : string;      (* row[2] *)
  pragma_notnull : Z;        (* row[3] *)
  pragma_pk : Z }.           (* row[5] *)

Record Table := mkTable {
  tbl_name : string;
  tbl_info : list PragmaRow;
  tbl_count : Z;
  tbl_bare : bool }.         (* the name parses without quotes *)

Record Db := mkDb {
  database_info : option (gmap string InfoRow);
  sqlite_master : list Table }.

(** [new SQL.Database()] *)
Definition empty_Db : Db := mkDb None [].

(** What an object of the [databases] store holds in [data]: the bytes
    [export()] gave for a database, or bytes the engine cannot open. *)
Inductive Blob :=
  | Image (d : Db)
  | Corrupt.

(** One result set of [exec]. *)
Record QueryExecResult := mkExec {
  exec_columns : list string;
  exec_values : list (list SqlValue) }.

(** [CREATE TABLE IF NOT EXISTS database_info (...)] *)
Definition create_info_if_not_exists (d : Db) : Db :=
  match database_info d with
  | Some _ => d
  | None => mkDb (Some ∅) (sqlite_master d)
  end.

(** [CREATE TABLE database_info (...)]: fails when the table exists. *)
Definition create_info (d : Db) : option Db :=
  match database_info d with
  | Some _ => None
  | None => Some (mkDb (Some ∅) (sqlite_master d))
  end.

(** [INSERT INTO database_info (...) VALUES (?, ?, ?, ?, ?)]: fails
    without the table and on a primary key that is taken. *)
Definition insert_info (i : string) (r : InfoRow) (d : Db) : option Db :=
  match database_info d with
  | Some t =>
      match t !! i with
      | Some _ => None
      | None => Some (mkDb (Some (<[i := r]> t)) (sqlite_master d))
      end
  | None => None
  end.

(** [SELECT * FROM database_info WHERE id = ?]: the first row, if any. *)
Definition select_info (i : string) (d : Db) : option InfoRow :=
  t ← database_info d; t !! i.

(** [UPDATE database_info SET last_modified = ? WHERE id = ?]: fails
    without the table, changes nothing without the row. *)
Definition update_last_modified (now : Z) (i : string) (d : Db) : option Db :=
  match database_info d with
  | Some t =>
      Some (mkDb
        (Some (alter (λ r, mkInfoRow (info_name r) (info_description r)
                                      (created_at r) now) i t))
        (sqlite_master d))
  | None => None
  end.

(** [name NOT LIKE 'sqlite_%']: LIKE ignores the case of ASCII letters,
    [_] stands for one character and [%] for any run. *)
Definition like_sqlite_ (name : string) : bool :=
  match Js.lit_ci "sqlite" name with
  | Some (String _ _) => true
  | _ => false
  end.

Definition user_table (t : Table) : bool :=
  negb (like_sqlite_ (tbl_name t)) && negb (String.eqb (tbl_name t) "database_info").

(** A stable insertion sort: [Array.prototype.sort] is stable, and so is
    the order [ORDER BY] and [getAll] are modelled with.  [le a b] says
    that [a] may stand before [b]. *)
Fixpoint insert_sorted {A} (le : A -> A -> bool) (x : A) (l : list A) : list A :=
  match l with
  | [] => [x]
  | y :: r => if le x y then x :: l else y :: insert_sorted le x r
  end.

Definition sort_by {A} (le : A -> A -> bool) (l : list A) : list A :=
  foldr (insert_sorted le) [] l.

(** The head of a list may stand before every other element of it. *)
Definition head_first {A} (le : A -> A -> bool) (l : list A) : Prop :=
  match l with
  | [] => True
  | x :: r => Forall (λ y, le x y = true) r
  end.

(** What [loadTables] computes from the three queries it runs, when
    they all run: the names of the user tables in [ORDER BY name] order,
    and for each the columns of [PRAGMA table_info] and the count. *)
Definition schema_of_table (t : Table) : TableSchema.t :=
  TableSchema.mk (tbl_name t)
    (map (λ row, TableColumn.mk (pragma_name row) (pragma_type row)
                   (pragma_notnull row =? 0) (pragma_pk row =? 1))
         (tbl_info t))
    (tbl_count t).

Definition table_schemas (d : Db) : list TableSchema.t :=
  map schema_of_table
    (sort_by (λ a b, String.leb (tbl_name a) (tbl_name b))
       (filter (λ t, user_table t = true) (sqlite_master d))).

(** Whether the two statements that [loadTables] builds from the name
    of a user table, [PRAGMA table_info(name)] and
    [SELECT COUNT( * ) FROM name], run for every user table. *)
Definition tables_readable (d : Db) : bool :=
  forallb tbl_bare (filter (λ t, user_table t = true) (sqlite_master d)).

(** ** The world the hook runs in *)

(** An engine instance on the JavaScript heap; [closed] once [close()]
    was called on it. *)
Record Instance := mkInstance { inst_db : Db; closed : bool }.

(** The React state of [useDatabase].  [SQL] and [idb] say whether the
    sql.js module and the IndexedDB connection are set; [currentDb] is a
    reference into the heap of instances. *)
Record Hook := mkHook {
  SQL : bool;
  currentDb : option nat;
  currentDbId : string;
  idb : bool;
  isLoading : bool;
  tables : list TableSchema.t;
  queryHistory : list SavedQuery.t;
  databases : list DatabaseInfo.t }.

(** The three object stores of the IndexedDB database [QueryGenieDB],
    [localStorage], the instances allocated so far, the number of clock
    readings taken so far, and the state of the hook.  An object of the
    [databases] store is kept as the blob of its [data] field under its
    [id].  The operations of IndexedDB and of [localStorage] are taken to
    succeed; what remains of the try blocks of the hook are the errors of
    the engine and the one error the hook throws itself. *)
Record World := mkWorld {
  DATABASE_STORE : gmap string Blob;
  QUERIES_STORE : gmap string SavedQuery.fields;
  METADATA_STORE : gmap string string;
  localStorage : gmap string string;
  heap : list Instance;
  ticks : nat;
  hook : Hook }.

Definition LAST_DB_KEY : string := "lastOpenedDatabase".

Definition initial_Hook : Hook := mkHook false None "" false true [] [] [].

Definition with_databases_store (f : gmap string Blob -> gmap string Blob) (w : World) : World :=
  mkWorld (f (DATABASE_STORE w)) (QUERIES_STORE w) (METADATA_STORE w)
          (localStorage w) (heap w) (ticks w) (hook w).

Definition with_queries_store
    (f : gmap string SavedQuery.fields -> gmap string SavedQuery.fields) (w : World) : World :=
  mkWorld (DATABASE_STORE w) (f (QUERIES_STORE w)) (METADATA_STORE w)
          (localStorage w) (heap w) (ticks w) (hook w).

Definition with_localStorage (f : gmap string string -> gmap string string) (w : World) : World :=
  mkWorld (DATABASE_STORE w) (QUERIES_STORE w) (METADATA_STORE w)
          (f (localStorage w)) (heap w) (ticks w) (hook w).

Definition with_heap (f : list Instance -> list Instance) (w : World) : World :=
  mkWorld (DATABASE_STORE w) (QUERIES_STORE w) (METADATA_STORE w)
          (localStorage w) (f (heap w)) (ticks w) (hook w).

Definition with_hook (f : Hook -> Hook) (w : World) : World :=
  mkWorld (DATABASE_STORE w) (QUERIES_STORE w) (METADATA_STORE w)
          (localStorage w) (heap w) (ticks w) (f (hook w)).

Definition setSQL (v : bool) : World -> World :=
  with_hook (λ s, mkHook v (currentDb s) (currentDbId s) (idb s) (isLoading s)
                         (tables s) (queryHistory s) (databases s)).
Definition setCurrentDb (v : option nat) : World -> World :=
  with_hook (λ s, mkHook (SQL s) v (currentDbId s) (idb s) (isLoading s)
                         (tables s) (queryHistory s) (databases s)).
Definition setCurrentDbId (v : string) : World -> World :=
  with_hook (λ s, mkHook (SQL s) (currentDb s) v (idb s) (isLoading s)
                         (tables s) (queryHistory s) (databases s)).
Definition setIdb (v : bool) : World -> World :=
  with_hook (λ s, mkHook (SQL s) (currentDb s) (currentDbId s) v (isLoading s)
                         (tables s) (queryHistory s) (databases s)).
Definition setIsLoading (v : bool) : World -> World :=
  with_hook (λ s, mkHook (SQL s) (currentDb s) (currentDbId s) (idb s) v
                         (tables s) (queryHistory s) (databases s)).
Definition setTables (v : list TableSchema.t) : World -> World :=
  with_hook (λ s, mkHook (SQL s) (currentDb s) (currentDbId s) (idb s) (isLoading s)
                         v (queryHistory s) (databases s)).
Definition setQueryHistory (v : list SavedQuery.t) : World -> World :=
  with_hook (λ s, mkHook (SQL s) (currentDb s) (currentDbId s) (idb s) (isLoading s)
                         (tables s) v (databases s)).
Definition setDatabases (v : list DatabaseInfo.t) : World -> World :=
  with_hook (λ s, mkHook (SQL s) (currentDb s) (currentDbId s) (idb s) (isLoading s)
                         (tables s) (queryHistory s) v).

(** *** IndexedDB

    [getAll] yields the records of a store in the order of their keys. *)
Definition getAll {V} (m : gmap string V) : list (string * V) :=
  sort_by (λ a b, String.leb a.1 b.1) (map_to_list m).

Definition getAll_queries (w : World) : list SavedQuery.t :=
  map (λ kv, SavedQuery.mk kv.1 kv.2) (getAll (QUERIES_STORE w)).

(** [idb.put(QUERIES_STORE, q)] *)
Definition put_query (q : SavedQuery.t) : World -> World :=
  with_queries_store (insert (SavedQuery.id q) (SavedQuery.rest q)).

(** [idb.get(QUERIES_STORE, queryId)] *)
Definition get_query (queryId : string) (w : World) : option SavedQuery.t :=
  SavedQuery.mk queryId <$> QUERIES_STORE w !! queryId.

(** [idb.put(DATABASE_STORE, { id, data })] *)
Definition put_database (dbId : string) (data : Blob) : World -> World :=
  with_databases_store (insert dbId data).

(** *** Engine instances *)

(** [new SQL.Database(bytes)]: a new instance and the reference to it.
    It throws without the module, and the engine is taken to reject bytes
    that are no database when it is asked to open them. *)
Definition new_Database (sqlModule : bool) (data : Blob) (w : World) : option (nat * World) :=
  if sqlModule then
    match data with
    | Image d => Some (length (heap w), with_heap (λ l, l ++ [mkInstance d false]) w)
    | Corrupt => None
    end
  else None.

(** The database behind a reference; a statement on a closed instance throws. *)
Definition instance_db (h : nat) (w : World) : option Db :=
  match heap w !! h with
  | Some (mkInstance d false) => Some d
  | _ => None
  end.

Definition set_instance_db (h : nat) (d : Db) : World -> World :=
  with_heap (<[h := mkInstance d false]>).

(** [database.run(statement)] for a statement of the hook. *)
Definition run (f : Db -> option Db) (h : nat) (w : World) : option World :=
  d ← instance_db h w; d' ← f d; Some (set_instance_db h d' w).

(** [database.close()] *)
Definition close (h : nat) : World -> World :=
  with_heap (alter (λ i, mkInstance (inst_db i) true) h).

(** The instances that were not closed. *)
Definition live (w : World) : list Instance :=
  filter (λ i, closed i = false) (heap w).

(** [x || undefined] and [x || null] on an optional string. *)
Definition or_undefined (x : option string) : option string :=
  match x with
  | Some EmptyString => None
  | _ => x
  end.

(** The truth value of a string in a condition. *)
Definition truthy (s : string) : bool := negb (String.eqb s "").

(** ** The callbacks of the hook

    A callback reads the React state through the closure of the render
    that created it ([self] below) and writes it through the setters,
    which take effect for the next render.  A callback that a user
    action starts runs with [self] the state of the hook at that time. *)

Section Controller.

(** The system clock: the [n]-th reading of [Date.now()]. *)
Variable clock : nat -> Z.

(** [database.exec(query)] for a statement of the user: the database
    it leaves behind, and the result sets or the message of the error
    it throws. *)
Variable sqlite_exec : Db -> string -> Db * (string + list QueryExecResult).

Definition Date_now (w : World) : Z * World :=
  (clock (ticks w),
   mkWorld (DATABASE_STORE w) (QUERIES_STORE w) (METADATA_STORE w)
           (localStorage w) (heap w) (S (ticks w)) (hook w)).

(** [currentDb.exec(query)] *)
Definition exec (h : nat) (query : string) (w : World)
    : World * (string + list QueryExecResult) :=
  match instance_db h w with
  | Some d =>
      let '(d', r) := sqlite_exec d query in (set_instance_db h d' w, r)
  | None => (w, inl "Database closed")
  end.

Definition saveLastOpenedDatabase (dbId : string) : World -> World :=
  with_localStorage (insert LAST_DB_KEY dbId).

Definition getLastOpenedDatabase (w : World) : option string :=
  localStorage w !! LAST_DB_KEY.

Definition loadTables (database : nat) (w : World) : World :=
  match instance_db database w with
  | Some d =>
      if tables_readable d then setTables (table_schemas d) w
      else w                                    (* caught: toast *)
  | None => w                                   (* caught: toast *)
  end.

Definition loadQueryHistory (dbId : string) (w : World) : World :=
  let allQueries := getAll_queries w in
  let dbQueries :=
    filter (λ q : SavedQuery.t, SavedQuery.databaseId q = dbId) allQueries in
  setQueryHistory
    (sort_by (λ a b : SavedQuery.t, SavedQuery.timestamp b <=? SavedQuery.timestamp a)
       dbQueries) w.

Definition loadDatabase (sqlModule : bool) (dbId : string) (w : World) : World :=
  match DATABASE_STORE w !! dbId with
  | None => w                                   (* 'Database not found', caught *)
  | Some data =>
      match new_Database sqlModule data w with
      | None => w                               (* caught *)
      | Some (database, w) =>
          let w := setCurrentDb (Some database) w in
          let w := setCurrentDbId dbId w in
          let w := saveLastOpenedDatabase dbId w in
          let w := loadTables database w in
          loadQueryHistory dbId w
      end
  end.

(** The body of the loop of [loadDatabaseList] for one stored object. *)
Definition enhance (sqlModule : bool) (acc : World * list DatabaseInfo.t)
    (dbData : string * Blob) : World * list DatabaseInfo.t :=
  let '(w, enhancedDbList) := acc in
  match new_Database sqlModule dbData.2 w with
  | None => acc                                 (* caught: logged and skipped *)
  | Some (database, w) =>
      match run (λ d, Some (create_info_if_not_exists d)) database w with
      | None => (w, enhancedDbList)
      | Some w =>
          let result := d ← instance_db database w; select_info dbData.1 d in
          let enhancedDbList :=
            match result with
            | Some row =>
                enhancedDbList ++
                  [DatabaseInfo.mk dbData.1 (info_name row)
                     (or_undefined (info_description row))
                     (created_at row) (last_modified row)]
            | None => enhancedDbList
            end in
          (close database w, enhancedDbList)
      end
  end.

Definition visible (db : DatabaseInfo.t) : bool :=
  negb (String.eqb (DatabaseInfo.id db) "default")
  && negb (String.eqb (DatabaseInfo.id db) "sample")
  && negb (Js.includes "sample" (Js.toLowerCase (DatabaseInfo.name db))).

Definition by_lastModified (a b : DatabaseInfo.t) : bool :=
  DatabaseInfo.lastModified b <=? DatabaseInfo.lastModified a.

Definition has_id (dbId : string) (l : list DatabaseInfo.t) : bool :=
  existsb (λ db, String.eqb (DatabaseInfo.id db) dbId) l.

(** The selection of [loadDatabaseList] on a list that is not empty;
    [first] is [filteredDatabases[0].id]. *)
Definition targetDbId (filteredDatabases : list DatabaseInfo.t)
    (lastOpenedDbId : option string) (currentDbId : string) (first : string) : string :=
  match lastOpenedDbId with
  | Some lastOpened =>
      if truthy lastOpened && has_id lastOpened filteredDatabases then lastOpened
      else if truthy currentDbId && has_id currentDbId filteredDatabases then currentDbId
      else first
  | None =>
      if truthy currentDbId && has_id currentDbId filteredDatabases then currentDbId
      else first
  end.

Definition loadDatabaseList (self : Hook) (indexedDB sqlModule : bool) (w : World) : World :=
  if negb indexedDB then w else                 (* caught by the outer try *)
  let allDatabases := getAll (DATABASE_STORE w) in
  let '(w, enhancedDbList) := foldl (enhance sqlModule) (w, []) allDatabases in
  let filteredDatabases :=
    sort_by by_lastModified (filter (λ db, visible db = true) enhancedDbList) in
  let w := setDatabases filteredDatabases w in
  match filteredDatabases with
  | [] =>
      setQueryHistory [] (setTables [] (setCurrentDb None (setCurrentDbId "" w)))
  | first :: _ =>
      let lastOpenedDbId := getLastOpenedDatabase w in
      let target := targetDbId filteredDatabases lastOpenedDbId (currentDbId self)
                               (DatabaseInfo.id first) in
      if truthy target && negb (String.eqb target (currentDbId self))
      then loadDatabase sqlModule target w
      else w
  end.

Definition saveDatabase (database : nat) (dbId : string) (w : World) : World :=
  match instance_db database w with
  | None => w                                   (* caught: toast *)
  | Some data =>
      let w := put_database dbId (Image data) w in
      let '(now, w) := Date_now w in
      match run (update_last_modified now dbId) database w with
      | None => w                               (* caught: toast *)
      | Some w =>
          match instance_db database w with
          | None => w
          | Some updatedData => put_database dbId (Image updatedData) w
          end
      end
  end.

(** [switchDatabase] as a render with state [self] created it. *)
Definition switchDatabase_of (self : Hook) (dbId : string) (w : World) : World :=
  if negb (SQL self) || negb (idb self) then w
  else loadDatabase (SQL self) dbId w.

Definition switchDatabase (dbId : string) (w : World) : World :=
  switchDatabase_of (hook w) dbId w.

(** The new database both [createNewDatabase] and the ATTACH branch of
    [executeQuery] build: an empty instance with the reserved table
    and its one row.  [None] stands for a statement that throws. *)
Definition new_database_with_info (name : string) (description : option string)
    (w : World) : option (nat * string * World) :=
  let '(t, w) := Date_now w in
  let dbId := String.append "db_" (toString t) in
  '(database, w) ← new_Database true (Image empty_Db) w;
  w ← run create_info database w;
  let '(now, w) := Date_now w in
  w ← run (insert_info dbId (mkInfoRow name description now now)) database w;
  Some (database, dbId, w).

Definition createNewDatabase (name : string) (description : option string)
    (w : World) : World :=
  let self := hook w in
  if negb (SQL self) || negb (idb self) then w else
  match new_database_with_info name (or_undefined description) w with
  | None => w                                   (* caught: toast *)
  | Some (database, dbId, w) =>
      let w := saveDatabase database dbId w in
      let w := loadDatabaseList self (idb self) (SQL self) w in
      switchDatabase_of self dbId w
  end.

Definition deleteDatabase (dbId : string) (w : World) : World :=
  let self := hook w in
  if negb (idb self) then w else
  let w := with_databases_store (delete dbId) w in
  let allQueries := getAll_queries w in
  let queriesToDelete := filter (λ q : SavedQuery.t, SavedQuery.databaseId q = dbId) allQueries in
  let w := foldl (λ w query, with_queries_store (delete (SavedQuery.id query)) w)
                 w queriesToDelete in
  let w := if bool_decide (getLastOpenedDatabase w = Some dbId)
           then with_localStorage (delete LAST_DB_KEY) w else w in
  loadDatabaseList self (idb self) (SQL self) w.

(** The ATTACH branch of [executeQuery]. *)
Definition attach_database (self : Hook) (dbPath dbAlias : string) (w : World)
    : option World :=
  '(newDatabase, newDbId, w) ←
    new_database_with_info dbAlias (Some (String.append "Attached from " dbPath)) w;
  let w := saveDatabase newDatabase newDbId w in
  let w := loadDatabaseList self (idb self) (SQL self) w in
  Some (close newDatabase w).

(** The end of [executeQuery], from [if (result.length === 0)] on. *)
Definition return_result (self : Hook) (currentDb : nat) (query : string)
    (result : list QueryExecResult) (executionTime : Z) (w : World)
    : World * (string + QueryResult.t) :=
  match result with
  | [] =>
      let w :=
        if isDDL query && idb self then
          let w := saveDatabase currentDb (currentDbId self) w in
          let w := loadTables currentDb w in
          if SQL self then loadDatabaseList self (idb self) (SQL self) w
          else w
        else w in
      (w, inr (QueryResult.mk [] [] 0 executionTime))
  | r0 :: _ =>
      let queryResult :=
        QueryResult.mk (exec_columns r0) (exec_values r0)
                       (Z.of_nat (length (exec_values r0))) executionTime in
      let w := if idb self
               then saveDatabase currentDb (currentDbId self) w else w in
      let w := loadTables currentDb w in
      let w := if SQL self
               then loadDatabaseList self (idb self) (SQL self) w else w in
      (w, inr queryResult)
  end.

Definition executeQuery (query : string) (w : World)
    : World * (string + QueryResult.t) :=
  let self := hook w in
  match currentDb self with
  | None => (w, inl "No database selected")
  | Some currentDb =>
      let '(startTime, w) := Date_now w in
      let attach := attachMatch query in
      match exec currentDb query w with
      | (w, inl message) => (w, inl message)
      | (w, inr result) =>
          let '(t, w) := Date_now w in
          let executionTime := t - startTime in
          let attached :=
            match attach with
            | Some (dbPath, dbAlias) =>
                if idb self && SQL self
                then attach_database self dbPath dbAlias w
                else Some w
            | None => Some w
            end in
          match attached with
          | None => (w, inl "Query execution failed")
          | Some w => return_result self currentDb query result executionTime w
          end
      end
  end.

Definition saveQuery (query : string) (description : option string) (w : World) : World :=
  let self := hook w in
  if negb (idb self) || negb (truthy (currentDbId self)) then w else
  let '(t1, w) := Date_now w in
  let '(t2, w) := Date_now w in
  let savedQuery :=
    SavedQuery.mk (toString t1)
      (SavedQuery.mkFields query t2 description (Some false) (currentDbId self)) in
  let w := put_query savedQuery w in
  loadQueryHistory (currentDbId self) w.

Definition deleteQuery (queryId : string) (w : World) : World :=
  let self := hook w in
  if negb (idb self) then w else
  let w := with_queries_store (delete queryId) w in
  loadQueryHistory (currentDbId self) w.

(** [!query.isFavorite]: a missing field counts as false. *)
Definition not_isFavorite (f : option bool) : option bool :=
  match f with
  | Some b => Some (negb b)
  | None => Some true
  end.

Definition toggleFavorite (queryId : string) (w : World) : World :=
  let self := hook w in
  if negb (idb self) then w else
  match get_query queryId w with
  | Some query =>
      let query :=
        SavedQuery.mk (SavedQuery.id query)
          (SavedQuery.mkFields (SavedQuery.query query) (SavedQuery.timestamp query)
             (SavedQuery.description query)
             (not_isFavorite (SavedQuery.isFavorite query))
             (SavedQuery.databaseId query)) in
      let w := put_query query w in
      loadQueryHistory (currentDbId self) w
  | None => w
  end.

(** The effect that runs once after the first render, when both
    [initSqlJs] and [openDB] succeed. *)
Definition initializeDatabase (w : World) : World :=
  let self := hook w in
  let w := setSQL true w in
  let w := setIdb true w in
  let w := loadDatabaseList self true true w in
  setIsLoading false w.

End Controller.


(** ** The catalog a store holds

    What the loop of [loadDatabaseList] reads from one stored object, and
    the list [setDatabases] receives, as functions of the [databases]
    store.  [loadDatabaseList_eq] below relates them to the callback. *)

Definition catalog_entry (dbData : string * Blob) : option DatabaseInfo.t :=
  match dbData.2 with
  | Image d =>
      row ← select_info dbData.1 (create_info_if_not_exists d);
      Some (DatabaseInfo.mk dbData.1 (info_name row)
              (or_undefined (info_description row))
              (created_at row) (last_modified row))
  | Corrupt => None
  end.

Definition catalogOf (store : gmap string Blob) : list DatabaseInfo.t :=
  sort_by by_lastModified
    (filter (λ db, visible db = true) (omap catalog_entry (getAll store))).

(** The instance the loop leaves behind for one stored object. *)
Definition transient (dbData : string * Blob) : option Instance :=
  match dbData.2 with
  | Image d => Some (mkInstance (create_info_if_not_exists d) true)
  | Corrupt => None
  end.

(** ** Notions used in the statements *)

(** A database that holds the reserved table with one row. *)
Definition database_with_info (dbId : string) (row : InfoRow) : Db :=
  mkDb (Some {[ dbId := row ]}) [].

(** The database the ATTACH branch stores for an alias. *)
Definition attached_database (newDbId dbPath dbAlias : string) (now stamp : Z) : Db :=
  database_with_info newDbId
    (mkInfoRow dbAlias (Some (String.append "Attached from " dbPath)) now stamp).

(** What [saveDatabase] leaves in the instance: the database with
    [last_modified] set in the row of [dbId], or the database as it was
    when the reserved table is missing and the UPDATE throws. *)
Definition touched (now : Z) (dbId : string) (d : Db) : Db :=
  default d (update_last_modified now dbId d).

(** What [loadTables] does with the database [d] of an open instance:
    the table list is set when every statement runs, and stays as it was
    when one throws. *)
Definition tables_of (d : Db) (w : World) : World :=
  if tables_readable d then setTables (table_schemas d) w else w.

(** The world after [currentDb.exec(query)] left [d'] in the instance
    [h] and the two clock readings around it were taken. *)
Definition after_exec (h : nat) (d' : Db) (w : World) : World :=
  mkWorld (DATABASE_STORE w) (QUERIES_STORE w) (METADATA_STORE w) (localStorage w)
          (<[h := mkInstance d' false]> (heap w)) (S (S (ticks w))) (hook w).

(** The truth value of [query.isFavorite] in a condition and under [!]:
    a missing field counts as false. *)
Definition is_favorite (f : option bool) : bool :=
  match f with
  | Some b => b
  | None => false
  end.

(** What a reload of the catalog or of a database leaves as it was: the
    stores of IndexedDB, the clock and the two connection flags are the
    same in both worlds, the heap of the second extends the heap of the
    first, and of [localStorage] only the last opened id may differ. *)
Record reloaded (w w' : World) : Prop := mkReloaded {
  reloaded_databases : DATABASE_STORE w' = DATABASE_STORE w;
  reloaded_queries : QUERIES_STORE w' = QUERIES_STORE w;
  reloaded_metadata : METADATA_STORE w' = METADATA_STORE w;
  reloaded_ticks : ticks w' = ticks w;
  reloaded_heap : ∃ ext, heap w' = heap w ++ ext;
  reloaded_SQL : SQL (hook w') = SQL (hook w);
  reloaded_idb : idb (hook w') = idb (hook w);
  reloaded_lastOpened :
    localStorage w' !! LAST_DB_KEY = localStorage w !! LAST_DB_KEY
    ∨ ∃ dbId d, localStorage w' !! LAST_DB_KEY = Some dbId
                ∧ DATABASE_STORE w !! dbId = Some (Image d);
  reloaded_localStorage :
    ∀ k, k ≠ LAST_DB_KEY → localStorage w' !! k = localStorage w !! k }.

(** ** Concrete engines, clocks and worlds used in the examples *)

(** A small engine.  It knows four statements, rejects every other one,
    and leaves the reserved table alone. *)
Definition toy_exec (d : Db) (query : string) : Db * (string + list QueryExecResult) :=
  if String.eqb query "SELECT 1" then
    (d, inr [mkExec ["1"] [[SqlInteger 1]]])
  else if String.eqb query "CREATE TABLE t(x INTEGER)" then
    (mkDb (database_info d)
          (sqlite_master d ++ [mkTable "t" [mkPragmaRow "x" "INTEGER" 0 0] 0 true]),
     inr [])
  else if String.eqb query "INSERT INTO t VALUES (1)" then
    (mkDb (database_info d)
          (map (λ t, mkTable (tbl_name t) (tbl_info t) (tbl_count t + 1) (tbl_bare t))
               (sqlite_master d)),
     inr [])
  else if String.eqb query "ATTACH DATABASE 'f.db' AS other" then
    (d, inr [])
  else (d, inl "near or at the statement: error").

(** A clock that advances by one millisecond at every reading, and one
    that stands still. *)
Definition clock_ms (n : nat) : Z := 1000 + Z.of_nat n.
Definition clock_still (_ : nat) : Z := 1000.

(** A database as [createNewDatabase] leaves it. *)
Definition database_named (dbId name : string) (created modified : Z) : Db :=
  database_with_info dbId (mkInfoRow name None created modified).

Definition ready_Hook : Hook := mkHook true None "" true false [] [] [].

(** The store of P3: database A last modified at 5 and database B at 10,
    nothing remembered in [localStorage], nothing active. *)
Definition world_AB : World :=
  mkWorld {[ "A" := Image (database_named "A" "first" 1 5);
             "B" := Image (database_named "B" "second" 2 10) ]}
          ∅ ∅ ∅ [] 0 ready_Hook.

(** The same store with A remembered as the last opened database. *)
Definition world_AB_last_A : World :=
  with_localStorage (insert LAST_DB_KEY "A") world_AB.

(** The store of P3 after the user opened database A: one engine
    instance on the heap, referenced by the hook. *)
Definition world_A_active : World := switchDatabase "A" world_AB.

(** A browser that never ran the application. *)
Definition world_empty : World := mkWorld ∅ ∅ ∅ ∅ [] 0 initial_Hook.

(** The scenario of the specification: the application starts and the
    user creates the database shop, which gets the id db_1000. *)
Definition world_shop : World :=
  createNewDatabase clock_ms "shop" None (initializeDatabase world_empty).

(** The scenario continued: the user created the table t in shop. *)
Definition world_shop_t : World :=
  (executeQuery clock_ms toy_exec "CREATE TABLE t(x INTEGER)" world_shop).1.

(** ** What the hook returns, and the handlers of App that call it *)

Section Exports.

Variable clock : nat -> Z.
Variable sqlite_exec : Db -> string -> Db * (string + list QueryExecResult).

(** [loadTables: () => currentDb ? loadTables(currentDb) : Promise.resolve()] *)
Definition exported_loadTables (self : Hook) (w : World) : World :=
  match currentDb self with
  | Some currentDb => loadTables currentDb w
  | None => w
  end.

(** [saveDatabase: () => idb && currentDb ? saveDatabase(...) : Promise.resolve()] *)
Definition exported_saveDatabase (self : Hook) (w : World) : World :=
  if idb self then
    match currentDb self with
    | Some currentDb => saveDatabase clock currentDb (currentDbId self) w
    | None => w
    end
  else w.

End Exports.

(** The row [createNewDatabase] writes for a database, once
    [saveDatabase] stamped it. *)
Definition created_database (dbId name : string) (description : option string)
    (now stamp : Z) : Db :=
  database_with_info dbId (mkInfoRow name (or_undefined description) now stamp).

(** A list in which every element may stand before all the later ones. *)
Fixpoint ordered {A} (le : A -> A -> bool) (l : list A) : Prop :=
  match l with
  | [] => True
  | x :: r => Forall (λ y, le x y = true) r ∧ ordered le r
  end.

(** The order of [loadQueryHistory]: newest first. *)
Definition by_timestamp (a b : SavedQuery.t) : bool :=
  SavedQuery.timestamp b <=? SavedQuery.timestamp a.

(** ** The table builder (CreateTableModal) *)

Module Column.
Record t := mk {
  id : string;
  name : string;
  type : string;
  nullable : bool;
  primaryKey : bool;
  defaultValue : option string }.
End Column.

(** The field and the value of the five calls of [updateColumn] that the
    form makes. *)
Inductive ColumnUpdate :=
  | SetName (value : string)
  | SetType (value : string)
  | SetDefaultValue (value : string)
  | SetPrimaryKey (value : bool)
  | SetNullable (value : bool).

Module CreateTableModal.

Definition first_column : Column.t :=
  Column.mk "1" "USER_ID" "INTEGER" false true (Some "").

(** [addColumn]; [now] is the reading of [Date.now()]. *)
Definition addColumn (now : Z) (columns : list Column.t) : list Column.t :=
  columns ++ [Column.mk (toString now) "COLUMN_NAME" "TEXT" true false (Some "")].

Definition removeColumn (id : string) (columns : list Column.t) : list Column.t :=
  if (1 <? length columns)%nat
  then filter (λ col, Column.id col ≠ id) columns
  else columns.

(** [{ ...col, [field]: value }] *)
Definition assign (u : ColumnUpdate) (col : Column.t) : Column.t :=
  match u with
  | SetName v =>
      Column.mk (Column.id col) v (Column.type col) (Column.nullable col)
                (Column.primaryKey col) (Column.defaultValue col)
  | SetType v =>
      Column.mk (Column.id col) (Column.name col) v (Column.nullable col)
                (Column.primaryKey col) (Column.defaultValue col)
  | SetDefaultValue v =>
      Column.mk (Column.id col) (Column.name col) (Column.type col) (Column.nullable col)
                (Column.primaryKey col) (Some v)
  | SetPrimaryKey v =>
      Column.mk (Column.id col) (Column.name col) (Column.type col) (Column.nullable col)
                v (Column.defaultValue col)
  | SetNullable v =>
      Column.mk (Column.id col) (Column.name col) (Column.type col) v
                (Column.primaryKey col) (Column.defaultValue col)
  end.

Definition updateColumn (id : string) (u : ColumnUpdate) (columns : list Column.t)
    : list Column.t :=
  map (λ col,
    if String.eqb (Column.id col) id then
      let updatedCol := assign u col in
      match u with
      | SetPrimaryKey true =>
          Column.mk (Column.id updatedCol) (Column.name updatedCol) (Column.type updatedCol)
                    false (Column.primaryKey updatedCol) (Column.defaultValue updatedCol)
      | SetPrimaryKey false => updatedCol
      | SetNullable true => if Column.primaryKey col then col else updatedCol
      | _ => updatedCol
      end
    else
      match u with
      | SetPrimaryKey true =>
          Column.mk (Column.id col) (Column.name col) (Column.type col)
                    (Column.nullable col) false (Column.defaultValue col)
      | _ => col
      end) columns.

(** [/^[a-zA-Z_][a-zA-Z0-9_]*$/.test(s)] *)
Definition is_letter_ (c : ascii) : bool :=
  let n := Js.code c in
  ((65 <=? n) && (n <=? 90) || (97 <=? n) && (n <=? 122) || (n =? 95))%N.

Fixpoint all_chars (p : ascii -> bool) (s : string) : bool :=
  match s with
  | EmptyString => true
  | String c r => p c && all_chars p r
  end.

Definition is_identifier (s : string) : bool :=
  match s with
  | EmptyString => false
  | String c r => is_letter_ c && all_chars Js.is_word r
  end.

(** The body of the [forEach] of [validateForm]: the set of names seen
    so far and the keys of the errors raised so far. *)
Definition validate_column (acc : gset string * list string) (col : Column.t)
    : gset string * list string :=
  let '(columnNames, newErrors) := acc in
  let colKey := String.append "column_" (Column.id col) in
  let key := String.append colKey "_name" in
  let name := Js.trim (Column.name col) in
  if negb (truthy name) then (columnNames, newErrors ++ [key])
  else if negb (is_identifier name) then (columnNames, newErrors ++ [key])
  else if bool_decide (Js.toLowerCase name ∈ columnNames) then (columnNames, newErrors ++ [key])
  else ({[ Js.toLowerCase name ]} ∪ columnNames, newErrors).

(** The keys of [newErrors] that [validateForm] sets. *)
Definition validation_errors (tableName : string) (columns : list Column.t) : list string :=
  let table_errors :=
    if negb (truthy (Js.trim tableName)) then ["tableName"]
    else if negb (is_identifier (Js.trim tableName)) then ["tableName"]
    else [] in
  (foldl validate_column (∅, table_errors) columns).2.

(** [Object.keys(newErrors).length === 0] *)
Definition validateForm (tableName : string) (columns : list Column.t) : bool :=
  bool_decide (validation_errors tableName columns = []).

Definition nl : string := String (ascii_of_nat 10) EmptyString.

Definition column_definition (col : Column.t) : string :=
  let definition := String.append (Column.name col) (String.append " " (Column.type col)) in
  let definition :=
    if Column.primaryKey col then
      let definition := String.append definition " PRIMARY KEY" in
      if String.eqb (Column.type col) "INTEGER"
      then String.append definition " AUTOINCREMENT" else definition
    else definition in
  let definition :=
    if negb (Column.nullable col) && negb (Column.primaryKey col)
    then String.append definition " NOT NULL" else definition in
  match Column.defaultValue col with
  | Some defaultValue =>
      if truthy defaultValue && negb (Column.primaryKey col) then
        if String.eqb (Column.type col) "TEXT" || String.prefix "VARCHAR" (Column.type col)
        then String.append definition
               (String.append " DEFAULT '" (String.append defaultValue "'"))
        else String.append definition (String.append " DEFAULT " defaultValue)
      else definition
  | None => definition
  end.

Definition generateSQL (tableName : string) (columns : list Column.t) : string :=
  String.append "CREATE TABLE "
    (String.append tableName
       (String.append " ("
          (String.append nl
             (String.append "  "
                (String.append
                   (String.concat (String.append "," (String.append nl "  "))
                      (map column_definition columns))
                   (String.append nl ");")))))).

End CreateTableModal.

(** An engine for the examples that accepts every statement that passes
    the DDL test, adding a table named users, and rejects the others. *)
Definition ddl_exec (d : Db) (query : string) : Db * (string + list QueryExecResult) :=
  if isDDL query
  then (mkDb (database_info d) (sqlite_master d ++ [mkTable "users" [] 0 true]), inr [])
  else (d, inl "not a DDL statement").

(** Every primary key column is declared not nullable. *)
Definition primary_keys_not_nullable (columns : list Column.t) : Prop :=
  ∀ col, col ∈ columns → Column.primaryKey col = true → Column.nullable col = false.

(** One step of editing in the form of the table builder. *)
Inductive ColumnEdit :=
  | AddColumn (now : Z)
  | RemoveColumn (id : string)
  | UpdateColumn (id : string) (u : ColumnUpdate).

Definition edit_columns (columns : list Column.t) (e : ColumnEdit) : list Column.t :=
  match e with
  | AddColumn now => CreateTableModal.addColumn now columns
  | RemoveColumn id => CreateTableModal.removeColumn id columns
  | UpdateColumn id u => CreateTableModal.updateColumn id u columns
  end.

(** The name of a column as [validateForm] compares it. *)
Definition normalized_name (col : Column.t) : string :=
  Js.toLowerCase (Js.trim (Column.name col)).

(** ** The pages of the result view (ResultsDisplay)

    The numbers of the component are integers: row counts, page numbers
    and page sizes, all far below the range where the doubles of
    JavaScript stop being exact. *)

Module ResultsDisplay.

(** [Math.ceil(a / b)] for [0 <= a] and [0 < b]. *)
Definition ceil_div (a b : Z) : Z := (a + b - 1) / b.

(** [l.slice(start, end)]: a negative index counts from the end, and
    both are cut to the length. *)
Definition slice {A} (start finish : Z) (l : list A) : list A :=
  let len := Z.of_nat (length l) in
  let clamp i := if i <? 0 then Z.max (len + i) 0 else Z.min i len in
  let k := clamp start in
  let final := clamp finish in
  take (Z.to_nat (final - k)) (drop (Z.to_nat k) l).

Section Pagination.

Variable results : option QueryResult.t.
Variable currentPage : Z.
Variable entriesPerPage : Z.

(** [results?.rowCount || 0] *)
Definition totalEntries : Z :=
  match results with
  | Some r => QueryResult.rowCount r
  | None => 0
  end.

Definition totalPages : Z := ceil_div totalEntries entriesPerPage.
Definition startIndex : Z := (currentPage - 1) * entriesPerPage.
Definition endIndex : Z := Z.min (startIndex + entriesPerPage) totalEntries.

(** [results?.values.slice(startIndex, endIndex) || []] *)
Definition paginatedData : list (list SqlValue) :=
  match results with
  | Some r => slice startIndex endIndex (QueryResult.values r)
  | None => []
  end.

(** The page [handlePageChange(page)] sets. *)
Definition handlePageChange (page : Z) : Z := Z.max 1 (Z.min page totalPages).

(** The number on the [i]-th page button. *)
Definition pageNum (i : Z) : Z :=
  if totalPages <=? 5 then i + 1
  else if currentPage <=? 3 then i + 1
  else if totalPages - 2 <=? currentPage then totalPages - 4 + i
  else currentPage - 2 + i.

(** [Array.from({ length: Math.min(5, totalPages) }, (_, i) => pageNum)] *)
Definition page_buttons : list Z := map pageNum (seqZ 0 (Z.min 5 totalPages)).

End Pagination.

End ResultsDisplay.


(** ** The text-to-SQL service (services/pollinations) *)

Module Pollinations.

Inductive Role := system | user | assistant.

Record Message := mkMessage { role : Role; content : string }.

(** What [fetch] resolves to. *)
Record Response := mkResponse { ok : bool; status : Z; text : string }.

Definition nl : string := String (ascii_of_nat 10) EmptyString.
Definition quote : string := String (ascii_of_nat 34) EmptyString.

Definition FAILED : string := "Failed to generate SQL query. Please try again.".

Definition fence : string := "```".
Definition fence_sql : string := "```sql".

(** [s.replace(/```sql|```/g, '')] from the position at hand, where
    [skip] characters of the match found last are still to be dropped.
    The matches are found from left to right and do not overlap; at each
    position the first alternative is tried first. *)
Fixpoint remove_fences_from (skip : nat) (s : string) : string :=
  match s with
  | EmptyString => EmptyString
  | String c r =>
      match skip with
      | S k => remove_fences_from k r
      | O =>
          if String.prefix fence_sql s then remove_fences_from 5 r
          else if String.prefix fence s then remove_fences_from 2 r
          else String c (remove_fences_from 0 r)
      end
  end.

Definition remove_fences : string -> string := remove_fences_from 0.

(** One column in the description of the schema. *)
Definition column_description (col : TableColumn.t) : string :=
  let constraints :=
    (if TableColumn.primaryKey col then ["PRIMARY KEY"] else [])
    ++ (if negb (TableColumn.nullable col) then ["NOT NULL"] else []) in
  String.append (TableColumn.name col)
    (String.append " "
       (String.append (TableColumn.type col)
          (if (0 <? length constraints)%nat
           then String.append " (" (String.append (String.concat ", " constraints) ")")
           else EmptyString))).

Definition schemaDescription (schema : list TableSchema.t) : string :=
  String.concat (String.append nl nl)
    (map (λ table,
            let columns :=
              String.concat ", " (map column_description (TableSchema.columns table)) in
            String.append "Table: "
              (String.append (TableSchema.name table)
                 (String.append nl (String.append "Columns: " columns))))
         schema).

Definition prompt (naturalLanguageQuery : string) (schema : list TableSchema.t) : string :=
  String.concat EmptyString
    [ "Given the following database schema, generate a SQL query for the request: ";
      quote; naturalLanguageQuery; quote; nl;
      nl;
      "Database Schema:"; nl;
      schemaDescription schema; nl;
      nl;
      "Requirements:"; nl;
      "- Generate only the SQL query, no explanations"; nl;
      "- Use proper SQL syntax compatible with SQLite"; nl;
      "- If the request is ambiguous, make reasonable assumptions"; nl;
      "- Include appropriate JOINs when needed"; nl;
      "- Use proper column names and table names as specified in the schema"; nl;
      "- Return only the SQL query without any markdown formatting or additional text"; nl;
      nl;
      "SQL Query:" ].

Section Service.

(** The server: what [fetch] gives for the messages posted, a response
    or the message of the error it rejects with. *)
Variable fetch : list Message -> string + Response.

Definition getChatCompletion (messages : list Message) : string + string :=
  match fetch messages with
  | inl message => inl message
  | inr response =>
      if negb (ok response) then
        inl (String.append "Server error: "
               (String.append (toString (status response))
                  (String.append " - " (text response))))
      else inr (text response)
  end.

Definition generateSQLQuery (naturalLanguageQuery : string) (schema : list TableSchema.t)
    : string + string :=
  let messages :=
    [ mkMessage system
        "You are a SQL expert. Generate only SQL queries without any explanations or markdown formatting.";
      mkMessage user (prompt naturalLanguageQuery schema) ] in
  match getChatCompletion messages with
  | inr sqlQuery =>
      if negb (truthy sqlQuery) then inl FAILED
      else inr (Js.trim (remove_fences (Js.trim sqlQuery)))
  | inl _ => inl FAILED
  end.

End Service.

End Pollinations.

(** A server for the examples: it answers every request with a fenced
    statement. *)
Definition fenced_server (messages : list Pollinations.Message)
    : string + Pollinations.Response :=
  inr (Pollinations.mkResponse true 200
         (String.concat Pollinations.nl ["```sql"; "SELECT * FROM users"; "```"])).

(** ** The history panel (QueryHistory) *)

Module QueryHistory.

Inductive Filter := all | favorites.

(** [text.toLowerCase().includes(searchTerm.toLowerCase())] *)
Definition matches (searchTerm text : string) : bool :=
  Js.includes (Js.toLowerCase searchTerm) (Js.toLowerCase text).

Definition filteredQueries (queries : list SavedQuery.t) (searchTerm : string)
    (filter : Filter) : list SavedQuery.t :=
  List.filter
    (λ query : SavedQuery.t,
       let matchesSearch :=
         matches searchTerm (SavedQuery.query query)
         || match SavedQuery.description query with
            | Some description => matches searchTerm description
            | None => false
            end in
       let matchesFilter :=
         match filter with
         | all => true
         | favorites => is_favorite (SavedQuery.isFavorite query)
         end in
       matchesSearch && matchesFilter)
    queries.

End QueryHistory.

(** ** The handlers of App

    The state of the component, and what its handlers do to it and,
    through the callbacks of the hook, to the world.  The handlers use the
    callbacks of the render they were created in; a user action runs them
    with the state of the hook at that time.  The toasts are left out. *)

Module App.

Record t := mk {
  currentQuery : string;
  queryResults : option QueryResult.t;
  queryError : option string;
  isExecuting : bool;
  isGenerating : bool;
  selectedTable : option string;
  showHistory : bool;
  lastGeneratedQuery : string;
  showCreateDatabaseModal : bool }.

Definition initial_query : string :=
  String.append "-- Write your SQL query here"
    (String.append (String (ascii_of_nat 10) EmptyString) "SELECT 1;").

Definition initial : t :=
  mk initial_query None None false false None false EmptyString false.

Definition setCurrentQuery (v : string) (a : t) : t :=
  mk v (queryResults a) (queryError a) (isExecuting a) (isGenerating a)
     (selectedTable a) (showHistory a) (lastGeneratedQuery a) (showCreateDatabaseModal a).
Definition setQueryResults (v : option QueryResult.t) (a : t) : t :=
  mk (currentQuery a) v (queryError a) (isExecuting a) (isGenerating a)
     (selectedTable a) (showHistory a) (lastGeneratedQuery a) (showCreateDatabaseModal a).
Definition setQueryError (v : option string) (a : t) : t :=
  mk (currentQuery a) (queryResults a) v (isExecuting a) (isGenerating a)
     (selectedTable a) (showHistory a) (lastGeneratedQuery a) (showCreateDatabaseModal a).
Definition setIsExecuting (v : bool) (a : t) : t :=
  mk (currentQuery a) (queryResults a) (queryError a) v (isGenerating a)
     (selectedTable a) (showHistory a) (lastGeneratedQuery a) (showCreateDatabaseModal a).
Definition setIsGenerating (v : bool) (a : t) : t :=
  mk (currentQuery a) (queryResults a) (queryError a) (isExecuting a) v
     (selectedTable a) (showHistory a) (lastGeneratedQuery a) (showCreateDatabaseModal a).
Definition setSelectedTable (v : option string) (a : t) : t :=
  mk (currentQuery a) (queryResults a) (queryError a) (isExecuting a) (isGenerating a)
     v (showHistory a) (lastGeneratedQuery a) (showCreateDatabaseModal a).
Definition setShowHistory (v : bool) (a : t) : t :=
  mk (currentQuery a) (queryResults a) (queryError a) (isExecuting a) (isGenerating a)
     (selectedTable a) v (lastGeneratedQuery a) (showCreateDatabaseModal a).
Definition setLastGeneratedQuery (v : string) (a : t) : t :=
  mk (currentQuery a) (queryResults a) (queryError a) (isExecuting a) (isGenerating a)
     (selectedTable a) (showHistory a) v (showCreateDatabaseModal a).
Definition setShowCreateDatabaseModal (v : bool) (a : t) : t :=
  mk (currentQuery a) (queryResults a) (queryError a) (isExecuting a) (isGenerating a)
     (selectedTable a) (showHistory a) (lastGeneratedQuery a) v.

(** The nine calls that follow a change of database. *)
Definition reset_ui (a : t) : t :=
  let a := setCurrentQuery initial_query a in
  let a := setQueryResults None a in
  let a := setQueryError None a in
  let a := setSelectedTable None a in
  let a := setShowHistory false a in
  let a := setLastGeneratedQuery EmptyString a in
  let a := setIsExecuting false a in
  let a := setIsGenerating false a in
  setShowCreateDatabaseModal false a.

(** [queryToExecute || currentQuery] *)
Definition or_else (x : option string) (y : string) : string :=
  match x with
  | Some s => if truthy s then s else y
  | None => y
  end.

Section Handlers.

Variable clock : nat -> Z.
Variable sqlite_exec : Db -> string -> Db * (string + list QueryExecResult).
Variable fetch : list Pollinations.Message -> string + Pollinations.Response.

Definition handleSwitchDatabase (dbId : string) (a : t) (w : World) : t * World :=
  let w := switchDatabase dbId w in
  (reset_ui a, w).

Definition createNewDatabase (name : string) (description : option string)
    (a : t) (w : World) : t * World :=
  let w := createNewDatabase clock name description w in
  (reset_ui a, w).

Definition deleteDatabase (dbId : string) (a : t) (w : World) : t * World :=
  let w := deleteDatabase dbId w in
  (reset_ui a, w).

Definition handleExecuteQuery (queryToExecute : option string)
    (a : t) (w : World) : t * World :=
  let self := hook w in
  let query := or_else queryToExecute (currentQuery a) in
  if negb (truthy (Js.trim query)) then (a, w) else
  let a := setIsExecuting true a in
  let a := setQueryError None a in
  let a := setQueryResults None a in
  match executeQuery clock sqlite_exec query w with
  | (w, inr result) =>
      let a := setQueryResults (Some result) a in
      let w := exported_loadTables self w in
      (setIsExecuting false a, w)
  | (w, inl errorMessage) =>
      let a := setQueryError (Some errorMessage) a in
      (setIsExecuting false a, w)
  end.

Definition handleNaturalLanguageQuery (input : string) (a : t) (w : World) : t * World :=
  let self := hook w in
  if negb (truthy (currentDbId self)) then (a, w) else
  let a := setIsGenerating true a in
  match Pollinations.generateSQLQuery fetch input (tables self) with
  | inr sqlQuery =>
      let a := setLastGeneratedQuery sqlQuery a in
      let '(a, w) := handleExecuteQuery (Some sqlQuery) a w in
      (setIsGenerating false a, w)
  | inl _ => (setIsGenerating false a, w)
  end.

(** [answer] is what the user gave to the prompt for a description:
    [None] when the prompt was cancelled. *)
Definition handleSaveQuery (answer : option string) (a : t) (w : World) : World :=
  if negb (truthy (Js.trim (currentQuery a))) then w
  else saveQuery clock (currentQuery a) (or_undefined answer) w.

Definition handleTableSelect (tableName : string) (a : t) (w : World) : t * World :=
  let a := setSelectedTable (Some tableName) a in
  let query := String.append "SELECT * FROM " tableName in
  handleExecuteQuery (Some query) a w.

(** The last component is the message of the error [handleDropTable]
    throws again, if any. *)
Definition handleDropTable (tableName : string) (a : t) (w : World)
    : t * World * option string :=
  let query := String.append "DROP TABLE " tableName in
  match executeQuery clock sqlite_exec query w with
  | (w, inr _) =>
      let a := if bool_decide (selectedTable a = Some tableName)
               then setSelectedTable None a else a in
      let a := setQueryResults None a in
      let a := setQueryError None a in
      (a, w, None)
  | (w, inl errorMessage) => (a, w, Some errorMessage)
  end.

End Handlers.

End App.

(** An engine for the examples: a database with the one table users,
    which SELECT reads and DROP TABLE removes. *)
Definition users_exec (d : Db) (query : string) : Db * (string + list QueryExecResult) :=
  if String.eqb query "SELECT * FROM users" then
    (d, inr [mkExec ["id"] [[SqlInteger 1]; [SqlInteger 2]]])
  else if String.eqb query "DROP TABLE users" then
    (mkDb (database_info d) [], inr [])
  else if String.eqb query "INSERT INTO users VALUES (3)" then
    (mkDb (database_info d) [mkTable "users" [] 3 true], inr [])
  else (d, inl "no such table").
(** * Proofs *)

(** ** Sorting and the order of [getAll] *)

Section Sorting.
Context {A : Type} (le : A -> A -> bool).

Lemma insert_sorted_Permutation x l : insert_sorted le x l ≡ₚ x :: l.
Proof.
  induction l as [|y r IH]; simpl; [done|].
  destruct (le x y); [done|].
  rewrite IH. apply Permutation_swap.
Qed.

Lemma sort_by_Permutation l : sort_by le l ≡ₚ l.
Proof.
  induction l as [|x r IH]; simpl; [done|].
  unfold sort_by in *. simpl.
  rewrite insert_sorted_Permutation. by rewrite IH.
Qed.

Lemma elem_of_sort_by x l : x ∈ sort_by le l ↔ x ∈ l.
Proof. by rewrite sort_by_Permutation. Qed.

Hypothesis le_total : ∀ a b, le a b = false → le b a = true.
Hypothesis le_trans : ∀ a b c, le a b = true → le b c = true → le a c = true.

Lemma insert_sorted_head_first x l :
  head_first le l → head_first le (insert_sorted le x l).
Proof.
  destruct l as [|y r]; simpl; [by constructor|].
  intros Hy. destruct (le x y) eqn:Hxy; simpl.
  - constructor; [done|].
    eapply Forall_impl; [exact Hy|]. simpl. eauto.
  - rewrite insert_sorted_Permutation. constructor; [auto|done].
Qed.

Lemma sort_by_head_first l : head_first le (sort_by le l).
Proof.
  induction l as [|x r IH]; simpl; [done|].
  by apply insert_sorted_head_first.
Qed.

End Sorting.

Lemma elem_of_getAll {V} (m : gmap string V) k v :
  (k, v) ∈ getAll m ↔ m !! k = Some v.
Proof.
  unfold getAll. rewrite elem_of_sort_by. apply elem_of_map_to_list.
Qed.

(** ** The loop of [loadDatabaseList] *)

Lemma with_heap_with_heap f g w :
  with_heap f (with_heap g w) = with_heap (λ l, f (g l)) w.
Proof. done. Qed.

Lemma with_heap_ext f g w :
  f (heap w) = g (heap w) → with_heap f w = with_heap g w.
Proof. unfold with_heap. by intros ->. Qed.

Lemma with_heap_id w : with_heap (λ l, l ++ []) w = w.
Proof. destruct w. unfold with_heap. simpl. by rewrite app_nil_r. Qed.

Lemma enhance_true w acc dbData :
  enhance true (w, acc) dbData =
    (with_heap (λ l, l ++ option_list (transient dbData)) w,
     acc ++ option_list (catalog_entry dbData)).
Proof.
  destruct dbData as [k [d|]]; unfold enhance, transient, catalog_entry; simpl.
  - unfold run, instance_db. simpl.
    rewrite lookup_app_r by lia. rewrite Nat.sub_diag. simpl.
    rewrite list_lookup_insert_eq by (rewrite length_app; simpl; lia).
    simpl. f_equal.
    + unfold close, set_instance_db. rewrite !with_heap_with_heap.
      apply with_heap_ext.
      rewrite insert_app_r_alt by lia. rewrite Nat.sub_diag. simpl.
      rewrite alter_app_r_alt by lia. by rewrite Nat.sub_diag.
    + destruct (select_info k (create_info_if_not_exists d)); simpl; [done|].
      by rewrite app_nil_r.
  - by rewrite with_heap_id, app_nil_r.
Qed.

Lemma foldl_enhance_true l w acc :
  foldl (enhance true) (w, acc) l =
    (with_heap (λ h, h ++ omap transient l) w, acc ++ omap catalog_entry l).
Proof.
  revert w acc. induction l as [|x l IH]; intros w acc; cbn [foldl omap list_omap].
  - by rewrite with_heap_id, app_nil_r.
  - rewrite enhance_true, IH. rewrite with_heap_with_heap. f_equal.
    + apply with_heap_ext. rewrite <- app_assoc. f_equal.
      by destruct (transient x).
    + rewrite <- app_assoc. f_equal. by destruct (catalog_entry x).
Qed.

Lemma foldl_enhance_false l w acc :
  foldl (enhance false) (w, acc) l = (w, acc).
Proof. induction l; simpl; auto. Qed.

Lemma loadDatabaseList_eq self w :
  loadDatabaseList self true true w =
    let filteredDatabases := catalogOf (DATABASE_STORE w) in
    let w1 := setDatabases filteredDatabases
                (with_heap (λ h, h ++ omap transient (getAll (DATABASE_STORE w))) w) in
    match filteredDatabases with
    | [] => setQueryHistory [] (setTables [] (setCurrentDb None (setCurrentDbId "" w1)))
    | first :: _ =>
        let target := targetDbId filteredDatabases (getLastOpenedDatabase w)
                                 (currentDbId self) (DatabaseInfo.id first) in
        if truthy target && negb (String.eqb target (currentDbId self))
        then loadDatabase true target w1 else w1
    end.
Proof.
  unfold loadDatabaseList. cbn [negb]. rewrite foldl_enhance_true. reflexivity.
Qed.

Lemma loadDatabaseList_no_module self w :
  loadDatabaseList self true false w =
    setQueryHistory [] (setTables [] (setCurrentDb None (setCurrentDbId ""
      (setDatabases [] w)))).
Proof.
  unfold loadDatabaseList. cbn [negb]. rewrite foldl_enhance_false. reflexivity.
Qed.

Lemma setTables_id w : setTables (tables (hook w)) w = w.
Proof. by destruct w as [? ? ? ? ? ? []]. Qed.

(** [tables_of] sets the table list, to the one it had when a statement
    throws, and touches nothing else. *)
Lemma tables_of_eq d w :
  tables_of d w =
    setTables (if tables_readable d then table_schemas d else tables (hook w)) w.
Proof. unfold tables_of. destruct (tables_readable d); [done|]. by rewrite setTables_id. Qed.

Lemma loadTables_eq h d w :
  heap w !! h = Some (mkInstance d false) → loadTables h w = tables_of d w.
Proof. intros Hh. unfold loadTables, instance_db. by rewrite Hh. Qed.

Lemma loadDatabase_Image dbId d w :
  DATABASE_STORE w !! dbId = Some (Image d) →
  loadDatabase true dbId w =
    let database := length (heap w) in
    loadQueryHistory dbId
      (tables_of d
        (saveLastOpenedDatabase dbId
          (setCurrentDbId dbId
            (setCurrentDb (Some database)
              (with_heap (λ l, l ++ [mkInstance d false]) w))))).
Proof.
  intros H. unfold loadDatabase. rewrite H. simpl.
  unfold loadTables, instance_db. simpl.
  rewrite lookup_app_r by lia. by rewrite Nat.sub_diag.
Qed.

(** ** What is in the catalog of a store *)

Lemma catalog_entry_id k b e : catalog_entry (k, b) = Some e → DatabaseInfo.id e = k.
Proof.
  unfold catalog_entry. destruct b as [d|]; simpl; [|done].
  destruct (select_info k (create_info_if_not_exists d)); simpl; [|done].
  by intros [= <-].
Qed.

Lemma catalog_entry_Image k b e : catalog_entry (k, b) = Some e → ∃ d, b = Image d.
Proof. destruct b; [eauto|done]. Qed.

Lemma elem_of_catalogOf store e :
  e ∈ catalogOf store ↔
    visible e = true ∧
    ∃ b, store !! DatabaseInfo.id e = Some b ∧ catalog_entry (DatabaseInfo.id e, b) = Some e.
Proof.
  unfold catalogOf. rewrite elem_of_sort_by, list_elem_of_filter, list_elem_of_omap.
  split.
  - intros [Hv ([k b] & Hin & He)]. split; [done|].
    pose proof (catalog_entry_id _ _ _ He) as ->.
    exists b. split; [by apply elem_of_getAll|done].
  - intros [Hv (b & Hb & He)]. split; [done|].
    exists (DatabaseInfo.id e, b). split; [by apply elem_of_getAll|done].
Qed.

Lemma catalogOf_Image store e :
  e ∈ catalogOf store → ∃ d, store !! DatabaseInfo.id e = Some (Image d).
Proof.
  rewrite elem_of_catalogOf. intros (_ & b & Hb & He).
  destruct (catalog_entry_Image _ _ _ He) as [d ->]. eauto.
Qed.

Lemma has_id_true dbId l :
  has_id dbId l = true ↔ ∃ e, e ∈ l ∧ DatabaseInfo.id e = dbId.
Proof.
  unfold has_id. rewrite existsb_exists. split.
  - intros (e & Hin & He). exists e. split; [by apply list_elem_of_In|].
    by apply String.eqb_eq.
  - intros (e & Hin & He). exists e. split; [by apply list_elem_of_In|].
    by apply String.eqb_eq.
Qed.

Lemma by_lastModified_total a b : by_lastModified a b = false → by_lastModified b a = true.
Proof. unfold by_lastModified. lia. Qed.

Lemma by_lastModified_trans a b c :
  by_lastModified a b = true → by_lastModified b c = true → by_lastModified a c = true.
Proof. unfold by_lastModified. lia. Qed.

(** The first entry of a catalog is one of the most recently modified. *)
Lemma catalogOf_first store first rest :
  catalogOf store = first :: rest →
  ∀ e, e ∈ catalogOf store → DatabaseInfo.lastModified e ≤ DatabaseInfo.lastModified first.
Proof.
  intros Hc e He.
  pose proof (sort_by_head_first by_lastModified by_lastModified_total
                by_lastModified_trans
                (filter (λ db, visible db = true) (omap catalog_entry (getAll store)))) as Hh.
  fold (catalogOf store) in Hh. rewrite Hc in *. simpl in Hh.
  apply elem_of_cons in He as [->|He]; [lia|].
  rewrite Forall_forall in Hh. specialize (Hh e He). unfold by_lastModified in Hh. lia.
Qed.

(** ** Selection of the active database *)

Lemma catalogOf_id_truthy store e :
  store !! "" = None → e ∈ catalogOf store → truthy (DatabaseInfo.id e) = true.
Proof.
  intros Hs He. destruct (catalogOf_Image _ _ He) as [d Hd].
  unfold truthy. destruct (String.eqb_spec (DatabaseInfo.id e) ""); [|done].
  congruence.
Qed.

Lemma has_id_truthy store dbId :
  store !! "" = None → has_id dbId (catalogOf store) = true → truthy dbId = true.
Proof.
  intros Hs (e & He & <-)%has_id_true. by eapply catalogOf_id_truthy.
Qed.

Lemma loadDatabase_selects dbId w :
  (∃ d, DATABASE_STORE w !! dbId = Some (Image d)) →
  currentDbId (hook (loadDatabase true dbId w)) = dbId.
Proof. intros [d Hd]. rewrite (loadDatabase_Image _ _ _ Hd). cbv zeta. by rewrite tables_of_eq. Qed.

Lemma has_id_Image store dbId :
  has_id dbId (catalogOf store) = true → ∃ d, store !! dbId = Some (Image d).
Proof. intros (e & He & <-)%has_id_true. by apply catalogOf_Image. Qed.

(** C4: on a store that holds no database under the empty id, rebuilding
    the catalog makes a remembered last opened id active when it is in the
    filtered list; else keeps the active id when it is in the list; else
    makes the first entry of the list active, which has the greatest
    lastModified.  With the catalog A (modified at 5) and B (modified at
    10), nothing active and nothing remembered, B becomes active; with A
    remembered as last opened, A becomes active. *)
Theorem reselection_policy :
  (∀ w : World,
      DATABASE_STORE w !! "" = None →
      let filteredDatabases := catalogOf (DATABASE_STORE w) in
      let w' := loadDatabaseList (hook w) true true w in
      (∀ lastOpened,
          getLastOpenedDatabase w = Some lastOpened →
          has_id lastOpened filteredDatabases = true →
          currentDbId (hook w') = lastOpened)
      ∧ ((∀ lastOpened, getLastOpenedDatabase w = Some lastOpened →
                        has_id lastOpened filteredDatabases = false) →
         has_id (currentDbId (hook w)) filteredDatabases = true →
         currentDbId (hook w') = currentDbId (hook w)
         ∧ currentDb (hook w') = currentDb (hook w))
      ∧ ((∀ lastOpened, getLastOpenedDatabase w = Some lastOpened →
                        has_id lastOpened filteredDatabases = false) →
         has_id (currentDbId (hook w)) filteredDatabases = false →
         ∀ first rest, filteredDatabases = first :: rest →
           currentDbId (hook w') = DatabaseInfo.id first
           ∧ ∀ e, e ∈ filteredDatabases →
                  DatabaseInfo.lastModified e ≤ DatabaseInfo.lastModified first))
  ∧ (map DatabaseInfo.id (catalogOf (DATABASE_STORE world_AB)) = ["B"; "A"]
     ∧ getLastOpenedDatabase world_AB = None
     ∧ currentDbId (hook (loadDatabaseList (hook world_AB) true true world_AB)) = "B")
  ∧ (getLastOpenedDatabase world_AB_last_A = Some "A"
     ∧ currentDbId (hook (loadDatabaseList (hook world_AB_last_A) true true
                            world_AB_last_A)) = "A").
Proof.
  split.
  {
    intros w Hempty filteredDatabases w'. subst w'.
    rewrite loadDatabaseList_eq. fold filteredDatabases. cbv zeta.
    split; [|split].
    - intros lastOpened Hlast Hin.
      pose proof (has_id_truthy _ _ Hempty Hin) as Htruthy.
      destruct filteredDatabases as [|first rest] eqn:Hf; [done|].
      unfold targetDbId. rewrite Hlast, Htruthy, Hin. cbn [andb].
      destruct (String.eqb_spec lastOpened (currentDbId (hook w))) as [->|Hne];
        [by rewrite andb_false_r|].
      rewrite Htruthy. cbn [negb andb]. apply loadDatabase_selects.
      rewrite <- Hf in Hin. by apply has_id_Image in Hin.
    - intros Hlast Hin.
      pose proof (has_id_truthy _ _ Hempty Hin) as Htruthy.
      destruct filteredDatabases as [|first rest] eqn:Hf; [done|].
      assert (targetDbId (first :: rest) (getLastOpenedDatabase w)
                (currentDbId (hook w)) (DatabaseInfo.id first) = currentDbId (hook w)) as ->.
      { unfold targetDbId. destruct (getLastOpenedDatabase w) as [lo|] eqn:Hlo.
        - rewrite (Hlast lo eq_refl), andb_false_r, Htruthy, Hin. done.
        - by rewrite Htruthy, Hin. }
      by rewrite String.eqb_refl, andb_false_r.
    - intros Hlast Hcur first rest Hf. rewrite Hf.
      assert (first ∈ filteredDatabases) as Hfirst by (rewrite Hf; left).
      assert (targetDbId (first :: rest) (getLastOpenedDatabase w)
                (currentDbId (hook w)) (DatabaseInfo.id first) = DatabaseInfo.id first) as ->.
      { unfold targetDbId. rewrite <- Hf. rewrite Hcur, andb_false_r.
        destruct (getLastOpenedDatabase w) as [lo|] eqn:Hlo; [|done].
        by rewrite (Hlast lo eq_refl), andb_false_r. }
      rewrite (catalogOf_id_truthy _ _ Hempty Hfirst). cbn [andb].
      destruct (String.eqb_spec (DatabaseInfo.id first) (currentDbId (hook w))) as [Heq|Hne].
      { exfalso. assert (has_id (currentDbId (hook w)) filteredDatabases = true); [|congruence].
        apply has_id_true. eauto. }
      cbn [negb]. split.
      + apply loadDatabase_selects. exact (catalogOf_Image _ _ Hfirst).
      + intros e He. rewrite <- Hf in He. exact (catalogOf_first _ _ _ Hf e He).
  }
  split; vm_compute; auto.
Qed.

Lemma reselection_policy_witness :
  DATABASE_STORE world_AB !! "" = None
  ∧ currentDbId (hook (loadDatabaseList (hook world_AB) true true world_AB)) = "B".
Proof.
  assert (DATABASE_STORE world_AB !! "" = None) as Hempty by (vm_compute; reflexivity).
  split; [exact Hempty|].
  destruct reselection_policy as [Hpolicy _].
  destruct (Hpolicy world_AB Hempty) as (_ & _ & Hnewest).
  assert (∃ first rest, catalogOf (DATABASE_STORE world_AB) = first :: rest
                        ∧ DatabaseInfo.id first = "B") as (first & rest & Hcat & Hid).
  { vm_compute. eauto. }
  rewrite <- Hid.
  refine (proj1 (Hnewest _ _ first rest Hcat)).
  - intros lastOpened Hlast. vm_compute in Hlast. discriminate.
  - vm_compute. reflexivity.
Defined.

(** ** What the reloads leave untouched *)

Lemma loadDatabase_cases sqlModule dbId w :
  loadDatabase sqlModule dbId w = w
  ∨ ∃ d, sqlModule = true
         ∧ DATABASE_STORE w !! dbId = Some (Image d)
         ∧ loadDatabase sqlModule dbId w =
             loadQueryHistory dbId
               (tables_of d
                 (saveLastOpenedDatabase dbId
                   (setCurrentDbId dbId
                     (setCurrentDb (Some (length (heap w)))
                       (with_heap (λ l, l ++ [mkInstance d false]) w))))).
Proof.
  destruct sqlModule.
  - destruct (DATABASE_STORE w !! dbId) as [[d|]|] eqn:Hd.
    + right. exists d. split; [done|]. split; [done|]. by apply loadDatabase_Image.
    + left. unfold loadDatabase. by rewrite Hd.
    + left. unfold loadDatabase. by rewrite Hd.
  - left. unfold loadDatabase. by destruct (DATABASE_STORE w !! dbId).
Qed.

Lemma reloaded_refl w : reloaded w w.
Proof. split; auto. exists []. by rewrite app_nil_r. Qed.

Lemma loadDatabase_reloaded sqlModule dbId w : reloaded w (loadDatabase sqlModule dbId w).
Proof.
  destruct (loadDatabase_cases sqlModule dbId w) as [->|(d & _ & Hd & ->)].
  - apply reloaded_refl.
  - rewrite tables_of_eq. split; try done.
    + by eexists.
    + right. exists dbId, d. split; [|done].
      unfold getLastOpenedDatabase. simpl. apply lookup_insert_eq.
    + intros k Hk. simpl. by rewrite lookup_insert_ne.
Qed.

Lemma loadDatabaseList_reloaded self indexedDB sqlModule w :
  reloaded w (loadDatabaseList self indexedDB sqlModule w).
Proof.
  destruct indexedDB; [|apply reloaded_refl].
  destruct sqlModule.
  - rewrite loadDatabaseList_eq. cbv zeta.
    set (w1 := setDatabases _ _).
    assert (reloaded w w1) as H1.
    { split; try done; auto. by eexists. }
    destruct (catalogOf (DATABASE_STORE w)) as [|first rest].
    + destruct H1. split; try done.
    + destruct (_ && _); [|done].
      pose proof (loadDatabase_reloaded true
        (targetDbId (first :: rest) (getLastOpenedDatabase w) (currentDbId self)
           (DatabaseInfo.id first)) w1) as H2.
      destruct H2 as [? ? ? ? [ext2 ?] ? ? ? ?]. split; try done.
      exists (omap transient (getAll (DATABASE_STORE w)) ++ ext2).
      by rewrite app_assoc.
  - rewrite loadDatabaseList_no_module. split; try done; auto.
    exists []. simpl. by rewrite app_nil_r.
Qed.

(** The list [setDatabases] received: the catalog of the store, or
    nothing without the module or the connection. *)
Lemma loadDatabaseList_databases self indexedDB sqlModule w :
  let w' := loadDatabaseList self indexedDB sqlModule w in
  indexedDB = true →
  databases (hook w') = if sqlModule then catalogOf (DATABASE_STORE w) else [].
Proof.
  intros w' ->. subst w'. destruct sqlModule.
  - rewrite loadDatabaseList_eq. cbv zeta.
    destruct (catalogOf (DATABASE_STORE w)) as [|first rest] eqn:Hc; [done|].
    destruct (_ && _); [|done].
    destruct (loadDatabase_cases true
      (targetDbId (first :: rest) (getLastOpenedDatabase w) (currentDbId self)
         (DatabaseInfo.id first))
      (setDatabases (first :: rest)
         (with_heap (λ h, h ++ omap transient (getAll (DATABASE_STORE w))) w)))
      as [->|(d & _ & _ & ->)]; [done|by rewrite tables_of_eq].
  - by rewrite loadDatabaseList_no_module.
Qed.

(** ** Deleting a database *)

Lemma cascade_queries (l : list SavedQuery.t) w :
  let w' := foldl (λ w query, with_queries_store (delete (SavedQuery.id query)) w) w l in
  DATABASE_STORE w' = DATABASE_STORE w
  ∧ localStorage w' = localStorage w
  ∧ hook w' = hook w
  ∧ ∀ k, QUERIES_STORE w' !! k =
           if bool_decide (k ∈ map SavedQuery.id l) then None else QUERIES_STORE w !! k.
Proof.
  revert w. induction l as [|q l IH]; intros w; cbn [foldl map].
  - repeat split; done.
  - destruct (IH (with_queries_store (delete (SavedQuery.id q)) w)) as (Hd & Hl & Hh & Hq).
    cbv zeta in *. split; [by rewrite Hd|]. split; [by rewrite Hl|]. split; [by rewrite Hh|].
    intros k. rewrite Hq. simpl.
    destruct (bool_decide (k ∈ map SavedQuery.id l)) eqn:Hin.
    + apply bool_decide_eq_true in Hin.
      rewrite bool_decide_eq_true_2; [done|]. by right.
    + apply bool_decide_eq_false in Hin.
      destruct (decide (k = SavedQuery.id q)) as [->|Hne].
      * rewrite lookup_delete_eq, bool_decide_eq_true_2; [done|]. by left.
      * rewrite lookup_delete_ne by done. rewrite bool_decide_eq_false_2; [done|].
        by intros [?|?]%elem_of_cons.
Qed.

Lemma elem_of_getAll_queries w q :
  q ∈ getAll_queries w ↔ QUERIES_STORE w !! SavedQuery.id q = Some (SavedQuery.rest q).
Proof.
  unfold getAll_queries. rewrite list_elem_of_fmap. split.
  - intros ([k v] & -> & Hin). simpl. by apply elem_of_getAll.
  - intros H. exists (SavedQuery.id q, SavedQuery.rest q). split; [by destruct q|].
    by apply elem_of_getAll.
Qed.

(** The world [deleteDatabase] hands to [loadDatabaseList]. *)
Lemma deleteDatabase_eq dbId w :
  idb (hook w) = true →
  ∃ w3, deleteDatabase dbId w = loadDatabaseList (hook w) true (SQL (hook w)) w3
        ∧ DATABASE_STORE w3 = delete dbId (DATABASE_STORE w)
        ∧ (∀ k q, QUERIES_STORE w3 !! k = Some q →
                  QUERIES_STORE w !! k = Some q ∧ SavedQuery.databaseId q ≠ dbId)
        ∧ getLastOpenedDatabase w3 ≠ Some dbId
        ∧ hook w3 = hook w.
Proof.
  intros Hidb. unfold deleteDatabase. rewrite Hidb. cbn [negb].
  set (w1 := with_databases_store (delete dbId) w).
  set (l := filter _ (getAll_queries w1)).
  destruct (cascade_queries l w1) as (Hd & Hl & Hh & Hq). cbv zeta in *.
  set (w2 := foldl _ w1 l) in *.
  eexists. split; [reflexivity|].
  split; [by destruct (bool_decide _)|].
  split; [|split].
  - intros k q Hk.
    assert (QUERIES_STORE w2 !! k = Some q) as Hk2 by (by destruct (bool_decide _)).
    clear Hk. rewrite Hq in Hk2.
    destruct (bool_decide (k ∈ map SavedQuery.id l)) eqn:Hb; [done|].
    apply bool_decide_eq_false in Hb. split; [done|].
    intros Hdb. apply Hb. apply list_elem_of_fmap.
    exists (SavedQuery.mk k q). split; [done|].
    apply list_elem_of_filter. split; [done|].
    by apply elem_of_getAll_queries.
  - destruct (bool_decide (getLastOpenedDatabase w2 = Some dbId)) eqn:Hb.
    + unfold getLastOpenedDatabase. simpl. by rewrite lookup_delete_eq.
    + by apply bool_decide_eq_false in Hb.
  - destruct (bool_decide _); simpl; by rewrite Hh.
Qed.

(** C5: with the store open, after [deleteDatabase dbId] no saved query
    of the query partition has [databaseId = dbId], no blob is stored
    under [dbId], no entry of the catalog has the id [dbId], and the last
    opened record is not [dbId]. *)
Theorem deleteDatabase_cascade (dbId : string) (w : World) :
  idb (hook w) = true →
  let w' := deleteDatabase dbId w in
  (∀ k q, QUERIES_STORE w' !! k = Some q → SavedQuery.databaseId q ≠ dbId)
  ∧ DATABASE_STORE w' !! dbId = None
  ∧ (∀ e, e ∈ databases (hook w') → DatabaseInfo.id e ≠ dbId)
  ∧ getLastOpenedDatabase w' ≠ Some dbId.
Proof.
  intros Hidb w'. subst w'.
  destruct (deleteDatabase_eq dbId w Hidb) as (w3 & -> & Hd & Hq & Hl & Hh).
  pose proof (loadDatabaseList_reloaded (hook w) true (SQL (hook w)) w3) as Hr.
  pose proof (loadDatabaseList_databases (hook w) true (SQL (hook w)) w3 eq_refl) as Hc.
  cbv zeta in Hc. destruct Hr as [Hrd Hrq _ _ _ _ _ Hrl _].
  split; [|split; [|split]].
  - intros k q. rewrite Hrq. intros Hk. by apply Hq in Hk as [_ ?].
  - rewrite Hrd, Hd. apply lookup_delete_eq.
  - intros e. rewrite Hc. destruct (SQL (hook w)); [|by intros ?%elem_of_nil].
    intros (d & He)%catalogOf_Image Heq. rewrite Hd, Heq, lookup_delete_eq in He. done.
  - unfold getLastOpenedDatabase in *. destruct Hrl as [->|(t & d & -> & Ht)]; [done|].
    intros [= ->]. by rewrite Hd, lookup_delete_eq in Ht.
Qed.

Lemma deleteDatabase_cascade_witness :
  let w := put_query (SavedQuery.mk "7" (SavedQuery.mkFields "SELECT 1" 7 None (Some false) "A"))
             world_AB_last_A in
  idb (hook w) = true
  ∧ (∃ q, QUERIES_STORE w !! "7" = Some q ∧ SavedQuery.databaseId q = "A")
  ∧ (∀ k q, QUERIES_STORE (deleteDatabase "A" w) !! k = Some q →
            SavedQuery.databaseId q ≠ "A")
  ∧ getLastOpenedDatabase (deleteDatabase "A" w) ≠ Some "A".
Proof.
  intros w.
  assert (idb (hook w) = true) as Hidb by reflexivity.
  split; [exact Hidb|]. split; [by eexists|].
  destruct (deleteDatabase_cascade "A" w Hidb) as (Hq & _ & _ & Hl).
  split; [exact Hq|exact Hl].
Defined.

Lemma catalogOf_delete_nil dbId store :
  (∀ e, e ∈ catalogOf store → DatabaseInfo.id e = dbId) →
  catalogOf (delete dbId store) = [].
Proof.
  intros Hall. destruct (catalogOf (delete dbId store)) as [|e l] eqn:Hc; [done|].
  assert (e ∈ catalogOf (delete dbId store)) as He by (rewrite Hc; left).
  apply elem_of_catalogOf in He as (Hv & b & Hb & He).
  apply lookup_delete_Some in Hb as [Hne Hb].
  exfalso. apply Hne. symmetry. apply Hall. apply elem_of_catalogOf. eauto.
Qed.

Lemma cascade_queries_heap (l : list SavedQuery.t) w :
  heap (foldl (λ w query, with_queries_store (delete (SavedQuery.id query)) w) w l)
  = heap w.
Proof. revert w. induction l as [|q l IH]; intros w; [done|]. cbn [foldl]. by rewrite IH. Qed.

(** [deleteDatabase] closes and alters no instance: the heap afterwards
    begins with the heap before. *)
Lemma deleteDatabase_heap dbId w :
  ∃ ext, heap (deleteDatabase dbId w) = heap w ++ ext.
Proof.
  unfold deleteDatabase. destruct (idb (hook w)); cbn [negb].
  - set (w1 := with_databases_store (delete dbId) w).
    set (l := filter _ (getAll_queries w1)).
    pose proof (cascade_queries_heap l w1) as Hh.
    set (w2 := foldl _ w1 l) in *.
    set (w3 := if bool_decide _ then _ else w2).
    assert (heap w3 = heap w) as Hh3.
    { subst w3. destruct (bool_decide _); simpl; by rewrite Hh. }
    destruct (loadDatabaseList_reloaded (hook w) true (SQL (hook w)) w3)
      as [_ _ _ _ [ext Hext] _ _ _ _].
    exists ext. by rewrite Hext, Hh3.
  - exists []. by rewrite app_nil_r.
Qed.

(** C6, the claim as stated fails: shop is the only database and the
    active one, on the instance 3.  Its deletion empties the catalog and
    leaves the hook without a reference to an instance, but the instance
    that was active was not closed: it is unclosed on the heap, as are
    two more. *)
Lemma delete_last_leaves_instance_unclosed :
  let w := world_shop in
  let w' := deleteDatabase "db_1000" w in
  (currentDbId (hook w) = "db_1000"
   ∧ currentDb (hook w) = Some 3%nat
   ∧ map DatabaseInfo.id (catalogOf (DATABASE_STORE w)) = ["db_1000"])
  ∧ databases (hook w') = []
  ∧ currentDb (hook w') = None
  ∧ closed <$> heap w' !! 3%nat = Some false
  ∧ ¬ (length (live w') = 0)%nat.
Proof.
  split; [by vm_compute|]. split; [by vm_compute|]. split; [by vm_compute|].
  split; [by vm_compute|]. vm_compute. lia.
Qed.

(** C6, amended: with the store open, when the catalog of the store is
    the one database [dbId], [deleteDatabase dbId] leaves the hook with
    the empty active id, no reference to an engine instance, no tables, no
    history and an empty catalog.  It closes no engine instance: every
    instance stays on the heap as it was, so the instance that was active
    is still unclosed, and no fewer instances are unclosed than before. *)
Theorem delete_last_database (dbId : string) (d : DatabaseInfo.t) (w : World) :
  idb (hook w) = true →
  catalogOf (DATABASE_STORE w) = [d] →
  DatabaseInfo.id d = dbId →
  let w' := deleteDatabase dbId w in
  currentDbId (hook w') = ""
  ∧ currentDb (hook w') = None
  ∧ tables (hook w') = []
  ∧ queryHistory (hook w') = []
  ∧ databases (hook w') = []
  ∧ (∀ h inst, heap w !! h = Some inst → heap w' !! h = Some inst)
  ∧ (length (live w) ≤ length (live w'))%nat.
Proof.
  intros Hidb Hcat Hid w'. subst w'.
  destruct (deleteDatabase_heap dbId w) as [ext Hheap].
  assert ((∀ h inst, heap w !! h = Some inst →
             heap (deleteDatabase dbId w) !! h = Some inst)
          ∧ (length (live w) ≤ length (live (deleteDatabase dbId w)))%nat) as Hkeep.
  { split.
    - intros h inst Hh. rewrite Hheap. by apply lookup_app_l_Some.
    - unfold live. rewrite Hheap, filter_app, length_app. lia. }
  revert Hkeep. clear Hheap.
  destruct (deleteDatabase_eq dbId w Hidb) as (w3 & -> & Hd & _ & _ & _).
  intros Hkeep.
  assert (catalogOf (delete dbId (DATABASE_STORE w)) = []) as Hnil.
  { apply catalogOf_delete_nil. intros e. rewrite Hcat.
    by intros ->%list_elem_of_singleton. }
  destruct (SQL (hook w)).
  - revert Hkeep. rewrite loadDatabaseList_eq. cbv zeta. rewrite Hd, Hnil.
    intros Hkeep. repeat (split; [done|]). exact Hkeep.
  - revert Hkeep. rewrite loadDatabaseList_no_module.
    intros Hkeep. repeat (split; [done|]). exact Hkeep.
Qed.

Lemma delete_last_database_witness :
  currentDbId (hook world_shop) = "db_1000"
  ∧ currentDb (hook world_shop) = Some 3%nat
  ∧ let w' := deleteDatabase "db_1000" world_shop in
    currentDbId (hook w') = ""
    ∧ currentDb (hook w') = None
    ∧ tables (hook w') = []
    ∧ queryHistory (hook w') = []
    ∧ databases (hook w') = []
    ∧ heap w' !! 3%nat = heap world_shop !! 3%nat
    ∧ (3 ≤ length (live w'))%nat.
Proof.
  split; [vm_compute; reflexivity|]. split; [vm_compute; reflexivity|].
  destruct (delete_last_database "db_1000"
              (DatabaseInfo.mk "db_1000" "shop" None 1001 1002) world_shop)
    as (H1 & H2 & H3 & H4 & H5 & H6 & H7).
  - vm_compute. reflexivity.
  - vm_compute. reflexivity.
  - reflexivity.
  - repeat (split; [assumption|]). split.
    + rewrite (H6 3%nat (mkInstance (database_named "db_1000" "shop" 1001 1002) false));
        vm_compute; reflexivity.
    + etransitivity; [|exact H7]. vm_compute. lia.
Defined.

(** ** Switching the active database *)

Lemma switchDatabase_Image dbId d w :
  SQL (hook w) = true → idb (hook w) = true →
  DATABASE_STORE w !! dbId = Some (Image d) →
  switchDatabase dbId w =
    loadQueryHistory dbId
      (tables_of d
        (saveLastOpenedDatabase dbId
          (setCurrentDbId dbId
            (setCurrentDb (Some (length (heap w)))
              (with_heap (λ l, l ++ [mkInstance d false]) w))))).
Proof.
  intros HS Hi Hd. unfold switchDatabase, switchDatabase_of. rewrite HS, Hi. cbn [negb orb].
  by apply loadDatabase_Image.
Qed.

(** C3, the claim as stated fails: after a switch to B that succeeds,
    the metadata partition of IndexedDB holds B under no key. *)
Lemma last_opened_not_in_metadata_store :
  let w' := switchDatabase "B" world_AB in
  currentDbId (hook w') = "B"
  ∧ ¬ ∃ key, METADATA_STORE w' !! key = Some "B".
Proof.
  split; [vm_compute; reflexivity|].
  intros [key Hkey]. vm_compute in Hkey. discriminate.
Qed.

(** C7, the claim as stated fails: with A active on the only instance
    of the heap, a switch to B leaves that instance unclosed, and two
    instances are unclosed afterwards. *)
Lemma switch_leaves_instance_unclosed :
  let w := world_A_active in
  let w' := switchDatabase "B" w in
  (currentDbId (hook w) = "A" ∧ currentDb (hook w) = Some 0%nat ∧ length (live w) = 1%nat)
  ∧ currentDbId (hook w') = "B"
  ∧ closed <$> heap w' !! 0%nat = Some false
  ∧ ¬ (length (live w') ≤ 1)%nat.
Proof.
  split; [by vm_compute|]. split; [by vm_compute|]. split; [by vm_compute|].
  vm_compute. lia.
Qed.

(** C7, amended: a switch to an id whose blob the store holds and the
    engine opens does not close the instance that was active.  It creates
    an instance, makes the hook refer to it and records the id as active;
    the instance the hook referred to before stays on the heap as it was,
    so one more instance is unclosed than before. *)
Theorem switch_replaces_reference (dbId : string) (d : Db) (w : World)
    (previous : nat) (inst : Instance) :
  SQL (hook w) = true → idb (hook w) = true →
  DATABASE_STORE w !! dbId = Some (Image d) →
  currentDb (hook w) = Some previous →
  heap w !! previous = Some inst →
  let w' := switchDatabase dbId w in
  currentDbId (hook w') = dbId
  ∧ currentDb (hook w') = Some (length (heap w))
  ∧ heap w' = heap w ++ [mkInstance d false]
  ∧ heap w' !! previous = Some inst
  ∧ length (live w') = S (length (live w)).
Proof.
  intros HS Hi Hd Hcur Hprev w'. subst w'.
  rewrite (switchDatabase_Image _ _ _ HS Hi Hd), tables_of_eq.
  split; [done|]. split; [done|]. split; [done|]. split.
  - simpl. by apply lookup_app_l_Some.
  - unfold live. simpl. rewrite filter_app, length_app. simpl. lia.
Qed.

Lemma switch_replaces_reference_witness :
  let w' := switchDatabase "B" world_A_active in
  currentDbId (hook w') = "B"
  ∧ currentDb (hook w') = Some 1%nat
  ∧ heap w' !! 0%nat = Some (mkInstance (database_named "A" "first" 1 5) false)
  ∧ length (live w') = 2%nat.
Proof.
  destruct (switch_replaces_reference "B" (database_named "B" "second" 2 10)
              world_A_active 0 (mkInstance (database_named "A" "first" 1 5) false))
    as (H1 & H2 & _ & H4 & H5).
  - reflexivity.
  - reflexivity.
  - vm_compute. reflexivity.
  - vm_compute. reflexivity.
  - vm_compute. reflexivity.
  - split; [exact H1|]. split; [exact H2|]. split; [exact H4|exact H5].
Defined.

(** ** The history log *)

Lemma to_int_not_nil (n : Z) :
  Z.to_int n ≠ Decimal.Pos Decimal.Nil ∧ Z.to_int n ≠ Decimal.Neg Decimal.Nil.
Proof.
  split; intros H; pose proof (DecimalZ.of_to n) as Hn; rewrite H in Hn;
    simpl in Hn; subst n; discriminate.
Qed.

Lemma toString_inj (a b : Z) : toString a = toString b → a = b.
Proof.
  unfold toString. intros H.
  destruct (to_int_not_nil a) as [Ha1 Ha2], (to_int_not_nil b) as [Hb1 Hb2].
  pose proof (NilZero.isi _ Ha1 Ha2) as Ia. pose proof (NilZero.isi _ Hb1 Hb2) as Ib.
  rewrite H, Ib in Ia. injection Ia as Ia.
  rewrite <- (DecimalZ.of_to a), <- (DecimalZ.of_to b). by rewrite Ia.
Qed.

Lemma truthy_true s : truthy s = true ↔ s ≠ "".
Proof. unfold truthy. destruct (String.eqb_spec s ""); split; intros; try done. Qed.

Lemma saveQuery_eq clock query description w :
  idb (hook w) = true → currentDbId (hook w) ≠ "" →
  saveQuery clock query description w =
    loadQueryHistory (currentDbId (hook w))
      (put_query
         (SavedQuery.mk (toString (clock (ticks w)))
            (SavedQuery.mkFields query (clock (S (ticks w))) description (Some false)
               (currentDbId (hook w))))
         (Date_now clock (Date_now clock w).2).2).
Proof.
  intros Hi Hc. unfold saveQuery. rewrite Hi.
  apply truthy_true in Hc. rewrite Hc. reflexivity.
Qed.

(** C9, the claim as stated fails: two appends made at the same clock
    reading get the same id, and the entry of the first is gone after
    the second. *)
Lemma saveQuery_same_millisecond_overwrites :
  let w1 := saveQuery clock_still "SELECT 1" None world_A_active in
  let w2 := saveQuery clock_still "SELECT 2" None w1 in
  (∃ q, QUERIES_STORE w1 !! "1000" = Some q ∧ SavedQuery.query q = "SELECT 1")
  ∧ ¬ ∃ k q, QUERIES_STORE w2 !! k = Some q ∧ SavedQuery.query q = "SELECT 1".
Proof.
  split.
  - eexists. split; [vm_compute; reflexivity|reflexivity].
  - intros (k & q & Hk & Hq). apply elem_of_map_to_list in Hk.
    vm_compute in Hk. apply list_elem_of_singleton in Hk.
    injection Hk as _ ->. discriminate.
Qed.

(** C9, amended: with the store open and a database active, an append
    stores an entry whose id is the decimal text of the clock reading,
    with [isFavorite = false] and the active id as [databaseId], and
    leaves the entries under other ids as they were; after two appends
    whose ids come from different clock readings both entries are in the
    query partition, under different ids. *)
Theorem saveQuery_appends (clock : nat -> Z) (query1 query2 : string)
    (description1 description2 : option string) (w : World) :
  idb (hook w) = true →
  currentDbId (hook w) ≠ "" →
  clock (ticks w) ≠ clock (2 + ticks w)%nat →
  let w' := saveQuery clock query2 description2 (saveQuery clock query1 description1 w) in
  let id1 := toString (clock (ticks w)) in
  let id2 := toString (clock (2 + ticks w)%nat) in
  id1 ≠ id2
  ∧ QUERIES_STORE w' !! id1 =
      Some (SavedQuery.mkFields query1 (clock (1 + ticks w)%nat) description1 (Some false)
              (currentDbId (hook w)))
  ∧ QUERIES_STORE w' !! id2 =
      Some (SavedQuery.mkFields query2 (clock (3 + ticks w)%nat) description2 (Some false)
              (currentDbId (hook w)))
  ∧ ∀ k, k ≠ id1 → k ≠ id2 → QUERIES_STORE w' !! k = QUERIES_STORE w !! k.
Proof.
  intros Hi Hc Hclock w' id1 id2. subst w'.
  assert (id1 ≠ id2) as Hne by (intros H%toString_inj; done).
  rewrite (saveQuery_eq clock query1 description1 w Hi Hc).
  rewrite saveQuery_eq by done. simpl.
  split; [done|]. split; [|split].
  - rewrite lookup_insert_ne by done. apply lookup_insert_eq.
  - apply lookup_insert_eq.
  - intros k H1 H2. by rewrite !lookup_insert_ne.
Qed.

Lemma saveQuery_appends_witness :
  let w' := saveQuery clock_ms "SELECT 2" None
              (saveQuery clock_ms "SELECT 1" None world_A_active) in
  SavedQuery.query <$> QUERIES_STORE w' !! "1000" = Some "SELECT 1"
  ∧ SavedQuery.query <$> QUERIES_STORE w' !! "1002" = Some "SELECT 2".
Proof.
  destruct (saveQuery_appends clock_ms "SELECT 1" "SELECT 2" None None world_A_active)
    as (_ & H1 & H2 & _).
  - reflexivity.
  - vm_compute. discriminate.
  - vm_compute. discriminate.
  - split.
    + change "1000" with (toString (clock_ms (ticks world_A_active))).
      by rewrite H1.
    + change "1002" with (toString (clock_ms (2 + ticks world_A_active))).
      by rewrite H2.
Defined.

Lemma toggleFavorite_eq queryId q w :
  idb (hook w) = true →
  QUERIES_STORE w !! queryId = Some q →
  toggleFavorite queryId w =
    loadQueryHistory (currentDbId (hook w))
      (put_query
         (SavedQuery.mk queryId
            (SavedQuery.mkFields (SavedQuery.query q) (SavedQuery.timestamp q)
               (SavedQuery.description q) (not_isFavorite (SavedQuery.isFavorite q))
               (SavedQuery.databaseId q)))
         w).
Proof.
  intros Hi Hq. unfold toggleFavorite, get_query. rewrite Hi, Hq. reflexivity.
Qed.

(** One call flips the truth value of the field. *)
Lemma toggleFavorite_once queryId q w :
  idb (hook w) = true →
  QUERIES_STORE w !! queryId = Some q →
  ∃ q', QUERIES_STORE (toggleFavorite queryId w) !! queryId = Some q'
        ∧ is_favorite (SavedQuery.isFavorite q') = negb (is_favorite (SavedQuery.isFavorite q)).
Proof.
  intros Hi Hq. rewrite (toggleFavorite_eq _ _ _ Hi Hq). simpl.
  rewrite lookup_insert_eq. eexists. split; [done|].
  by destruct (SavedQuery.isFavorite q).
Qed.

(** C10: for a saved query in the store, two calls of [toggleFavorite]
    on its id leave an entry under that id whose [isFavorite] has the
    truth value it had; when the field was a boolean, as in every entry
    [saveQuery] writes, the entry is the one that was stored, field for
    field. *)
Theorem toggleFavorite_involution (queryId : string) (q : SavedQuery.fields) (w : World) :
  QUERIES_STORE w !! queryId = Some q →
  let w' := toggleFavorite queryId (toggleFavorite queryId w) in
  ∃ q', QUERIES_STORE w' !! queryId = Some q'
        ∧ is_favorite (SavedQuery.isFavorite q') = is_favorite (SavedQuery.isFavorite q)
        ∧ (∀ b, SavedQuery.isFavorite q = Some b → SavedQuery.isFavorite q' = Some b ∧ q' = q).
Proof.
  intros Hq w'. subst w'.
  destruct (idb (hook w)) eqn:Hi.
  - rewrite (toggleFavorite_eq queryId q w Hi Hq).
    erewrite toggleFavorite_eq; [|exact Hi|apply lookup_insert_eq].
    simpl. rewrite lookup_insert_eq. eexists. split; [done|]. simpl. split.
    + by destruct (SavedQuery.isFavorite q) as [[]|].
    + intros b Hb. rewrite Hb. simpl. rewrite negb_involutive. split; [done|].
      destruct q. simpl in *. by subst.
  - assert (toggleFavorite queryId w = w) as Hid.
    { unfold toggleFavorite. by rewrite Hi. }
    rewrite !Hid. exists q. split; [done|]. split; [done|]. by intros b ->.
Qed.

Lemma toggleFavorite_involution_witness :
  let w := saveQuery clock_ms "SELECT 1" None world_A_active in
  let w1 := toggleFavorite "1000" w in
  let w2 := toggleFavorite "1000" w1 in
  SavedQuery.isFavorite <$> QUERIES_STORE w !! "1000" = Some (Some false)
  ∧ SavedQuery.isFavorite <$> QUERIES_STORE w1 !! "1000" = Some (Some true)
  ∧ SavedQuery.isFavorite <$> QUERIES_STORE w2 !! "1000" = Some (Some false).
Proof.
  intros w w1 w2.
  assert (QUERIES_STORE w !! "1000" =
          Some (SavedQuery.mkFields "SELECT 1" 1001 None (Some false) "A")) as Hq
    by (vm_compute; reflexivity).
  split; [by rewrite Hq|]. split; [vm_compute; reflexivity|].
  destruct (toggleFavorite_involution "1000" _ w Hq) as (q' & Hq' & _ & Hb).
  destruct (Hb false eq_refl) as [Hfav _].
  subst w2 w1. rewrite Hq'. simpl. by rewrite Hfav.
Defined.

(** ** Persisting an engine instance *)

Lemma table_schemas_touched now dbId d : table_schemas (touched now dbId d) = table_schemas d.
Proof. unfold touched, update_last_modified. by destruct (database_info d). Qed.

Lemma instance_db_Some h d w :
  heap w !! h = Some (mkInstance d false) → instance_db h w = Some d.
Proof. unfold instance_db. by intros ->. Qed.

(** After [saveDatabase] the blob stored under [dbId] is the image of the
    database in the instance, and nothing else of the stores changed. *)
Lemma saveDatabase_spec clock h dbId d w :
  heap w !! h = Some (mkInstance d false) →
  let d' := touched (clock (ticks w)) dbId d in
  let w' := saveDatabase clock h dbId w in
  DATABASE_STORE w' = <[dbId := Image d']> (DATABASE_STORE w)
  ∧ heap w' = <[h := mkInstance d' false]> (heap w)
  ∧ ticks w' = S (ticks w)
  ∧ QUERIES_STORE w' = QUERIES_STORE w
  ∧ METADATA_STORE w' = METADATA_STORE w
  ∧ localStorage w' = localStorage w
  ∧ hook w' = hook w.
Proof.
  intros Hh d' w'. subst d' w'. unfold saveDatabase, touched.
  rewrite (instance_db_Some _ _ _ Hh). simpl.
  unfold run, instance_db. simpl. rewrite Hh. simpl.
  pose proof (lookup_lt_Some _ _ _ Hh) as Hlt.
  destruct (update_last_modified (clock (ticks w)) dbId d) as [d1|] eqn:Hu; simpl.
  - rewrite list_lookup_insert_eq by done. simpl.
    rewrite insert_insert_eq. done.
  - rewrite (list_insert_id _ _ _ Hh). done.
Qed.

(** ** The new database of the ATTACH branch *)

Lemma new_database_with_info_eq clock name description w :
  new_database_with_info clock name description w =
    let dbId := String.append "db_" (toString (clock (ticks w))) in
    let now := clock (S (ticks w)) in
    Some (length (heap w), dbId,
          mkWorld (DATABASE_STORE w) (QUERIES_STORE w) (METADATA_STORE w) (localStorage w)
            (heap w ++ [mkInstance (database_with_info dbId
                                      (mkInfoRow name description now now)) false])
            (S (S (ticks w))) (hook w)).
Proof.
  unfold new_database_with_info, Date_now, new_Database. simpl.
  unfold run, instance_db. simpl.
  rewrite lookup_app_r by lia. rewrite Nat.sub_diag. simpl.
  rewrite list_lookup_insert_eq by (rewrite length_app; simpl; lia). simpl.
  unfold insert_info. simpl. rewrite lookup_empty. simpl.
  unfold set_instance_db, with_heap. simpl.
  rewrite list_insert_insert_eq.
  rewrite insert_app_r_alt by lia. rewrite Nat.sub_diag. simpl.
  unfold database_with_info. by rewrite insert_empty.
Qed.

Lemma touched_database_with_info stamp dbId row :
  touched stamp dbId (database_with_info dbId row) =
    database_with_info dbId
      (mkInfoRow (info_name row) (info_description row) (created_at row) stamp).
Proof.
  unfold touched, update_last_modified, database_with_info. simpl.
  by rewrite alter_singleton_eq.
Qed.

Lemma attach_database_spec clock self dbPath dbAlias w :
  idb self = true → SQL self = true →
  let newDbId := String.append "db_" (toString (clock (ticks w))) in
  ∃ w3, attach_database clock self dbPath dbAlias w = Some w3
    ∧ DATABASE_STORE w3 =
        <[newDbId := Image (attached_database newDbId dbPath dbAlias
                              (clock (S (ticks w))) (clock (S (S (ticks w)))))]>
          (DATABASE_STORE w)
    ∧ QUERIES_STORE w3 = QUERIES_STORE w
    ∧ METADATA_STORE w3 = METADATA_STORE w
    ∧ (∃ ext, heap w3 = heap w ++ ext)
    ∧ databases (hook w3) = catalogOf (DATABASE_STORE w3)
    ∧ ticks w3 = S (S (S (ticks w))).
Proof.
  intros Hi HS newDbId. unfold attach_database.
  rewrite new_database_with_info_eq. cbv zeta. fold newDbId. cbn [mbind option_bind].
  rewrite Hi, HS.
  set (d0 := database_with_info newDbId _).
  set (w1 := mkWorld _ _ _ _ _ _ _).
  assert (heap w1 !! length (heap w) = Some (mkInstance d0 false)) as Hh.
  { subst w1. simpl. rewrite lookup_app_r by lia. by rewrite Nat.sub_diag. }
  destruct (saveDatabase_spec clock _ newDbId _ _ Hh) as (Sd & Sh & St & Sq & Sm & Sl & Sk).
  cbv zeta in *. set (w2 := saveDatabase clock _ newDbId w1) in *.
  pose proof (loadDatabaseList_reloaded self true true w2) as R.
  pose proof (loadDatabaseList_databases self true true w2 eq_refl) as Rc.
  cbv zeta in Rc. set (w3 := loadDatabaseList self true true w2) in *.
  destruct R as [Rd Rq Rm Rt [ext Rh] _ _ _ _].
  eexists. split; [reflexivity|].
  split; [|split; [|split; [|split; [|split]]]]; simpl.
  - rewrite Rd, Sd. subst d0. by rewrite touched_database_with_info.
  - by rewrite Rq, Sq.
  - by rewrite Rm, Sm.
  - rewrite Rh, Sh. subst w1. simpl.
    rewrite insert_app_r_alt by lia. rewrite Nat.sub_diag. simpl.
    rewrite <- app_assoc. rewrite alter_app_r_alt by lia. eauto.
  - by rewrite Rc, Rd.
  - by rewrite Rt, St.
Qed.

(** ** The end of [executeQuery] *)

Lemma return_result_persists clock self h query result executionTime d w :
  idb self = true →
  heap w !! h = Some (mkInstance d false) →
  isDDL query = true ∨ result ≠ [] →
  let w' := (return_result clock self h query result executionTime w).1 in
  let d' := touched (clock (ticks w)) (currentDbId self) d in
  DATABASE_STORE w' = <[currentDbId self := Image d']> (DATABASE_STORE w)
  ∧ heap w' !! h = Some (mkInstance d' false)
  ∧ QUERIES_STORE w' = QUERIES_STORE w
  ∧ METADATA_STORE w' = METADATA_STORE w
  ∧ (SQL self = true → databases (hook w') = catalogOf (DATABASE_STORE w')).
Proof.
  intros Hi Hh Hcase w' d'.
  destruct (saveDatabase_spec clock h (currentDbId self) d w Hh)
    as (Sd & Sh & St & Sq & Sm & Sl & Sk). cbv zeta in *. fold d' in Sd, Sh.
  set (w1 := saveDatabase clock h (currentDbId self) w) in *.
  assert (heap w1 !! h = Some (mkInstance d' false)) as Hh1.
  { rewrite Sh. apply list_lookup_insert_eq. by eapply lookup_lt_Some. }
  set (w2 := loadTables h w1).
  assert (w2 = setTables (if tables_readable d' then table_schemas d'
                          else tables (hook w1)) w1) as Hw2.
  { subst w2. by rewrite (loadTables_eq _ _ _ Hh1), tables_of_eq. }
  set (w3 := if SQL self then loadDatabaseList self (idb self) (SQL self) w2 else w2).
  assert (w' = w3) as ->.
  { subst w' w3 w2 w1. unfold return_result. rewrite Hi.
    destruct result as [|r0 rest]; [|done].
    destruct Hcase as [->|]; [|done]. by destruct (SQL self). }
  assert (DATABASE_STORE w3 = DATABASE_STORE w1
          ∧ QUERIES_STORE w3 = QUERIES_STORE w1
          ∧ METADATA_STORE w3 = METADATA_STORE w1
          ∧ (∃ ext, heap w3 = heap w1 ++ ext)
          ∧ (SQL self = true → databases (hook w3) = catalogOf (DATABASE_STORE w1)))
    as (Rd & Rq & Rm & [ext Rh] & Rc).
  { subst w3. destruct (SQL self) eqn:HS.
    - destruct (loadDatabaseList_reloaded self (idb self) true w2)
        as [Rd Rq Rm _ Rh _ _ _ _].
      pose proof (loadDatabaseList_databases self (idb self) true w2 Hi) as Rc.
      rewrite Hw2 in *. auto.
    - rewrite Hw2. repeat split; try done. exists []. by rewrite app_nil_r. }
  split; [by rewrite Rd|]. split; [|split; [by rewrite Rq|split; [by rewrite Rm|]]].
  - rewrite Rh. by apply lookup_app_l_Some.
  - intros HS. rewrite Rd. auto.
Qed.

Lemma return_result_no_persist clock self h query executionTime w :
  isDDL query = false →
  return_result clock self h query [] executionTime w =
    (w, inr (QueryResult.mk [] [] 0 executionTime)).
Proof. intros H. unfold return_result. by rewrite H. Qed.

(** [executeQuery] up to the end of the ATTACH branch, when the engine
    accepts the statement. *)
Lemma executeQuery_accepted clock sqlite_exec query w h d d' result :
  currentDb (hook w) = Some h →
  heap w !! h = Some (mkInstance d false) →
  sqlite_exec d query = (d', inr result) →
  ∃ w2,
    executeQuery clock sqlite_exec query w =
      return_result clock (hook w) h query result
        (clock (S (ticks w)) - clock (ticks w)) w2
    ∧ heap w2 !! h = Some (mkInstance d' false)
    ∧ QUERIES_STORE w2 = QUERIES_STORE w
    ∧ METADATA_STORE w2 = METADATA_STORE w
    ∧ match attachMatch query with
      | Some (dbPath, dbAlias) =>
          if idb (hook w) && SQL (hook w) then
            let newDbId := String.append "db_" (toString (clock (S (S (ticks w))))) in
            DATABASE_STORE w2 =
              <[newDbId := Image (attached_database newDbId dbPath dbAlias
                                    (clock (3 + ticks w)%nat) (clock (4 + ticks w)%nat))]>
                (DATABASE_STORE w)
            ∧ databases (hook w2) = catalogOf (DATABASE_STORE w2)
            ∧ ticks w2 = (5 + ticks w)%nat
          else w2 = after_exec h d' w
      | None => w2 = after_exec h d' w
      end.
Proof.
  intros Hc Hh He.
  pose proof (lookup_lt_Some _ _ _ Hh) as Hlt.
  assert (heap (after_exec h d' w) !! h = Some (mkInstance d' false)) as Hh'.
  { simpl. by apply list_lookup_insert_eq. }
  unfold executeQuery. rewrite Hc. cbn [Date_now].
  unfold exec, instance_db. cbn [heap]. rewrite Hh, He. cbn [Date_now ticks].
  unfold set_instance_db, with_heap.
  cbn [DATABASE_STORE QUERIES_STORE METADATA_STORE localStorage heap ticks hook].
  change (mkWorld _ _ _ _ (<[h := _]> _) _ _) with (after_exec h d' w).
  destruct (attachMatch query) as [[dbPath dbAlias]|].
  - destruct (idb (hook w)) eqn:Hi, (SQL (hook w)) eqn:HS; cbn [andb];
      try (exists (after_exec h d' w); by repeat split).
    destruct (attach_database_spec clock (hook w) dbPath dbAlias (after_exec h d' w) Hi HS)
      as (w3 & -> & Ad & Aq & Am & [ext Ah] & Ac & At).
    exists w3. split; [done|]. split; [|split; [done|split; [done|]]].
    + rewrite Ah. by apply lookup_app_l_Some.
    + by repeat split.
  - exists (after_exec h d' w). by repeat split.
Qed.

(** When the engine rejects the statement, [executeQuery] only leaves the
    database the failed statement left in the instance, and the clock
    reading of the start. *)
Lemma executeQuery_rejected clock sqlite_exec query w h d d' message :
  currentDb (hook w) = Some h →
  heap w !! h = Some (mkInstance d false) →
  sqlite_exec d query = (d', inl message) →
  executeQuery clock sqlite_exec query w =
    (mkWorld (DATABASE_STORE w) (QUERIES_STORE w) (METADATA_STORE w) (localStorage w)
             (<[h := mkInstance d' false]> (heap w)) (S (ticks w)) (hook w),
     inl message).
Proof.
  intros Hc Hh He. unfold executeQuery. rewrite Hc. cbn [Date_now].
  unfold exec, instance_db. cbn [heap]. by rewrite Hh, He.
Qed.

(** ** Persistence after a statement *)

Lemma executeQuery_persists clock sqlite_exec query w h d d' result :
  idb (hook w) = true →
  currentDb (hook w) = Some h →
  heap w !! h = Some (mkInstance d false) →
  sqlite_exec d query = (d', inr result) →
  isDDL query = true ∨ result ≠ [] →
  let w' := (executeQuery clock sqlite_exec query w).1 in
  ∃ stamp,
    DATABASE_STORE w' !! currentDbId (hook w) =
      Some (Image (touched stamp (currentDbId (hook w)) d'))
    ∧ heap w' !! h = Some (mkInstance (touched stamp (currentDbId (hook w)) d') false).
Proof.
  intros Hi Hc Hh He Hcase w'. subst w'.
  destruct (executeQuery_accepted clock sqlite_exec query w h d d' result Hc Hh He)
    as (w2 & -> & Hh2 & _).
  destruct (return_result_persists clock (hook w) h query result
              (clock (S (ticks w)) - clock (ticks w)) d' w2 Hi Hh2 Hcase)
    as (Pd & Ph & _).
  cbv zeta in *. exists (clock (ticks w2)). split; [|done].
  rewrite Pd. apply lookup_insert_eq.
Qed.

(** C1, the claim as stated fails: in the database shop with the table
    t, the INSERT changes the engine instance, whose table then counts one
    row, and the database partition stays as it was: no blob stored
    under the active id counts that row. *)
Lemma insert_is_not_persisted :
  let w := world_shop_t in
  let w' := (executeQuery clock_ms toy_exec "INSERT INTO t VALUES (1)" w).1 in
  (currentDb (hook w) = Some 3%nat ∧ currentDbId (hook w) = "db_1000")
  ∧ (map tbl_count ∘ sqlite_master ∘ inst_db) <$> heap w' !! 3%nat = Some [1]
  ∧ DATABASE_STORE w' = DATABASE_STORE w
  ∧ ¬ ∃ persisted, DATABASE_STORE w' !! "db_1000" = Some (Image persisted)
                   ∧ map tbl_count (sqlite_master persisted) = [1].
Proof.
  split; [by vm_compute|]. split; [by vm_compute|]. split; [by vm_compute|].
  intros (persisted & Hp & Hcount). vm_compute in Hp.
  injection Hp as <-. vm_compute in Hcount. discriminate.
Qed.

(** C1, amended: when the engine accepts a statement run against the
    active database with the store open, the state of the engine instance
    is persisted under the active id if the statement returned a row set
    or starts with CREATE, DROP or ALTER; a statement that returned no row
    set, starts with another keyword and has no ATTACH form in it changes
    the engine instance only and leaves the database partition as it
    was. *)
Theorem persistence_after_statement (clock : nat -> Z)
    (sqlite_exec : Db -> string -> Db * (string + list QueryExecResult))
    (query : string) (w : World) (h : nat) (d d' : Db) (result : list QueryExecResult) :
  idb (hook w) = true →
  currentDb (hook w) = Some h →
  heap w !! h = Some (mkInstance d false) →
  sqlite_exec d query = (d', inr result) →
  let w' := (executeQuery clock sqlite_exec query w).1 in
  (result ≠ [] ∨ isDDL query = true →
   ∃ stamp,
     DATABASE_STORE w' !! currentDbId (hook w) =
       Some (Image (touched stamp (currentDbId (hook w)) d'))
     ∧ heap w' !! h = Some (mkInstance (touched stamp (currentDbId (hook w)) d') false))
  ∧ (result = [] → isDDL query = false → attachMatch query = None →
     DATABASE_STORE w' = DATABASE_STORE w
     ∧ heap w' !! h = Some (mkInstance d' false)).
Proof.
  intros Hi Hc Hh He w'. split.
  - intros Hcase. eapply executeQuery_persists; eauto. tauto.
  - intros -> Hddl Hattach. subst w'.
    destruct (executeQuery_accepted clock sqlite_exec query w h d d' [] Hc Hh He)
      as (w2 & -> & Hh2 & _ & _ & Hw2).
    rewrite Hattach in Hw2. subst w2.
    rewrite return_result_no_persist by done. done.
Qed.

Lemma persistence_after_statement_witness :
  let w' := (executeQuery clock_ms toy_exec "INSERT INTO t VALUES (1)" world_shop_t).1 in
  DATABASE_STORE w' = DATABASE_STORE world_shop_t
  ∧ (map tbl_count ∘ sqlite_master ∘ inst_db) <$> heap w' !! 3%nat = Some [1].
Proof.
  pose (d := mkDb (Some {[ "db_1000" := mkInfoRow "shop" None 1001 1005 ]})
                  [mkTable "t" [mkPragmaRow "x" "INTEGER" 0 0] 0 true]).
  destruct (persistence_after_statement clock_ms toy_exec "INSERT INTO t VALUES (1)"
              world_shop_t 3 d (toy_exec d "INSERT INTO t VALUES (1)").1 [])
    as [_ Hno].
  - reflexivity.
  - vm_compute. reflexivity.
  - vm_compute. reflexivity.
  - vm_compute. reflexivity.
  - destruct Hno as [Hstore Hheap].
    + reflexivity.
    + vm_compute. reflexivity.
    + vm_compute. reflexivity.
    + split; [exact Hstore|]. cbv zeta. rewrite Hheap. vm_compute. reflexivity.
Defined.

(** C2: with the store open, when a statement run against the active
    database returns no row set and has CREATE, DROP or ALTER in any case
    as its leading keyword (the test of [executeQuery]: the trimmed text
    starts with the keyword and white space), or returns a row set, the
    blob stored under the active id afterwards is the image of the
    database the statement left in the engine with its [last_modified]
    stamped: it has the tables of that database, so its TableSchema is
    the one after the statement. *)
Theorem save_on_mutation (clock : nat -> Z)
    (sqlite_exec : Db -> string -> Db * (string + list QueryExecResult))
    (query : string) (w : World) (h : nat) (d d' : Db) (result : list QueryExecResult) :
  idb (hook w) = true →
  currentDb (hook w) = Some h →
  heap w !! h = Some (mkInstance d false) →
  sqlite_exec d query = (d', inr result) →
  (result = [] ∧ isDDL query = true) ∨ result ≠ [] →
  let w' := (executeQuery clock sqlite_exec query w).1 in
  ∃ persisted stamp,
    DATABASE_STORE w' !! currentDbId (hook w) = Some (Image persisted)
    ∧ persisted = touched stamp (currentDbId (hook w)) d'
    ∧ sqlite_master persisted = sqlite_master d'
    ∧ table_schemas persisted = table_schemas d'
    ∧ heap w' !! h = Some (mkInstance persisted false).
Proof.
  intros Hi Hc Hh He Hcase w'.
  destruct (executeQuery_persists clock sqlite_exec query w h d d' result Hi Hc Hh He)
    as (stamp & Hstore & Hheap); [tauto|].
  exists (touched stamp (currentDbId (hook w)) d'), stamp.
  split; [done|]. split; [done|]. split; [|split; [|done]].
  - unfold touched, update_last_modified. by destruct (database_info d').
  - apply table_schemas_touched.
Qed.

Lemma save_on_mutation_witness :
  (let w' := (executeQuery clock_ms toy_exec "CREATE TABLE t(x INTEGER)" world_shop).1 in
   ∃ persisted, DATABASE_STORE w' !! "db_1000" = Some (Image persisted)
                ∧ map TableSchema.name (table_schemas persisted) = ["t"])
  ∧ (let w' := (executeQuery clock_ms toy_exec "SELECT 1" world_shop).1 in
     ∃ persisted, DATABASE_STORE w' !! "db_1000" = Some (Image persisted)
                  ∧ select_info "db_1000" persisted = Some (mkInfoRow "shop" None 1001 1005)).
Proof.
  pose (d := database_named "db_1000" "shop" 1001 1002).
  split.
  - destruct (save_on_mutation clock_ms toy_exec "CREATE TABLE t(x INTEGER)"
                world_shop 3 d (toy_exec d "CREATE TABLE t(x INTEGER)").1 [])
      as (persisted & stamp & Hstore & _ & _ & Hschema & _).
    + reflexivity.
    + vm_compute. reflexivity.
    + vm_compute. reflexivity.
    + vm_compute. reflexivity.
    + left. split; vm_compute; reflexivity.
    + exists persisted. split; [exact Hstore|]. rewrite Hschema. vm_compute. reflexivity.
  - destruct (save_on_mutation clock_ms toy_exec "SELECT 1"
                world_shop 3 d d [mkExec ["1"] [[SqlInteger 1]]])
      as (persisted & stamp & Hstore & _ & _ & _ & _).
    + reflexivity.
    + vm_compute. reflexivity.
    + vm_compute. reflexivity.
    + vm_compute. reflexivity.
    + right. discriminate.
    + exists persisted. split; [exact Hstore|].
      cbv zeta in Hstore. vm_compute in Hstore. injection Hstore as <-.
      vm_compute. reflexivity.
Defined.

(** ** The ATTACH branch *)


Lemma db_id_visible t dbAlias description now stamp :
  Js.includes "sample" (Js.toLowerCase dbAlias) = false →
  visible (DatabaseInfo.mk (String.append "db_" t) dbAlias description now stamp) = true.
Proof. intros H. unfold visible. simpl. by rewrite H. Qed.




(** ** The metadata partition

    No callback of the hook writes the object store [metadata]. *)

Lemma run_Some f h w w' :
  run f h w = Some w' → ∃ d', w' = set_instance_db h d' w.
Proof.
  unfold run. destruct (instance_db h w) as [d|]; simpl; [|done].
  destruct (f d) as [d'|]; simpl; [|done]. intros [= <-]. eauto.
Qed.

Lemma saveDatabase_metadata clock h dbId w :
  METADATA_STORE (saveDatabase clock h dbId w) = METADATA_STORE w.
Proof.
  unfold saveDatabase. destruct (instance_db h w); [|done]. simpl.
  destruct (run _ h _) as [w1|] eqn:Hrun; [|done].
  apply run_Some in Hrun as [d' ->]. by destruct (instance_db h _).
Qed.

Lemma loadTables_metadata h w : METADATA_STORE (loadTables h w) = METADATA_STORE w.
Proof. unfold loadTables. by destruct (instance_db h w) as [d|]; [destruct (tables_readable d)|]. Qed.

Lemma loadDatabaseList_metadata self indexedDB sqlModule w :
  METADATA_STORE (loadDatabaseList self indexedDB sqlModule w) = METADATA_STORE w.
Proof. apply loadDatabaseList_reloaded. Qed.

Lemma loadDatabase_metadata sqlModule dbId w :
  METADATA_STORE (loadDatabase sqlModule dbId w) = METADATA_STORE w.
Proof. apply loadDatabase_reloaded. Qed.

Lemma return_result_metadata clock self h query result executionTime w :
  METADATA_STORE (return_result clock self h query result executionTime w).1 =
    METADATA_STORE w.
Proof.
  unfold return_result. destruct result as [|r0 rest]; simpl.
  - destruct (isDDL query && idb self); [|done].
    destruct (SQL self);
      rewrite ?loadDatabaseList_metadata, loadTables_metadata;
      apply saveDatabase_metadata.
  - destruct (SQL self), (idb self);
      rewrite ?loadDatabaseList_metadata, loadTables_metadata, ?saveDatabase_metadata;
      done.
Qed.

Lemma attach_database_metadata clock self dbPath dbAlias w w' :
  attach_database clock self dbPath dbAlias w = Some w' →
  METADATA_STORE w' = METADATA_STORE w.
Proof.
  unfold attach_database. rewrite new_database_with_info_eq. simpl.
  intros [= <-]. simpl. by rewrite loadDatabaseList_metadata, saveDatabase_metadata.
Qed.

Lemma executeQuery_metadata clock sqlite_exec query w :
  METADATA_STORE (executeQuery clock sqlite_exec query w).1 = METADATA_STORE w.
Proof.
  unfold executeQuery. destruct (currentDb (hook w)) as [h|]; [|done]. simpl.
  unfold exec. destruct (instance_db h _) as [d|]; [|done].
  destruct (sqlite_exec d query) as [d' [message|result]]; [done|]. simpl.
  match goal with |- context [match ?a with Some _ => _ | None => _ end] =>
    destruct a as [w'|] eqn:Ha end; [|done].
  rewrite return_result_metadata.
  destruct (attachMatch query) as [[dbPath dbAlias]|].
  - destruct (idb (hook w) && SQL (hook w)).
    + by apply attach_database_metadata in Ha.
    + by injection Ha as <-.
  - by injection Ha as <-.
Qed.

Lemma createNewDatabase_metadata clock name description w :
  METADATA_STORE (createNewDatabase clock name description w) = METADATA_STORE w.
Proof.
  unfold createNewDatabase. destruct (negb (SQL (hook w)) || negb (idb (hook w))); [done|].
  rewrite new_database_with_info_eq. cbv zeta.
  unfold switchDatabase_of. destruct (negb (SQL (hook w)) || negb (idb (hook w)));
    rewrite ?loadDatabase_metadata, loadDatabaseList_metadata, saveDatabase_metadata; done.
Qed.

Lemma deleteDatabase_metadata dbId w :
  METADATA_STORE (deleteDatabase dbId w) = METADATA_STORE w.
Proof.
  unfold deleteDatabase. destruct (negb (idb (hook w))); [done|].
  rewrite loadDatabaseList_metadata.
  set (w1 := with_databases_store (delete dbId) w).
  set (l := filter _ _).
  assert (METADATA_STORE (foldl (λ w query,
            with_queries_store (delete (SavedQuery.id query)) w) w1 l) = METADATA_STORE w)
    as <-; [|by destruct (bool_decide _)].
  change (METADATA_STORE w) with (METADATA_STORE w1). generalize w1.
  induction l as [|q l IH]; intros w0; simpl; [done|]. by rewrite IH.
Qed.

Lemma history_metadata clock query description queryId w :
  METADATA_STORE (saveQuery clock query description w) = METADATA_STORE w
  ∧ METADATA_STORE (deleteQuery queryId w) = METADATA_STORE w
  ∧ METADATA_STORE (toggleFavorite queryId w) = METADATA_STORE w.
Proof.
  unfold saveQuery, deleteQuery, toggleFavorite.
  destruct (idb (hook w)); simpl; [|done].
  split; [by destruct (negb (truthy (currentDbId (hook w))))|]. split; [done|].
  by destruct (get_query queryId w).
Qed.

(** C3, amended: a switch to an id whose blob the store holds and the
    engine opens writes that id to [localStorage] under the fixed key
    lastOpenedDatabase and leaves every other key of [localStorage] as it
    was; the metadata partition of IndexedDB is left as it was by the
    switch and by every other callback of the hook. *)
Theorem last_opened_in_localStorage (dbId : string) (d : Db) (w : World) :
  SQL (hook w) = true → idb (hook w) = true →
  DATABASE_STORE w !! dbId = Some (Image d) →
  let w' := switchDatabase dbId w in
  (currentDbId (hook w') = dbId
   ∧ localStorage w' !! "lastOpenedDatabase" = Some dbId
   ∧ (∀ key, key ≠ "lastOpenedDatabase" → localStorage w' !! key = localStorage w !! key)
   ∧ METADATA_STORE w' = METADATA_STORE w)
  ∧ (∀ clock sqlite_exec query name description queryId otherId (w0 : World),
       METADATA_STORE (executeQuery clock sqlite_exec query w0).1 = METADATA_STORE w0
       ∧ METADATA_STORE (createNewDatabase clock name description w0) = METADATA_STORE w0
       ∧ METADATA_STORE (switchDatabase otherId w0) = METADATA_STORE w0
       ∧ METADATA_STORE (deleteDatabase otherId w0) = METADATA_STORE w0
       ∧ METADATA_STORE (saveQuery clock query description w0) = METADATA_STORE w0
       ∧ METADATA_STORE (deleteQuery queryId w0) = METADATA_STORE w0
       ∧ METADATA_STORE (toggleFavorite queryId w0) = METADATA_STORE w0
       ∧ METADATA_STORE (initializeDatabase w0) = METADATA_STORE w0).
Proof.
  intros HS Hi Hd w'. subst w'. split.
  - rewrite (switchDatabase_Image _ _ _ HS Hi Hd), tables_of_eq.
    split; [done|]. split; [apply lookup_insert_eq|]. split; [|done].
    intros key Hkey. simpl. by apply lookup_insert_ne.
  - intros clock sqlite_exec query name description queryId otherId w0.
    destruct (history_metadata clock query description queryId w0) as (H1 & H2 & H3).
    split; [apply executeQuery_metadata|]. split; [apply createNewDatabase_metadata|].
    split.
    { unfold switchDatabase, switchDatabase_of.
      destruct (_ || _); [done|apply loadDatabase_metadata]. }
    split; [apply deleteDatabase_metadata|].
    split; [done|]. split; [done|]. split; [done|].
    unfold initializeDatabase. simpl. by rewrite loadDatabaseList_metadata.
Qed.

Lemma last_opened_in_localStorage_witness :
  let w' := switchDatabase "B" world_AB in
  localStorage w' !! "lastOpenedDatabase" = Some "B"
  ∧ METADATA_STORE w' = METADATA_STORE world_AB.
Proof.
  destruct (last_opened_in_localStorage "B" (database_named "B" "second" 2 10) world_AB)
    as [(_ & Hl & _ & Hm) _].
  - reflexivity.
  - reflexivity.
  - vm_compute. reflexivity.
  - split; [exact Hl|exact Hm].
Defined.


(** * Further properties of the hook *)

(** ** Errors of [executeQuery] and of a switch *)

(** X1: when the engine rejects a statement, [executeQuery] passes the
    message of the engine on as it is and persists nothing: the three
    object stores, [localStorage] and the state of the hook are as they
    were.  The engine instance keeps what the rejected statement left in
    it. *)
Theorem query_failed_persists_nothing (clock : nat -> Z)
    (sqlite_exec : Db -> string -> Db * (string + list QueryExecResult))
    (query message : string) (w : World) (h : nat) (d d' : Db) :
  currentDb (hook w) = Some h →
  heap w !! h = Some (mkInstance d false) →
  sqlite_exec d query = (d', inl message) →
  let r := executeQuery clock sqlite_exec query w in
  r.2 = inl message
  ∧ DATABASE_STORE r.1 = DATABASE_STORE w
  ∧ QUERIES_STORE r.1 = QUERIES_STORE w
  ∧ METADATA_STORE r.1 = METADATA_STORE w
  ∧ localStorage r.1 = localStorage w
  ∧ hook r.1 = hook w
  ∧ heap r.1 = <[h := mkInstance d' false]> (heap w).
Proof.
  intros Hc Hh He r. subst r.
  by rewrite (executeQuery_rejected clock sqlite_exec query w h d d' message Hc Hh He).
Qed.

Lemma query_failed_persists_nothing_witness :
  let r := executeQuery clock_ms toy_exec "SELEC 1" world_shop_t in
  (∃ message, r.2 = inl message)
  ∧ DATABASE_STORE r.1 = DATABASE_STORE world_shop_t
  ∧ hook r.1 = hook world_shop_t.
Proof.
  pose (d := mkDb (Some {[ "db_1000" := mkInfoRow "shop" None 1001 1005 ]})
                  [mkTable "t" [mkPragmaRow "x" "INTEGER" 0 0] 0 true]).
  destruct (query_failed_persists_nothing clock_ms toy_exec "SELEC 1"
              "near or at the statement: error" world_shop_t 3 d d)
    as (Hr & Hd & _ & _ & _ & Hk & _).
  - vm_compute. reflexivity.
  - vm_compute. reflexivity.
  - vm_compute. reflexivity.
  - split; [by eexists|]. split; [exact Hd|exact Hk].
Defined.

(** X2: a switch to an id under which the store holds no blob, or one
    the engine cannot open, changes nothing: the active database, the
    engine instances and the last opened record stay as they were. *)
Theorem switch_to_unusable_database (dbId : string) (w : World) :
  DATABASE_STORE w !! dbId = None ∨ DATABASE_STORE w !! dbId = Some Corrupt →
  switchDatabase dbId w = w.
Proof.
  intros Hd. unfold switchDatabase, switchDatabase_of.
  destruct (negb (SQL (hook w)) || negb (idb (hook w))); [done|].
  unfold loadDatabase, new_Database.
  destruct Hd as [->| ->]; [done|]. by destruct (SQL (hook w)).
Qed.

Lemma switch_to_unusable_database_witness :
  switchDatabase "C" world_A_active = world_A_active
  ∧ switchDatabase "X" (put_database "X" Corrupt world_A_active) =
      put_database "X" Corrupt world_A_active.
Proof.
  split; apply switch_to_unusable_database.
  - left. vm_compute. reflexivity.
  - right. vm_compute. reflexivity.
Defined.

(** ** Creating a database *)

Lemma or_undefined_idemp x : or_undefined (or_undefined x) = or_undefined x.
Proof. by destruct x as [[|c s]|]. Qed.

Lemma created_database_entry dbId name description now stamp :
  catalog_entry (dbId, Image (created_database dbId name description now stamp)) =
    Some (DatabaseInfo.mk dbId name (or_undefined description) now stamp).
Proof.
  unfold catalog_entry, created_database, database_with_info, select_info. simpl.
  rewrite lookup_singleton_eq. simpl. by rewrite or_undefined_idemp.
Qed.

(** [createNewDatabase] with the module and the store available. *)
Lemma createNewDatabase_spec clock name description w :
  SQL (hook w) = true → idb (hook w) = true →
  let dbId := String.append "db_" (toString (clock (ticks w))) in
  let blob := Image (created_database dbId name description
                       (clock (S (ticks w))) (clock (S (S (ticks w))))) in
  let w' := createNewDatabase clock name description w in
  DATABASE_STORE w' = <[dbId := blob]> (DATABASE_STORE w)
  ∧ currentDbId (hook w') = dbId
  ∧ getLastOpenedDatabase w' = Some dbId
  ∧ tables (hook w') = []
  ∧ databases (hook w') = catalogOf (DATABASE_STORE w').
Proof.
  intros HS Hi dbId blob w'. subst w'. unfold createNewDatabase.
  rewrite HS, Hi. cbn [negb orb].
  rewrite new_database_with_info_eq. cbv zeta. fold dbId.
  set (d0 := database_with_info dbId _).
  set (w1 := mkWorld _ _ _ _ _ _ _).
  assert (heap w1 !! length (heap w) = Some (mkInstance d0 false)) as Hh.
  { subst w1. simpl. rewrite lookup_app_r by lia. by rewrite Nat.sub_diag. }
  destruct (saveDatabase_spec clock _ dbId _ _ Hh) as (Sd & _). cbv zeta in Sd.
  set (w2 := saveDatabase clock _ dbId w1) in *.
  assert (DATABASE_STORE w2 = <[dbId := blob]> (DATABASE_STORE w)) as Hd2.
  { rewrite Sd. subst d0 blob. unfold created_database.
    by rewrite touched_database_with_info. }
  pose proof (loadDatabaseList_reloaded (hook w) true true w2) as R.
  pose proof (loadDatabaseList_databases (hook w) true true w2 eq_refl) as Rc.
  cbv zeta in Rc. set (w3 := loadDatabaseList (hook w) true true w2) in *.
  destruct R as [Rd _ _ _ _ _ _ _ _].
  unfold switchDatabase_of. rewrite HS, Hi. cbn [negb orb].
  assert (DATABASE_STORE w3 !! dbId = Some blob) as Hb.
  { rewrite Rd, Hd2. apply lookup_insert_eq. }
  rewrite (loadDatabase_Image _ _ _ Hb). cbv zeta.
  split; [simpl; by rewrite Rd, Hd2|]. split; [reflexivity|].
  split; [unfold getLastOpenedDatabase; simpl; apply lookup_insert_eq|].
  split; [reflexivity|]. simpl. by rewrite Rc, Rd.
Qed.

(** X3: with the module and the store available, [createNewDatabase]
    stores a blob under the new id db_<clock reading> whose reserved row
    carries the name and the description (an empty description is left
    out), makes that database the active one and the last opened one,
    with an empty table list, and lists it in the catalog exactly when the
    name does not contain sample. *)
Theorem createNewDatabase_creates_and_activates (clock : nat -> Z)
    (name : string) (description : option string) (w : World) :
  SQL (hook w) = true → idb (hook w) = true →
  let dbId := String.append "db_" (toString (clock (ticks w))) in
  let now := clock (1 + ticks w)%nat in
  let stamp := clock (2 + ticks w)%nat in
  let w' := createNewDatabase clock name description w in
  DATABASE_STORE w' !! dbId = Some (Image (created_database dbId name description now stamp))
  ∧ (∀ other, other ≠ dbId → DATABASE_STORE w' !! other = DATABASE_STORE w !! other)
  ∧ currentDbId (hook w') = dbId
  ∧ getLastOpenedDatabase w' = Some dbId
  ∧ tables (hook w') = []
  ∧ (DatabaseInfo.mk dbId name (or_undefined description) now stamp ∈ databases (hook w')
     ↔ Js.includes "sample" (Js.toLowerCase name) = false).
Proof.
  intros HS Hi dbId now stamp w'.
  destruct (createNewDatabase_spec clock name description w HS Hi)
    as (Hd & Hc & Hl & Ht & Hcat).
  cbv zeta in *. fold dbId w' in Hd, Hc, Hl, Ht, Hcat.
  split; [rewrite Hd; apply lookup_insert_eq|].
  split; [intros other Hne; rewrite Hd; by apply lookup_insert_ne|].
  split; [done|]. split; [done|]. split; [done|].
  rewrite Hcat, elem_of_catalogOf. cbn [DatabaseInfo.id]. split.
  - intros [Hv _]. unfold visible in Hv. simpl in Hv.
    by destruct (Js.includes "sample" (Js.toLowerCase name)).
  - intros Hs. split; [by apply db_id_visible|].
    eexists. split; [rewrite Hd; apply lookup_insert_eq|].
    apply created_database_entry.
Qed.

Lemma createNewDatabase_creates_and_activates_witness :
  let w' := createNewDatabase clock_ms "shop" (Some "") (initializeDatabase world_empty) in
  DATABASE_STORE w' !! "db_1000" = Some (Image (database_named "db_1000" "shop" 1001 1002))
  ∧ currentDbId (hook w') = "db_1000"
  ∧ DatabaseInfo.mk "db_1000" "shop" None 1001 1002 ∈ databases (hook w').
Proof.
  destruct (createNewDatabase_creates_and_activates clock_ms "shop" (Some "")
              (initializeDatabase world_empty))
    as (Hd & _ & Hc & _ & _ & Hcat).
  - reflexivity.
  - reflexivity.
  - split; [exact Hd|]. split; [exact Hc|]. apply Hcat. vm_compute. reflexivity.
Defined.

(** X4: a database created under a name that contains sample, in any
    case, is stored and becomes the active one, and no entry of the
    catalog has its id: the legacy filter of [loadDatabaseList] hides
    it. *)
Theorem createNewDatabase_sample_name_is_hidden (clock : nat -> Z)
    (name : string) (description : option string) (w : World) :
  SQL (hook w) = true → idb (hook w) = true →
  Js.includes "sample" (Js.toLowerCase name) = true →
  let dbId := String.append "db_" (toString (clock (ticks w))) in
  let w' := createNewDatabase clock name description w in
  is_Some (DATABASE_STORE w' !! dbId)
  ∧ currentDbId (hook w') = dbId
  ∧ ∀ e, e ∈ databases (hook w') → DatabaseInfo.id e ≠ dbId.
Proof.
  intros HS Hi Hs dbId w'.
  destruct (createNewDatabase_spec clock name description w HS Hi)
    as (Hd & Hc & _ & _ & Hcat).
  cbv zeta in *. fold dbId w' in Hd, Hc, Hcat.
  split; [rewrite Hd, lookup_insert_eq; by eexists|]. split; [done|].
  intros e. rewrite Hcat, elem_of_catalogOf. intros (Hv & b & Hb & He) Hid.
  rewrite Hid, Hd, lookup_insert_eq in Hb. injection Hb as <-.
  rewrite Hid, created_database_entry in He. injection He as <-.
  unfold visible in Hv. simpl in Hv. by rewrite Hs in Hv.
Qed.

Lemma createNewDatabase_sample_name_is_hidden_witness :
  let w' := createNewDatabase clock_ms "My Samples" None (initializeDatabase world_empty) in
  currentDbId (hook w') = "db_1000" ∧ databases (hook w') = [].
Proof.
  destruct (createNewDatabase_sample_name_is_hidden clock_ms "My Samples" None
              (initializeDatabase world_empty)) as (_ & Hc & _).
  - reflexivity.
  - reflexivity.
  - vm_compute. reflexivity.
  - split; [exact Hc|]. vm_compute. reflexivity.
Defined.

(** ** The catalog that [loadDatabaseList] builds *)

Section Ordered.
Context {A : Type} (le : A -> A -> bool).
Hypothesis le_total : ∀ a b, le a b = false → le b a = true.
Hypothesis le_trans : ∀ a b c, le a b = true → le b c = true → le a c = true.

Lemma insert_sorted_ordered x l : ordered le l → ordered le (insert_sorted le x l).
Proof.
  induction l as [|y r IH]; simpl; [by auto|].
  intros [Hy Hr]. destruct (le x y) eqn:Hxy; simpl.
  - split; [|done]. constructor; [done|].
    eapply Forall_impl; [exact Hy|]. simpl. eauto.
  - split; [|auto]. rewrite insert_sorted_Permutation. constructor; auto.
Qed.

Lemma sort_by_ordered l : ordered le (sort_by le l).
Proof.
  induction l as [|x r IH]; simpl; [done|]. by apply insert_sorted_ordered.
Qed.

End Ordered.

Lemma NoDup_fst_getAll {V} (m : gmap string V) : NoDup (getAll m).*1.
Proof.
  unfold getAll. rewrite sort_by_Permutation. apply NoDup_fst_map_to_list.
Qed.

Lemma NoDup_catalog_entries (l : list (string * Blob)) :
  NoDup l.*1 → NoDup (map DatabaseInfo.id (omap catalog_entry l)).
Proof.
  induction l as [|[k b] l IH]; simpl; [constructor|].
  intros [Hk Hl]%NoDup_cons. specialize (IH Hl).
  destruct (catalog_entry (k, b)) as [e|] eqn:He; [|done].
  simpl. constructor; [|done].
  rewrite (catalog_entry_id _ _ _ He).
  intros (e' & He' & Hin)%list_elem_of_fmap.
  apply list_elem_of_omap in Hin as ([k' b'] & Hin & Hentry).
  apply catalog_entry_id in Hentry. apply Hk.
  apply list_elem_of_fmap. exists (k', b'). split; [|done]. simpl. congruence.
Qed.

Lemma NoDup_catalogOf store : NoDup (map DatabaseInfo.id (catalogOf store)).
Proof.
  unfold catalogOf. rewrite sort_by_Permutation.
  eapply sublist_NoDup;
    [apply (NoDup_catalog_entries (getAll store)), NoDup_fst_getAll|].
  apply fmap_sublist, sublist_filter.
Qed.

(** X5: the catalog that a rebuild leaves in the state of the hook lists
    no id twice, stands in the order of lastModified with the greatest
    first, and holds no entry with the id default or sample or with a
    name that contains sample in any case; every entry belongs to a blob
    of the store that the engine opens. *)
Theorem rebuilt_catalog_is_wellformed (self : Hook) (w : World) :
  let catalog := databases (hook (loadDatabaseList self true true w)) in
  NoDup (map DatabaseInfo.id catalog)
  ∧ ordered by_lastModified catalog
  ∧ ∀ e, e ∈ catalog →
      DatabaseInfo.id e ≠ "default"
      ∧ DatabaseInfo.id e ≠ "sample"
      ∧ Js.includes "sample" (Js.toLowerCase (DatabaseInfo.name e)) = false
      ∧ ∃ d, DATABASE_STORE w !! DatabaseInfo.id e = Some (Image d).
Proof.
  intros catalog. subst catalog.
  rewrite (loadDatabaseList_databases self true true w eq_refl).
  split; [apply NoDup_catalogOf|]. split.
  - apply sort_by_ordered; [apply by_lastModified_total|apply by_lastModified_trans].
  - intros e He. pose proof (catalogOf_Image _ _ He) as Himg.
    apply elem_of_catalogOf in He as [Hv _]. unfold visible in Hv.
    apply andb_prop in Hv as [Hv Hs]. apply andb_prop in Hv as [Hd Hsa].
    apply negb_true_iff in Hd, Hsa, Hs.
    apply String.eqb_neq in Hd, Hsa. done.
Qed.

(** X6: a blob that the engine cannot open does not abort the rebuild:
    the catalog is the one of the store without that blob. *)
Theorem corrupt_blob_is_skipped (self : Hook) (dbId : string) (w : World) :
  DATABASE_STORE w !! dbId = Some Corrupt →
  ∀ e, e ∈ databases (hook (loadDatabaseList self true true w))
       ↔ e ∈ catalogOf (delete dbId (DATABASE_STORE w)).
Proof.
  intros Hc e.
  rewrite (loadDatabaseList_databases self true true w eq_refl).
  rewrite !elem_of_catalogOf. split.
  - intros (Hv & b & Hb & He). split; [done|]. exists b. split; [|done].
    apply lookup_delete_Some. split; [|done].
    intros Heq. rewrite <- Heq, Hc in Hb. injection Hb as <-. done.
  - intros (Hv & b & Hb & He). split; [done|]. exists b. split; [|done].
    by apply lookup_delete_Some in Hb as [_ Hb].
Qed.

Lemma corrupt_blob_is_skipped_witness :
  let w := put_database "X" Corrupt world_AB in
  map DatabaseInfo.id (databases (hook (loadDatabaseList (hook w) true true w))) = ["B"; "A"]
  ∧ ∀ e, e ∈ databases (hook (loadDatabaseList (hook w) true true w))
         ↔ e ∈ catalogOf (delete "X" (DATABASE_STORE w)).
Proof.
  split; [vm_compute; reflexivity|].
  apply corrupt_blob_is_skipped. vm_compute. reflexivity.
Defined.

(** X7: a rebuild of the catalog closes and alters no engine instance
    that existed before it, whatever the store holds and whether or not
    the module and the store are available: every instance stays under
    its reference as it was, the instance of the active database
    included, so no fewer instances are unclosed afterwards. *)
Theorem rebuild_keeps_existing_instances (self : Hook) (indexedDB sqlModule : bool)
    (w : World) :
  let w' := loadDatabaseList self indexedDB sqlModule w in
  (∀ h i, heap w !! h = Some i → heap w' !! h = Some i)
  ∧ (∀ h d, instance_db h w = Some d → instance_db h w' = Some d)
  ∧ (length (live w) ≤ length (live w'))%nat.
Proof.
  intros w'. subst w'.
  destruct (loadDatabaseList_reloaded self indexedDB sqlModule w)
    as [_ _ _ _ [ext Hheap] _ _ _ _].
  assert (∀ h i, heap w !! h = Some i →
            heap (loadDatabaseList self indexedDB sqlModule w) !! h = Some i) as Hkeep.
  { intros h i Hh. rewrite Hheap. by apply lookup_app_l_Some. }
  split; [exact Hkeep|]. split.
  - intros h d. unfold instance_db.
    destruct (heap w !! h) as [[d0 []]|] eqn:Hh; try done.
    intros [= ->]. by rewrite (Hkeep _ _ Hh).
  - unfold live. rewrite Hheap, filter_app, length_app. lia.
Qed.

(** ** The history log *)

Lemma by_timestamp_total a b : by_timestamp a b = false → by_timestamp b a = true.
Proof. unfold by_timestamp. lia. Qed.

Lemma by_timestamp_trans a b c :
  by_timestamp a b = true → by_timestamp b c = true → by_timestamp a c = true.
Proof. unfold by_timestamp. lia. Qed.

Lemma NoDup_getAll_queries w : NoDup (map SavedQuery.id (getAll_queries w)).
Proof.
  unfold getAll_queries. rewrite map_map. simpl.
  apply (NoDup_fst_getAll (QUERIES_STORE w)).
Qed.

Lemma queryHistory_loadQueryHistory dbId w :
  queryHistory (hook (loadQueryHistory dbId w)) =
    sort_by by_timestamp
      (filter (λ q : SavedQuery.t, SavedQuery.databaseId q = dbId) (getAll_queries w)).
Proof. reflexivity. Qed.

Lemma elem_of_loadQueryHistory dbId w (q : SavedQuery.t) :
  q ∈ queryHistory (hook (loadQueryHistory dbId w)) ↔
    QUERIES_STORE w !! SavedQuery.id q = Some (SavedQuery.rest q)
    ∧ SavedQuery.databaseId q = dbId.
Proof.
  rewrite queryHistory_loadQueryHistory.
  rewrite elem_of_sort_by, list_elem_of_filter, elem_of_getAll_queries. tauto.
Qed.

(** X8: the history view that [loadQueryHistory] leaves holds the saved
    queries of the store whose [databaseId] is the given id, all of them
    and no other, each once, with the newest first. *)
Theorem history_view_is_the_queries_of_the_database (dbId : string) (w : World) :
  let history := queryHistory (hook (loadQueryHistory dbId w)) in
  (∀ q : SavedQuery.t,
      q ∈ history ↔
        QUERIES_STORE w !! SavedQuery.id q = Some (SavedQuery.rest q)
        ∧ SavedQuery.databaseId q = dbId)
  ∧ NoDup (map SavedQuery.id history)
  ∧ ordered by_timestamp history.
Proof.
  intros history. subst history.
  split; [intros q; apply elem_of_loadQueryHistory|].
  rewrite queryHistory_loadQueryHistory. split.
  - rewrite sort_by_Permutation.
    eapply sublist_NoDup; [apply NoDup_getAll_queries|].
    apply fmap_sublist, sublist_filter.
  - apply sort_by_ordered; [apply by_timestamp_total|apply by_timestamp_trans].
Qed.

(** X9: with the store open, [deleteQuery] removes the entry of the
    given id from the query partition and from the history view, touches
    no other entry and no database blob, and a second call changes nothing
    more in the store. *)
Theorem deleteQuery_removes_one_entry (queryId : string) (w : World) :
  idb (hook w) = true →
  let w' := deleteQuery queryId w in
  QUERIES_STORE w' !! queryId = None
  ∧ (∀ k, k ≠ queryId → QUERIES_STORE w' !! k = QUERIES_STORE w !! k)
  ∧ (∀ q : SavedQuery.t, q ∈ queryHistory (hook w') → SavedQuery.id q ≠ queryId)
  ∧ DATABASE_STORE w' = DATABASE_STORE w
  ∧ QUERIES_STORE (deleteQuery queryId w') = QUERIES_STORE w'.
Proof.
  intros Hi w'. subst w'. unfold deleteQuery. rewrite Hi. cbn [negb].
  set (w1 := with_queries_store (delete queryId) w).
  split; [apply lookup_delete_eq|].
  split; [intros k Hk; simpl; by apply lookup_delete_ne|].
  split; [|split; [done|]].
  - intros q Hq Heq.
    apply (elem_of_loadQueryHistory (currentDbId (hook w)) w1) in Hq as [Hq _].
    subst w1. simpl in Hq. rewrite Heq, lookup_delete_eq in Hq. done.
  - simpl. rewrite Hi. simpl. apply delete_delete_eq.
Qed.

Lemma deleteQuery_removes_one_entry_witness :
  let w := saveQuery clock_ms "SELECT 2" None
             (saveQuery clock_ms "SELECT 1" None world_A_active) in
  let w' := deleteQuery "1000" w in
  is_Some (QUERIES_STORE w !! "1000")
  ∧ QUERIES_STORE w' !! "1000" = None
  ∧ QUERIES_STORE w' !! "1002" = QUERIES_STORE w !! "1002"
  ∧ map SavedQuery.id (queryHistory (hook w')) = ["1002"].
Proof.
  intros w w'.
  destruct (deleteQuery_removes_one_entry "1000" w) as (H1 & H2 & _).
  - reflexivity.
  - split; [vm_compute; by eexists|]. split; [exact H1|].
    split; [apply H2; discriminate|]. vm_compute. reflexivity.
Defined.

(** ** Persisting and reloading *)

Lemma tables_readable_touched now dbId d :
  tables_readable (touched now dbId d) = tables_readable d.
Proof. unfold touched, update_last_modified. by destruct (database_info d). Qed.

(** X10: after the [saveDatabase] the hook returns, a switch to the
    active id opens an instance that holds the database of the instance
    that was saved, [last_modified] stamp included; when the statements
    [loadTables] builds from the names of its tables all run, the table
    list of the hook is the one of the database before the save, and when
    one of them throws the table list stays as it was. *)
Theorem persist_then_switch_round_trip (clock : nat -> Z) (w : World) (h : nat) (d : Db) :
  SQL (hook w) = true → idb (hook w) = true →
  currentDb (hook w) = Some h →
  heap w !! h = Some (mkInstance d false) →
  let w1 := exported_saveDatabase clock (hook w) w in
  let w2 := switchDatabase (currentDbId (hook w)) w1 in
  ∃ saved reopened,
    heap w1 !! h = Some (mkInstance saved false)
    ∧ currentDb (hook w2) = Some reopened
    ∧ heap w2 !! reopened = Some (mkInstance saved false)
    ∧ reopened ≠ h
    ∧ sqlite_master saved = sqlite_master d
    ∧ (tables_readable d = true → tables (hook w2) = table_schemas d)
    ∧ (tables_readable d = false → tables (hook w2) = tables (hook w))
    ∧ currentDbId (hook w2) = currentDbId (hook w).
Proof.
  intros HS Hi Hc Hh w1 w2.
  pose proof (lookup_lt_Some _ _ _ Hh) as Hlt.
  destruct (saveDatabase_spec clock h (currentDbId (hook w)) d w Hh)
    as (Sd & Sh & _ & _ & _ & _ & Sk). cbv zeta in *.
  assert (w1 = saveDatabase clock h (currentDbId (hook w)) w) as Hw1.
  { subst w1. unfold exported_saveDatabase. by rewrite Hi, Hc. }
  rewrite <- Hw1 in Sd, Sh, Sk. clearbody w1.
  set (saved := touched (clock (ticks w)) (currentDbId (hook w)) d) in *.
  assert (DATABASE_STORE w1 !! currentDbId (hook w) = Some (Image saved)) as Hb.
  { rewrite Sd. apply lookup_insert_eq. }
  subst w2. rewrite (switchDatabase_Image _ saved w1); [|by rewrite Sk..|done].
  rewrite tables_of_eq.
  exists saved, (length (heap w1)). simpl.
  split; [rewrite Sh; by apply list_lookup_insert_eq|]. split; [done|].
  split; [rewrite lookup_app_r by lia; by rewrite Nat.sub_diag|].
  split; [rewrite Sh, length_insert; lia|].
  split; [subst saved; unfold touched, update_last_modified; by destruct (database_info d)|].
  subst saved. rewrite tables_readable_touched, table_schemas_touched.
  split; [by intros ->|]. split; [|done]. intros ->. by rewrite Sk.
Qed.

Lemma persist_then_switch_round_trip_witness :
  let w1 := exported_saveDatabase clock_ms (hook world_shop_t) world_shop_t in
  let w2 := switchDatabase "db_1000" w1 in
  map TableSchema.name (tables (hook w2)) = ["t"]
  ∧ ∃ saved reopened, heap w1 !! 3%nat = Some (mkInstance saved false)
                      ∧ heap w2 !! reopened = Some (mkInstance saved false)
                      ∧ reopened ≠ 3%nat.
Proof.
  pose (d := mkDb (Some {[ "db_1000" := mkInfoRow "shop" None 1001 1005 ]})
                  [mkTable "t" [mkPragmaRow "x" "INTEGER" 0 0] 0 true]).
  destruct (persist_then_switch_round_trip clock_ms world_shop_t 3 d)
    as (saved & reopened & H1 & _ & H3 & H4 & _ & H6 & _ & _).
  - reflexivity.
  - reflexivity.
  - vm_compute. reflexivity.
  - vm_compute. reflexivity.
  - split.
    + change "db_1000" with (currentDbId (hook world_shop_t)). cbv zeta in H6.
      rewrite H6; vm_compute; reflexivity.
    + exists saved, reopened. auto.
Defined.

(** * The statements the interface builds *)

(** ** Reversal, [span] and [trim] *)

Lemma append_cons c s t : String.append (String c s) t = String c (String.append s t).
Proof. reflexivity. Qed.

Lemma append_nil_l t : String.append "" t = t.
Proof. reflexivity. Qed.

Lemma append_nil_r s : String.append s "" = s.
Proof. induction s as [|c s IH]; [done|]. by rewrite append_cons, IH. Qed.

Lemma append_assoc a b c :
  String.append (String.append a b) c = String.append a (String.append b c).
Proof. induction a as [|x a IH]; [done|]. by rewrite !append_cons, IH. Qed.

Lemma rev_onto_spec s acc : Js.rev_onto s acc = String.append (Js.rev s) acc.
Proof.
  unfold Js.rev. revert acc. induction s as [|c s IH]; intros acc; [done|].
  cbn [Js.rev_onto]. rewrite IH, (IH (String c "")), append_assoc. done.
Qed.

Lemma rev_cons c s : Js.rev (String c s) = String.append (Js.rev s) (String c "").
Proof. unfold Js.rev at 1. cbn [Js.rev_onto]. apply rev_onto_spec. Qed.

Lemma rev_append a b : Js.rev (String.append a b) = String.append (Js.rev b) (Js.rev a).
Proof.
  induction a as [|c a IH].
  - change (Js.rev "") with "". by rewrite append_nil_l, append_nil_r.
  - by rewrite append_cons, !rev_cons, IH, append_assoc.
Qed.

Lemma rev_involutive s : Js.rev (Js.rev s) = s.
Proof.
  induction s as [|c s IH]; [done|].
  by rewrite rev_cons, rev_append, IH.
Qed.

Lemma span_stop p a e b :
  p e = false →
  (Js.span p (String.append a (String e b))).2 = String.append (Js.span p a).2 (String e b).
Proof.
  intros He. induction a as [|c a IH]; rewrite ?append_cons, ?append_nil_l; cbn [Js.span].
  - by rewrite He.
  - destruct (p c); [|done]. destruct (Js.span p a) as [u v].
    destruct (Js.span p (String.append a (String e b))) as [u' v']. done.
Qed.

(** [trim] leaves a text alone from its first character to a later
    one when neither is white space. *)
Lemma trim_keeps_core c p e x :
  Js.is_space c = false → Js.is_space e = false →
  ∃ y, Js.trim (String c (String.append p (String e x))) =
       String c (String.append p (String e y)).
Proof.
  intros Hc He. exists (Js.rev (Js.span Js.is_space (Js.rev x)).2).
  unfold Js.trim. cbn [Js.span]. rewrite Hc. cbn [snd].
  rewrite rev_cons, rev_append, rev_cons, !append_assoc.
  rewrite append_cons, append_nil_l, span_stop by done.
  rewrite rev_append, rev_cons, rev_append, rev_involutive.
  change (Js.rev (String c "")) with (String c "").
  by rewrite !append_assoc, !append_cons, !append_nil_l.
Qed.

(** ** The DDL test on the statements of the interface *)

Lemma isDDL_create x : isDDL (String.append "CREATE TABLE " x) = true.
Proof.
  change (String.append "CREATE TABLE " x)
    with (String "C" (String.append "REATE TABL" (String "E" (String.append " " x)))).
  destruct (trim_keeps_core "C" "REATE TABL" "E" (String.append " " x)) as [y Hy];
    [done..|].
  unfold isDDL. rewrite Hy. rewrite !append_cons, append_nil_l. reflexivity.
Qed.

Lemma isDDL_drop x : isDDL (String.append "DROP TABLE " x) = true.
Proof.
  change (String.append "DROP TABLE " x)
    with (String "D" (String.append "ROP TABL" (String "E" (String.append " " x)))).
  destruct (trim_keeps_core "D" "ROP TABL" "E" (String.append " " x)) as [y Hy];
    [done..|].
  unfold isDDL. rewrite Hy. rewrite !append_cons, append_nil_l. reflexivity.
Qed.

Lemma isDDL_select x : isDDL (String.append "SELECT * FROM " x) = false.
Proof.
  change (String.append "SELECT * FROM " x)
    with (String "S" (String.append "ELECT * FRO" (String "M" (String.append " " x)))).
  destruct (trim_keeps_core "S" "ELECT * FRO" "M" (String.append " " x)) as [y Hy];
    [done..|].
  unfold isDDL. rewrite Hy. reflexivity.
Qed.

(** X11: the statement the table builder generates passes the DDL test
    of [executeQuery] for every table name and every list of columns, so
    when the engine accepts it without a row set, with the store open, the
    database with the new table is persisted under the active id. *)
Theorem built_table_is_persisted (clock : nat -> Z)
    (sqlite_exec : Db -> string -> Db * (string + list QueryExecResult))
    (tableName : string) (columns : list Column.t) (w : World) (h : nat) (d d' : Db) :
  let sql := CreateTableModal.generateSQL tableName columns in
  isDDL sql = true
  ∧ (idb (hook w) = true →
     currentDb (hook w) = Some h →
     heap w !! h = Some (mkInstance d false) →
     sqlite_exec d sql = (d', inr []) →
     ∃ persisted,
       DATABASE_STORE (executeQuery clock sqlite_exec sql w).1 !! currentDbId (hook w) =
         Some (Image persisted)
       ∧ sqlite_master persisted = sqlite_master d').
Proof.
  intros sql.
  assert (isDDL sql = true) as Hddl by apply isDDL_create.
  split; [done|]. intros Hi Hc Hh He.
  destruct (executeQuery_persists clock sqlite_exec sql w h d d' [] Hi Hc Hh He)
    as (stamp & Hstore & _); [by left|].
  eexists. split; [exact Hstore|].
  unfold touched, update_last_modified. by destruct (database_info d').
Qed.

Lemma built_table_is_persisted_witness :
  let sql := CreateTableModal.generateSQL "users" [CreateTableModal.first_column] in
  ∃ persisted,
    DATABASE_STORE (executeQuery clock_ms ddl_exec sql world_shop).1 !! "db_1000" =
      Some (Image persisted)
    ∧ map tbl_name (sqlite_master persisted) = ["users"].
Proof.
  pose (d := database_named "db_1000" "shop" 1001 1002).
  destruct (built_table_is_persisted clock_ms ddl_exec "users"
              [CreateTableModal.first_column] world_shop 3 d (ddl_exec d
                (CreateTableModal.generateSQL "users" [CreateTableModal.first_column])).1)
    as [_ Hp].
  destruct Hp as (persisted & Hstore & Hmaster).
  - reflexivity.
  - vm_compute. reflexivity.
  - vm_compute. reflexivity.
  - vm_compute. reflexivity.
  - exists persisted. split; [exact Hstore|]. rewrite Hmaster. vm_compute. reflexivity.
Defined.

(** ** The columns of the table builder *)

Lemma filter_none {A} (P : A → Prop) `{!∀ x, Decision (P x)} (l : list A) :
  (∀ x, x ∈ l → ¬ P x) → filter P l = [].
Proof.
  induction l as [|x l IH]; intros Hall; [done|].
  rewrite filter_cons_False by (apply Hall; left).
  apply IH. intros y Hy. apply Hall. by right.
Qed.

(** X12: after a column is made the primary key, every primary key
    column of the form has the id of that column and is not nullable,
    every column with that id is a primary key, and the ids and their
    order are as before; with distinct ids at most one column is a primary
    key. *)
Theorem primary_key_is_exclusive (id : string) (columns : list Column.t) :
  let columns' := CreateTableModal.updateColumn id (SetPrimaryKey true) columns in
  map Column.id columns' = map Column.id columns
  ∧ (∀ col, col ∈ columns' →
       (Column.primaryKey col = true ↔ Column.id col = id)
       ∧ (Column.primaryKey col = true → Column.nullable col = false))
  ∧ (NoDup (map Column.id columns) →
     (length (filter (λ col, Column.primaryKey col = true) columns') ≤ 1)%nat).
Proof.
  intros columns'. subst columns'.
  assert (∀ l, ∀ col, col ∈ CreateTableModal.updateColumn id (SetPrimaryKey true) l →
            (Column.primaryKey col = true ↔ Column.id col = id)
            ∧ (Column.primaryKey col = true → Column.nullable col = false)) as Hall.
  { intros l col (c0 & -> & _)%list_elem_of_fmap.
    destruct (String.eqb_spec (Column.id c0) id) as [Heq|Hne]; simpl.
    - split; [done|done].
    - split; [|done]. split; [done|]. intros Heq. by destruct Hne. }
  split; [|split].
  - unfold CreateTableModal.updateColumn. rewrite map_map. apply map_ext.
    intros c0. by destruct (String.eqb (Column.id c0) id).
  - apply Hall.
  - unfold CreateTableModal.updateColumn in *.
    set (g := λ col : Column.t, if String.eqb (Column.id col) id then _ else _) in *.
    induction columns as [|c0 l IH]; [simpl; lia|].
    intros [Hc0 Hl]%NoDup_cons. specialize (IH Hl). cbn [map].
    destruct (String.eqb (Column.id c0) id) eqn:Heq.
    + rewrite filter_cons_True by (unfold g; by rewrite Heq).
      apply String.eqb_eq in Heq.
      assert (filter (λ col, Column.primaryKey col = true) (map g l) = []) as ->;
        [|simpl; lia].
      apply filter_none. intros col Hcol Hpk.
      destruct (Hall _ _ Hcol) as [Hid _]. apply Hid in Hpk.
      apply Hc0. rewrite Heq, <- Hpk.
      apply list_elem_of_fmap in Hcol as (c1 & -> & Hc1).
      apply list_elem_of_fmap. exists c1. split; [|done].
      unfold g. by destruct (String.eqb (Column.id c1) id).
    + rewrite filter_cons_False by (unfold g; rewrite Heq; simpl; discriminate).
      exact IH.
Qed.

Lemma primary_key_is_exclusive_witness :
  let columns := CreateTableModal.addColumn 5 [CreateTableModal.first_column] in
  let columns' := CreateTableModal.updateColumn "5" (SetPrimaryKey true) columns in
  map Column.primaryKey columns = [true; false]
  ∧ map Column.primaryKey columns' = [false; true]
  ∧ (length (filter (λ col, Column.primaryKey col = true) columns') ≤ 1)%nat.
Proof.
  split; [reflexivity|]. split; [reflexivity|].
  apply (primary_key_is_exclusive "5"
           (CreateTableModal.addColumn 5 [CreateTableModal.first_column])).
  change (NoDup ["1"; "5"]).
  apply NoDup_cons. split; [by intros ?%list_elem_of_singleton|].
  apply NoDup_singleton.
Defined.

Lemma edit_keeps_primary_keys_not_nullable columns e :
  primary_keys_not_nullable columns → primary_keys_not_nullable (edit_columns columns e).
Proof.
  intros Hinv. destruct e as [now|id|id u]; simpl.
  - intros col [Hcol| ->%list_elem_of_singleton]%elem_of_app; [by apply Hinv|done].
  - unfold CreateTableModal.removeColumn. destruct (1 <? length columns)%nat; [|done].
    intros col [_ Hcol]%list_elem_of_filter. by apply Hinv.
  - intros col (c0 & -> & Hc0)%list_elem_of_fmap. specialize (Hinv c0 Hc0).
    destruct (String.eqb (Column.id c0) id).
    + destruct u as [v|v|v|[]|[]]; simpl; auto; try done.
      destruct (Column.primaryKey c0) eqn:Hpk; simpl; [auto|done].
    + destruct u as [v|v|v|[]|v]; simpl; auto; done.
Qed.

(** X13: in every state the form of the table builder can reach from
    its first column by adding, removing and updating columns, a column
    that is a primary key is not nullable. *)
Theorem primary_keys_stay_not_nullable (edits : list ColumnEdit) :
  primary_keys_not_nullable (foldl edit_columns [CreateTableModal.first_column] edits).
Proof.
  assert (primary_keys_not_nullable [CreateTableModal.first_column]) as Hfirst.
  { by intros col ->%list_elem_of_singleton. }
  revert Hfirst. generalize [CreateTableModal.first_column].
  induction edits as [|e edits IH]; intros columns Hinv; simpl; [done|].
  by apply IH, edit_keeps_primary_keys_not_nullable.
Qed.

(** X14: [removeColumn] never removes the only column, and with
    distinct ids it never leaves the form without a column: it removes the
    column of the given id, when there are several columns, and keeps the
    others. *)
Theorem removeColumn_keeps_a_column (id : string) (columns : list Column.t) :
  NoDup (map Column.id columns) →
  columns ≠ [] →
  let columns' := CreateTableModal.removeColumn id columns in
  columns' ≠ []
  ∧ ((length columns ≤ 1)%nat → columns' = columns)
  ∧ ((1 < length columns)%nat →
     ∀ col, col ∈ columns' ↔ col ∈ columns ∧ Column.id col ≠ id).
Proof.
  intros Hnd Hne columns'. subst columns'. unfold CreateTableModal.removeColumn.
  destruct (1 <? length columns)%nat eqn:Hlen.
  - apply Nat.ltb_lt in Hlen. split; [|split; [lia|]].
    + destruct columns as [|c1 [|c2 rest]]; simpl in Hlen; [lia..|].
      apply NoDup_cons in Hnd as [Hc1 _].
      assert (Column.id c1 ≠ Column.id c2) as Hdiff.
      { intros Heq. apply Hc1. rewrite Heq. simpl. left. }
      destruct (decide (Column.id c1 = id)) as [Heq|Hneq].
      * assert (c2 ∈ filter (λ col, Column.id col ≠ id) (c1 :: c2 :: rest)) as Hin.
        { apply list_elem_of_filter. split; [congruence|]. right. left. }
        intros Hnil. rewrite Hnil in Hin. by apply elem_of_nil in Hin.
      * rewrite filter_cons_True by done. done.
    + intros _ col. rewrite list_elem_of_filter. tauto.
  - apply Nat.ltb_ge in Hlen. split; [done|]. split; [done|lia].
Qed.

Lemma removeColumn_keeps_a_column_witness :
  let columns := CreateTableModal.addColumn 5 [CreateTableModal.first_column] in
  map Column.id (CreateTableModal.removeColumn "1" columns) = ["5"]
  ∧ CreateTableModal.removeColumn "5" (CreateTableModal.removeColumn "1" columns) ≠ [].
Proof.
  split; [reflexivity|].
  apply (removeColumn_keeps_a_column "5").
  - change (NoDup ["5"]). apply NoDup_singleton.
  - discriminate.
Defined.

(** ** The validation of the form *)

Lemma validate_columns_accept (columns : list Column.t) (seen : gset string)
    (errors : list string) :
  (foldl CreateTableModal.validate_column (seen, errors) columns).2 = [] ↔
    errors = []
    ∧ Forall (λ col, CreateTableModal.is_identifier (Js.trim (Column.name col)) = true)
        columns
    ∧ NoDup (map normalized_name columns)
    ∧ ∀ n, n ∈ map normalized_name columns → n ∉ seen.
Proof.
  revert seen errors. induction columns as [|col columns IH]; intros seen errors.
  - simpl. split; [intros ->|tauto]. repeat split; [constructor..|].
    intros n Hn. by apply elem_of_nil in Hn.
  - cbn [foldl]. unfold CreateTableModal.validate_column at 2.
    fold (normalized_name col).
    assert (∀ key, errors ++ [key] ≠ []) as Hgrow by (intros key; by destruct errors).
    destruct (truthy (Js.trim (Column.name col))) eqn:Htruthy; cbn [negb].
    2:{ rewrite IH. split; [intros [H _]; by apply Hgrow in H|].
        intros (_ & Hall & _). apply Forall_cons in Hall as [Hid _].
        unfold truthy in Htruthy. apply negb_false_iff, String.eqb_eq in Htruthy.
        by rewrite Htruthy in Hid. }
    destruct (CreateTableModal.is_identifier (Js.trim (Column.name col))) eqn:Hident;
      cbn [negb].
    2:{ rewrite IH. split; [intros [H _]; by apply Hgrow in H|].
        intros (_ & Hall & _). apply Forall_cons in Hall as [Hid _]. congruence. }
    destruct (bool_decide (normalized_name col ∈ seen)) eqn:Hseen.
    + apply bool_decide_eq_true in Hseen. rewrite IH.
      split; [intros [H _]; by apply Hgrow in H|].
      intros (_ & _ & _ & Hfresh). exfalso. apply (Hfresh (normalized_name col)); [|done].
      simpl. left.
    + apply bool_decide_eq_false in Hseen. rewrite IH. cbn [map].
      rewrite Forall_cons, NoDup_cons. split.
      * intros (-> & Hall & Hnd & Hfresh). repeat split; try done.
        -- intros Hin. apply (Hfresh _ Hin), elem_of_union. left.
           by apply elem_of_singleton.
        -- intros n [->|Hn]%elem_of_cons; [done|]. intros Hs.
           apply (Hfresh n Hn), elem_of_union. by right.
      * intros (-> & [_ Hall] & [Hhead Hnd] & Hfresh). repeat split; try done.
        intros n Hn [Hs|Hs]%elem_of_union.
        -- apply elem_of_singleton in Hs. congruence.
        -- apply (Hfresh n); [by right|done].
Qed.

(** X15: [validateForm] accepts the form exactly when the trimmed table
    name and every trimmed column name is a letter or an underscore
    followed by letters, digits and underscores, and no two column names
    are the same once trimmed and put in lower case. *)
Theorem validateForm_accepts (tableName : string) (columns : list Column.t) :
  CreateTableModal.validateForm tableName columns = true ↔
    CreateTableModal.is_identifier (Js.trim tableName) = true
    ∧ Forall (λ col, CreateTableModal.is_identifier (Js.trim (Column.name col)) = true)
        columns
    ∧ NoDup (map normalized_name columns).
Proof.
  unfold CreateTableModal.validateForm, CreateTableModal.validation_errors.
  rewrite bool_decide_eq_true, validate_columns_accept.
  destruct (truthy (Js.trim tableName)) eqn:Htruthy; cbn [negb].
  - destruct (CreateTableModal.is_identifier (Js.trim tableName)); cbn [negb].
    + split; [tauto|]. intros (_ & Hall & Hnd). by repeat split.
    + split; [by intros [? _]|by intros [? _]].
  - unfold truthy in Htruthy. apply negb_false_iff, String.eqb_eq in Htruthy.
    rewrite Htruthy. split; [by intros [? _]|by intros [? _]].
Qed.

(** * The pages of the result view *)

Lemma take_drop_chunks {A} (k : nat) (m : nat) (l : list A) :
  (length l ≤ m * k)%nat →
  concat (map (λ i, take k (drop (i * k) l)) (seq 0 m)) = l.
Proof.
  revert l. induction m as [|m IH]; intros l Hlen.
  - simpl in *. by destruct l; [|simpl in Hlen; lia].
  - cbn [seq map concat]. rewrite <- seq_shift, map_map.
    transitivity (take k l ++ drop k l); [|apply take_drop].
    f_equal.
    etransitivity; [|apply (IH (drop k l)); rewrite length_drop; lia].
    f_equal. apply map_ext. intros i. by rewrite drop_drop.
Qed.

Lemma slice_page {A} (i k : nat) (l : list A) :
  ResultsDisplay.slice (Z.of_nat i * Z.of_nat k)
    (Z.min (Z.of_nat i * Z.of_nat k + Z.of_nat k) (Z.of_nat (length l))) l =
    take k (drop (i * k) l).
Proof.
  unfold ResultsDisplay.slice.
  set (n := length l). set (s := (Z.of_nat i * Z.of_nat k)%Z).
  assert (0 ≤ s)%Z by lia.
  destruct (s <? 0)%Z eqn:Hs; [lia|].
  destruct (Z.min (s + Z.of_nat k) (Z.of_nat n) <? 0)%Z eqn:He; [lia|].
  destruct (decide (s ≤ Z.of_nat n)%Z) as [Hle|Hgt].
  - rewrite (Z.min_l s) by lia. rewrite Z.min_l by lia.
    replace (Z.to_nat s) with (i * k)%nat by lia.
    destruct (decide (s + Z.of_nat k ≤ Z.of_nat n)%Z).
    + rewrite Z.min_l by lia. f_equal. lia.
    + rewrite Z.min_r by lia.
      rewrite (take_ge _ k) by (rewrite length_drop; lia).
      apply take_ge. rewrite length_drop. lia.
  - rewrite (Z.min_r s) by lia. rewrite (Z.min_r (s + _)) by lia.
    rewrite Z.min_l by lia. rewrite Z.sub_diag.
    rewrite (drop_ge l (i * k)) by lia. by rewrite take_nil.
Qed.

(** X16: with a page size above zero and [rowCount] the number of
    rows, as [executeQuery] sets it, the pages 1 to [totalPages] put one
    after the other are the rows of the result: no row is left out and
    none is shown twice. *)
Theorem pages_partition_the_rows (r : QueryResult.t) (entriesPerPage : Z) :
  0 < entriesPerPage →
  QueryResult.rowCount r = Z.of_nat (length (QueryResult.values r)) →
  concat (map (λ page, ResultsDisplay.paginatedData (Some r) page entriesPerPage)
              (seqZ 1 (ResultsDisplay.totalPages (Some r) entriesPerPage))) =
    QueryResult.values r.
Proof.
  intros Hk Hcount.
  unfold ResultsDisplay.totalPages, ResultsDisplay.totalEntries, ResultsDisplay.ceil_div.
  rewrite Hcount. set (l := QueryResult.values r). set (n := length l).
  destruct (Z_of_nat_complete entriesPerPage) as [k ->]; [lia|].
  set (m := Z.to_nat ((Z.of_nat n + Z.of_nat k - 1) / Z.of_nat k)).
  assert (0 ≤ (Z.of_nat n + Z.of_nat k - 1) / Z.of_nat k) as Hm
    by (apply Z.div_pos; lia).
  assert (n ≤ m * k)%nat as Hcover.
  { pose proof (Z.mul_succ_div_gt (Z.of_nat n + Z.of_nat k - 1) (Z.of_nat k)) as Hd.
    subst m. nia. }
  unfold seqZ. fold m. rewrite map_map.
  etransitivity; [|apply (take_drop_chunks k m l Hcover)]. f_equal. apply map_ext.
  intros i. unfold ResultsDisplay.paginatedData, ResultsDisplay.endIndex,
    ResultsDisplay.startIndex, ResultsDisplay.totalEntries.
  rewrite Hcount. fold l n.
  replace ((Z.of_nat i + 1 - 1) * Z.of_nat k) with (Z.of_nat i * Z.of_nat k) by lia.
  apply slice_page.
Qed.

Lemma pages_partition_the_rows_witness :
  let r := QueryResult.mk ["x"] [[SqlInteger 1]; [SqlInteger 2]; [SqlInteger 3]] 3 0 in
  ResultsDisplay.totalPages (Some r) 2 = 2
  ∧ ResultsDisplay.paginatedData (Some r) 1 2 ++ ResultsDisplay.paginatedData (Some r) 2 2 =
      QueryResult.values r.
Proof.
  intros r. split; [reflexivity|].
  pose proof (pages_partition_the_rows r 2) as H.
  rewrite <- H; [|lia|reflexivity]. vm_compute. reflexivity.
Defined.

(** X17: when the result has rows, the page that [handlePageChange]
    sets for any requested number lies between 1 and [totalPages], is the
    requested one when that lies in the range, and shows at least one row
    and at most a page size of rows. *)
Theorem page_change_stays_on_a_page_with_rows (r : QueryResult.t)
    (entriesPerPage page : Z) :
  0 < entriesPerPage →
  QueryResult.rowCount r = Z.of_nat (length (QueryResult.values r)) →
  0 < QueryResult.rowCount r →
  let pages := ResultsDisplay.totalPages (Some r) entriesPerPage in
  let p := ResultsDisplay.handlePageChange (Some r) entriesPerPage page in
  let shown := ResultsDisplay.paginatedData (Some r) p entriesPerPage in
  1 ≤ p ≤ pages
  ∧ (1 ≤ page ≤ pages → p = page)
  ∧ shown ≠ []
  ∧ Z.of_nat (length shown) ≤ entriesPerPage.
Proof.
  intros Hk Hcount Hrows pages p shown.
  destruct (Z_of_nat_complete entriesPerPage) as [k ->]; [lia|].
  set (l := QueryResult.values r) in *. set (n := length l) in *.
  assert (pages = (Z.of_nat n + Z.of_nat k - 1) / Z.of_nat k) as Hpages.
  { subst pages. unfold ResultsDisplay.totalPages, ResultsDisplay.totalEntries,
      ResultsDisplay.ceil_div. by rewrite Hcount. }
  assert (1 ≤ pages ∧ (pages - 1) * Z.of_nat k < Z.of_nat n) as [Hone Hlast].
  { pose proof (Z.mul_div_le (Z.of_nat n + Z.of_nat k - 1) (Z.of_nat k)) as Hle.
    pose proof (Z.mul_succ_div_gt (Z.of_nat n + Z.of_nat k - 1) (Z.of_nat k)) as Hgt.
    rewrite <- Hpages in Hle, Hgt. nia. }
  assert (p = Z.max 1 (Z.min page pages)) as Hp by reflexivity.
  assert (1 ≤ p ≤ pages) as Hrange by lia.
  split; [done|]. split; [lia|].
  destruct (Z_of_nat_complete (p - 1)) as [i Hi]; [lia|].
  assert (shown = take k (drop (i * k) l)) as ->.
  { subst shown. unfold ResultsDisplay.paginatedData, ResultsDisplay.endIndex,
      ResultsDisplay.startIndex, ResultsDisplay.totalEntries.
    rewrite Hcount, Hi. fold l n. apply slice_page. }
  assert (i * k < n)%nat as Hin by nia.
  split.
  - intros Hnil. apply (f_equal length) in Hnil.
    rewrite length_take, length_drop in Hnil. simpl in Hnil. lia.
  - rewrite length_take. lia.
Qed.

Lemma page_change_stays_on_a_page_with_rows_witness :
  let r := QueryResult.mk ["x"] [[SqlInteger 1]; [SqlInteger 2]; [SqlInteger 3]] 3 0 in
  ResultsDisplay.handlePageChange (Some r) 2 7 = 2
  ∧ ResultsDisplay.paginatedData (Some r) 2 2 ≠ [].
Proof.
  intros r.
  destruct (page_change_stays_on_a_page_with_rows r 2 7) as (_ & _ & Hshown & _).
  - lia.
  - reflexivity.
  - reflexivity.
  - split; [reflexivity|exact Hshown].
Defined.

(** X18: with a page size above zero, when the current page lies
    between 1 and [totalPages], the
    page buttons carry consecutive numbers between 1 and [totalPages],
    five of them or one for every page when there are fewer, and the
    current page is among them. *)
Theorem page_buttons_show_the_current_page (results : option QueryResult.t)
    (currentPage entriesPerPage : Z) :
  let pages := ResultsDisplay.totalPages results entriesPerPage in
  let buttons := ResultsDisplay.page_buttons results currentPage entriesPerPage in
  0 < entriesPerPage →
  1 ≤ currentPage ≤ pages →
  Z.of_nat (length buttons) = Z.min 5 pages
  ∧ (∀ b, b ∈ buttons → 1 ≤ b ≤ pages)
  ∧ (∃ first, buttons = seqZ first (Z.min 5 pages))
  ∧ currentPage ∈ buttons.
Proof.
  intros pages buttons _ Hcur. subst buttons. unfold ResultsDisplay.page_buttons.
  fold pages.
  set (first := ResultsDisplay.pageNum results currentPage entriesPerPage 0).
  assert (∀ i, ResultsDisplay.pageNum results currentPage entriesPerPage i = first + i)
    as Hnum.
  { intros i. subst first. unfold ResultsDisplay.pageNum. fold pages.
    repeat case_match; lia. }
  assert (map (ResultsDisplay.pageNum results currentPage entriesPerPage)
              (seqZ 0 (Z.min 5 pages)) = seqZ first (Z.min 5 pages)) as ->.
  { unfold seqZ. rewrite map_map. apply map_ext. intros i. rewrite Hnum. lia. }
  assert (1 ≤ first ∧ first ≤ currentPage < first + Z.min 5 pages
          ∧ first + Z.min 5 pages - 1 ≤ pages) as (H1 & H2 & H3).
  { subst first. unfold ResultsDisplay.pageNum. fold pages.
    repeat case_match; lia. }
  split; [rewrite length_seqZ; lia|]. split; [|split; [by eexists|]].
  - intros b Hb%elem_of_seqZ. lia.
  - apply elem_of_seqZ. lia.
Qed.

Lemma page_buttons_show_the_current_page_witness :
  let r := QueryResult.mk [] [] 95 0 in
  ResultsDisplay.totalPages (Some r) 10 = 10
  ∧ ResultsDisplay.page_buttons (Some r) 9 10 = [6; 7; 8; 9; 10]
  ∧ 9 ∈ ResultsDisplay.page_buttons (Some r) 9 10.
Proof.
  intros r. split; [reflexivity|]. split; [reflexivity|].
  apply (page_buttons_show_the_current_page (Some r) 9 10); [lia|].
  vm_compute. split; discriminate.
Defined.

(** ** The result of a statement, and the handlers of App *)

(** [return_result] leaves the instance of the active database open,
    with the tables it had. *)
Lemma return_result_instance clock self h query result executionTime d w :
  heap w !! h = Some (mkInstance d false) →
  ∃ d1, heap (return_result clock self h query result executionTime w).1 !! h =
          Some (mkInstance d1 false)
        ∧ table_schemas d1 = table_schemas d
        ∧ tables_readable d1 = tables_readable d.
Proof.
  intros Hh.
  destruct (saveDatabase_spec clock h (currentDbId self) d w Hh)
    as (_ & Sh & _). cbv zeta in Sh.
  set (d1 := touched (clock (ticks w)) (currentDbId self) d) in *.
  assert (heap (saveDatabase clock h (currentDbId self) w) !! h
          = Some (mkInstance d1 false)) as Hh1.
  { rewrite Sh. apply list_lookup_insert_eq. by eapply lookup_lt_Some. }
  assert (∀ w0 x, heap w0 !! h = Some (mkInstance x false) →
            heap (loadTables h w0) !! h = Some (mkInstance x false)) as Ht.
  { intros w0 x H0. by rewrite (loadTables_eq _ _ _ H0), tables_of_eq. }
  assert (∀ w0 x, heap w0 !! h = Some (mkInstance x false) →
            heap (if SQL self then loadDatabaseList self (idb self) (SQL self) w0 else w0)
              !! h = Some (mkInstance x false)) as Hl.
  { intros w0 x H0. destruct (SQL self); [|done].
    destruct (loadDatabaseList_reloaded self (idb self) true w0) as [_ _ _ _ [ext ->] _ _ _ _].
    by apply lookup_app_l_Some. }
  unfold return_result. destruct result as [|r0 rest].
  - destruct (isDDL query && idb self); simpl.
    + exists d1. split; [by apply Hl, Ht|].
      split; [apply table_schemas_touched|apply tables_readable_touched].
    + by exists d.
  - simpl. destruct (idb self).
    + exists d1. split; [by apply Hl, Ht|].
      split; [apply table_schemas_touched|apply tables_readable_touched].
    + exists d. split; [|done]. by apply Hl, Ht.
Qed.

Lemma return_result_inr clock self h query result executionTime w :
  (return_result clock self h query result executionTime w).2 =
    inr (QueryResult.mk (from_option exec_columns [] (head result))
           (from_option exec_values [] (head result))
           (Z.of_nat (length (from_option exec_values [] (head result))))
           executionTime).
Proof. unfold return_result. by destruct result. Qed.

(** X19: when the engine accepts a statement, [executeQuery] returns
    the columns and the rows of the first row set of the answer, the later
    row sets of a text of several statements are not returned, and without
    a row set the result is empty; [rowCount] is the number of the rows
    returned and [executionTime] the difference of the two readings of the
    clock around the call of the engine. *)
Theorem executeQuery_returns_the_first_row_set (clock : nat -> Z)
    (sqlite_exec : Db -> string -> Db * (string + list QueryExecResult))
    (query : string) (w : World) (h : nat) (d d' : Db) (result : list QueryExecResult) :
  currentDb (hook w) = Some h →
  heap w !! h = Some (mkInstance d false) →
  sqlite_exec d query = (d', inr result) →
  ∃ r, (executeQuery clock sqlite_exec query w).2 = inr r
    ∧ QueryResult.columns r = from_option exec_columns [] (head result)
    ∧ QueryResult.values r = from_option exec_values [] (head result)
    ∧ QueryResult.rowCount r = Z.of_nat (length (QueryResult.values r))
    ∧ QueryResult.executionTime r = clock (S (ticks w)) - clock (ticks w).
Proof.
  intros Hc Hh He.
  destruct (executeQuery_accepted clock sqlite_exec query w h d d' result Hc Hh He)
    as (w2 & -> & _).
  rewrite return_result_inr. eexists. split; [reflexivity|]. done.
Qed.

Lemma executeQuery_returns_the_first_row_set_witness :
  ∃ r, (executeQuery clock_ms users_exec "SELECT * FROM users" world_shop).2 = inr r
    ∧ QueryResult.columns r = ["id"]
    ∧ QueryResult.rowCount r = 2.
Proof.
  destruct (executeQuery_returns_the_first_row_set clock_ms users_exec
              "SELECT * FROM users" world_shop 3
              (database_named "db_1000" "shop" 1001 1002)
              (database_named "db_1000" "shop" 1001 1002)
              [mkExec ["id"] [[SqlInteger 1]; [SqlInteger 2]]])
    as (r & Hr & Hcols & Hvals & Hcount & _).
  - reflexivity.
  - vm_compute. reflexivity.
  - vm_compute. reflexivity.
  - exists r. split; [exact Hr|]. split; [exact Hcols|].
    rewrite Hcount, Hvals. reflexivity.
Defined.

(** X20: when the engine accepts the statement that
    [handleExecuteQuery] runs, the result panel holds the result
    [executeQuery] returned and no error.  When the statements
    [loadTables] builds from the names of the tables all run, the schema
    panel shows afterwards the tables of the engine instance as the
    statement left them, whether or not the statement was persisted;
    when one of them throws, the refresh is given up and the schema panel
    stays as [executeQuery] left it. *)
Theorem schema_panel_follows_the_instance (clock : nat -> Z)
    (sqlite_exec : Db -> string -> Db * (string + list QueryExecResult))
    (query : string) (a : App.t) (w : World) (h : nat) (d d' : Db)
    (result : list QueryExecResult) :
  Js.trim query ≠ EmptyString →
  currentDb (hook w) = Some h →
  heap w !! h = Some (mkInstance d false) →
  sqlite_exec d query = (d', inr result) →
  let out := App.handleExecuteQuery clock sqlite_exec (Some query) a w in
  (tables_readable d' = true → tables (hook out.2) = table_schemas d')
  ∧ (tables_readable d' = false →
     tables (hook out.2) = tables (hook (executeQuery clock sqlite_exec query w).1))
  ∧ inr <$> App.queryResults out.1 = Some (executeQuery clock sqlite_exec query w).2
  ∧ App.queryError out.1 = None
  ∧ App.isExecuting out.1 = false.
Proof.
  intros Htrim Hc Hh He out. subst out. unfold App.handleExecuteQuery.
  assert (query ≠ EmptyString) as Hq by (by intros ->).
  assert (App.or_else (Some query) (App.currentQuery a) = query) as ->.
  { unfold App.or_else, truthy. by destruct query. }
  assert (truthy (Js.trim query) = true) as ->.
  { unfold truthy. by destruct (Js.trim query). }
  cbn [negb].
  destruct (executeQuery_accepted clock sqlite_exec query w h d d' result Hc Hh He)
    as (w2 & -> & Hh2 & _).
  destruct (return_result_instance clock (hook w) h query result
              (clock (S (ticks w)) - clock (ticks w)) d' w2 Hh2)
    as (d1 & Hh1 & Hd1 & Hr1).
  pose proof (return_result_inr clock (hook w) h query result
                (clock (S (ticks w)) - clock (ticks w)) w2) as Hr.
  destruct (return_result _ _ _ _ _ _ _) as [w3 r]. simpl in Hh1, Hr. subst r.
  simpl. unfold exported_loadTables. rewrite Hc, (loadTables_eq _ _ _ Hh1).
  unfold tables_of. rewrite Hr1.
  split; [by intros ->|]. split; [by intros ->|done].
Qed.

Lemma schema_panel_follows_the_instance_witness :
  let out := App.handleExecuteQuery clock_ms users_exec
               (Some "INSERT INTO users VALUES (3)") App.initial world_shop in
  map TableSchema.rowCount (tables (hook out.2)) = [3]
  ∧ DATABASE_STORE out.2 = DATABASE_STORE world_shop.
Proof.
  intros out. split; [|vm_compute; reflexivity].
  destruct (schema_panel_follows_the_instance clock_ms users_exec
              "INSERT INTO users VALUES (3)" App.initial world_shop 3
              (database_named "db_1000" "shop" 1001 1002)
              (mkDb (database_info (database_named "db_1000" "shop" 1001 1002))
                    [mkTable "users" [] 3 true])
              []) as [Ht _].
  - vm_compute. discriminate.
  - reflexivity.
  - vm_compute. reflexivity.
  - vm_compute. reflexivity.
  - fold out in Ht. rewrite Ht; vm_compute; reflexivity.
Defined.

Lemma exported_loadTables_stores self w :
  DATABASE_STORE (exported_loadTables self w) = DATABASE_STORE w
  ∧ QUERIES_STORE (exported_loadTables self w) = QUERIES_STORE w
  ∧ heap (exported_loadTables self w) = heap w.
Proof.
  unfold exported_loadTables, loadTables.
  destruct (currentDb self) as [h|]; [|done].
  by destruct (instance_db h w) as [d|]; [destruct (tables_readable d)|].
Qed.

Lemma trim_select x : Js.trim (String.append "SELECT * FROM " x) ≠ EmptyString.
Proof.
  change (String.append "SELECT * FROM " x)
    with (String "S" (String.append "ELECT * FRO" (String "M" (String.append " " x)))).
  destruct (trim_keeps_core "S" "ELECT * FRO" "M" (String.append " " x)) as [y Hy];
    [done..|].
  by rewrite Hy.
Qed.

(** X21: [handleDropTable] runs a statement that passes the DDL test
    of [executeQuery] for every table name.  When the engine accepts it,
    with the store open, the database without the table is persisted under
    the active id, the result panel is cleared and the table is no longer
    the selected one; when the engine rejects it, the message is thrown
    again, the state of the component and the stores stay as they were. *)
Theorem handleDropTable_persists_or_rethrows (clock : nat -> Z)
    (sqlite_exec : Db -> string -> Db * (string + list QueryExecResult))
    (tableName : string) (a : App.t) (w : World) (h : nat) (d d' : Db)
    (answer : string + list QueryExecResult) :
  idb (hook w) = true →
  currentDb (hook w) = Some h →
  heap w !! h = Some (mkInstance d false) →
  sqlite_exec d (String.append "DROP TABLE " tableName) = (d', answer) →
  let out := App.handleDropTable clock sqlite_exec tableName a w in
  match answer with
  | inr _ =>
      out.2 = None
      ∧ (∃ persisted,
           DATABASE_STORE out.1.2 !! currentDbId (hook w) = Some (Image persisted)
           ∧ sqlite_master persisted = sqlite_master d')
      ∧ App.queryResults out.1.1 = None
      ∧ App.queryError out.1.1 = None
      ∧ App.selectedTable out.1.1 ≠ Some tableName
      ∧ (App.selectedTable a ≠ Some tableName →
         App.selectedTable out.1.1 = App.selectedTable a)
  | inl message =>
      out.2 = Some message
      ∧ out.1.1 = a
      ∧ DATABASE_STORE out.1.2 = DATABASE_STORE w
      ∧ hook out.1.2 = hook w
  end.
Proof.
  intros Hi Hc Hh He out. subst out. unfold App.handleDropTable.
  destruct answer as [message|result].
  - rewrite (executeQuery_rejected clock sqlite_exec _ w h d d' message Hc Hh He).
    done.
  - destruct (executeQuery_persists clock sqlite_exec _ w h d d' result Hi Hc Hh He)
      as (stamp & Hstore & _); [left; apply isDDL_drop|].
    destruct (executeQuery_accepted clock sqlite_exec _ w h d d' result Hc Hh He)
      as (w2 & Hex & _).
    pose proof (return_result_inr clock (hook w) h
                  (String.append "DROP TABLE " tableName) result
                  (clock (S (ticks w)) - clock (ticks w)) w2) as Hr.
    rewrite <- Hex in Hr.
    destruct (executeQuery clock sqlite_exec _ w) as [w' r]. simpl in Hr, Hstore.
    subst r. simpl. split; [done|]. split.
    { eexists. split; [exact Hstore|].
      unfold touched, update_last_modified. by destruct (database_info d'). }
    split; [done|]. split; [done|].
    case_bool_decide as Hsel; simpl; [done|]. done.
Qed.

Lemma handleDropTable_persists_or_rethrows_witness :
  let a := App.setSelectedTable (Some "users") App.initial in
  let out := App.handleDropTable clock_ms users_exec "users" a world_shop in
  out.2 = None
  ∧ App.selectedTable out.1.1 = None
  ∧ ∃ persisted,
      DATABASE_STORE out.1.2 !! "db_1000" = Some (Image persisted)
      ∧ sqlite_master persisted = [].
Proof.
  intros a out.
  pose proof (handleDropTable_persists_or_rethrows clock_ms users_exec "users" a
                world_shop 3 (database_named "db_1000" "shop" 1001 1002)
                (mkDb (database_info (database_named "db_1000" "shop" 1001 1002)) [])
                (inr [])) as H.
  destruct H as (Herr & Hstore & _).
  - reflexivity.
  - reflexivity.
  - vm_compute. reflexivity.
  - vm_compute. reflexivity.
  - split; [exact Herr|]. split; [vm_compute; reflexivity|]. exact Hstore.
Defined.

(** X22: [handleTableSelect] selects the table and runs a statement
    that never passes the DDL test of [executeQuery].  With the store
    open, browsing a table that has rows therefore rewrites the stored
    database with a new [last_modified], and browsing an empty table,
    whose name has no ATTACH form in it, leaves the database partition as
    it was. *)
Theorem handleTableSelect_persists_only_with_rows (clock : nat -> Z)
    (sqlite_exec : Db -> string -> Db * (string + list QueryExecResult))
    (tableName : string) (a : App.t) (w : World) (h : nat) (d d' : Db)
    (result : list QueryExecResult) :
  idb (hook w) = true →
  currentDb (hook w) = Some h →
  heap w !! h = Some (mkInstance d false) →
  sqlite_exec d (String.append "SELECT * FROM " tableName) = (d', inr result) →
  let out := App.handleTableSelect clock sqlite_exec tableName a w in
  App.selectedTable out.1 = Some tableName
  ∧ (result ≠ [] →
     ∃ stamp,
       DATABASE_STORE out.2 !! currentDbId (hook w) =
         Some (Image (touched stamp (currentDbId (hook w)) d')))
  ∧ (result = [] →
     attachMatch (String.append "SELECT * FROM " tableName) = None →
     DATABASE_STORE out.2 = DATABASE_STORE w).
Proof.
  intros Hi Hc Hh He out. subst out.
  unfold App.handleTableSelect, App.handleExecuteQuery.
  set (query := String.append "SELECT * FROM " tableName) in *.
  assert (App.or_else (Some query) (App.currentQuery (App.setSelectedTable (Some tableName) a))
          = query) as ->.
  { subst query. unfold App.or_else. by rewrite append_cons. }
  assert (truthy (Js.trim query) = true) as ->.
  { pose proof (trim_select tableName) as Ht. fold query in Ht.
    unfold truthy. by destruct (Js.trim query). }
  cbn [negb].
  pose proof (executeQuery_persists clock sqlite_exec query w h d d' result Hi Hc Hh He)
    as Hp.
  destruct (executeQuery_accepted clock sqlite_exec query w h d d' result Hc Hh He)
    as (w2 & Hex & _ & _ & _ & Hw2).
  pose proof (return_result_inr clock (hook w) h query result
                (clock (S (ticks w)) - clock (ticks w)) w2) as Hr.
  rewrite <- Hex in Hr.
  assert (result = [] → attachMatch query = None →
          DATABASE_STORE (executeQuery clock sqlite_exec query w).1 = DATABASE_STORE w)
    as Hq.
  { intros -> Hattach. rewrite Hex. rewrite Hattach in Hw2. subst w2.
    rewrite return_result_no_persist; [done|]. apply isDDL_select. }
  cbv zeta in Hp.
  destruct (executeQuery clock sqlite_exec query w) as [w' r].
  cbn [fst snd] in Hr, Hp, Hq. subst r. cbn [fst snd].
  split; [done|].
  destruct (exported_loadTables_stores (hook w) w') as (-> & _).
  split.
  - intros Hrows. destruct Hp as (stamp & Hstore & _); [by right|]. by exists stamp.
  - done.
Qed.

Lemma handleTableSelect_persists_only_with_rows_witness :
  let out := App.handleTableSelect clock_ms users_exec "users" App.initial world_shop in
  App.selectedTable out.1 = Some "users"
  ∧ DATABASE_STORE out.2 ≠ DATABASE_STORE world_shop.
Proof.
  intros out.
  destruct (handleTableSelect_persists_only_with_rows clock_ms users_exec "users"
              App.initial world_shop 3 (database_named "db_1000" "shop" 1001 1002)
              (database_named "db_1000" "shop" 1001 1002)
              [mkExec ["id"] [[SqlInteger 1]; [SqlInteger 2]]])
    as (Hsel & _ & _).
  - reflexivity.
  - reflexivity.
  - vm_compute. reflexivity.
  - vm_compute. reflexivity.
  - split; [exact Hsel|]. vm_compute. discriminate.
Defined.

(** ** The text-to-SQL service *)

Lemma prefix_cons a s b t :
  String.prefix (String a s) (String b t) = Ascii.eqb a b && String.prefix s t.
Proof.
  cbn [String.prefix]. destruct (ascii_dec a b) as [->|Hne].
  - by rewrite Ascii.eqb_refl.
  - apply Ascii.eqb_neq in Hne. by rewrite Hne.
Qed.

Lemma prefix_nil_l s : String.prefix "" s = true.
Proof. by destruct s. Qed.

Lemma prefix_app t a b :
  String.prefix t a = true → String.prefix t (String.append a b) = true.
Proof.
  revert a. induction t as [|c t IH]; intros a H; [apply prefix_nil_l|].
  destruct a as [|x a]; [done|]. rewrite append_cons, prefix_cons in *.
  apply andb_true_iff in H as [-> H]. by rewrite (IH _ H).
Qed.

Lemma includes_cons t c s :
  Js.includes t (String c s) = String.prefix t (String c s) || Js.includes t s.
Proof. reflexivity. Qed.

Lemma includes_app_l t a b :
  Js.includes t a = true → Js.includes t (String.append a b) = true.
Proof.
  induction a as [|c a IH]; intros H.
  - cbn [Js.includes] in H. rewrite orb_false_r in H.
    destruct t; [|done]. destruct (String.append "" b); by cbn.
  - rewrite append_cons, includes_cons. rewrite includes_cons in H.
    apply orb_true_iff in H as [H|H].
    + rewrite <- append_cons, (prefix_app _ _ _ H). done.
    + rewrite (IH H). apply orb_true_r.
Qed.

Lemma includes_app_r t a b :
  Js.includes t b = true → Js.includes t (String.append a b) = true.
Proof.
  intros H. induction a as [|c a IH]; [by rewrite append_nil_l|].
  rewrite append_cons, includes_cons, IH. apply orb_true_r.
Qed.

Lemma span_append p s : String.append (Js.span p s).1 (Js.span p s).2 = s.
Proof.
  induction s as [|c s IH]; [done|]. cbn [Js.span].
  destruct (p c); [|done]. destruct (Js.span p s) as [u v]. simpl in *.
  by rewrite append_cons, IH.
Qed.

(** What [trim] leaves is a part of the text. *)
Lemma includes_trim t s : Js.includes t (Js.trim s) = true → Js.includes t s = true.
Proof.
  unfold Js.trim. intros H.
  rewrite <- (span_append Js.is_space s). apply includes_app_r.
  set (x := (Js.span Js.is_space s).2) in *.
  rewrite <- (rev_involutive x), <- (span_append Js.is_space (Js.rev x)), rev_append.
  by apply includes_app_l.
Qed.

Lemma remove_fences_first r :
  String.prefix "`" (Pollinations.remove_fences r) = true → String.prefix "`" r = true.
Proof.
  destruct r as [|c r]; [done|].
  unfold Pollinations.remove_fences. cbn [Pollinations.remove_fences_from].
  unfold Pollinations.fence_sql, Pollinations.fence. rewrite !prefix_cons.
  destruct (Ascii.eqb "`" c) eqn:Hc; [by rewrite prefix_nil_l|].
  cbn [andb]. by rewrite prefix_cons, Hc.
Qed.

Lemma prefix_shorter t1 t2 s :
  String.prefix (String.append t1 t2) s = true → String.prefix t1 s = true.
Proof.
  revert s. induction t1 as [|c t1 IH]; intros s H; [apply prefix_nil_l|].
  destruct s as [|x s]; [done|]. rewrite append_cons, prefix_cons in *.
  apply andb_true_iff in H as [-> H]. by rewrite (IH _ H).
Qed.

Lemma remove_fences_first_two r :
  String.prefix "``" (Pollinations.remove_fences r) = true → String.prefix "``" r = true.
Proof.
  destruct r as [|c r]; [done|].
  unfold Pollinations.remove_fences. cbn [Pollinations.remove_fences_from].
  destruct (String.prefix Pollinations.fence_sql (String c r)) eqn:H1.
  { intros _. by apply (prefix_shorter "``" "`sql"). }
  destruct (String.prefix Pollinations.fence (String c r)) eqn:H2.
  { intros _. by apply (prefix_shorter "``" "`"). }
  rewrite prefix_cons. intros [Hc Hr]%andb_true_iff.
  apply remove_fences_first in Hr.
  destruct r as [|c1 r]; [done|]. rewrite !prefix_cons in *.
  apply andb_true_iff in Hr as [-> _]. by rewrite Hc, prefix_nil_l.
Qed.

(** No fence is left by the replacement, and none arises where the
    text closes up over a fence taken out. *)
Lemma remove_fences_from_no_fence skip s :
  Js.includes Pollinations.fence (Pollinations.remove_fences_from skip s) = false.
Proof.
  revert skip. induction s as [|c r IH]; intros skip.
  - by destruct skip.
  - destruct skip as [|k]; cbn [Pollinations.remove_fences_from]; [|apply IH].
    destruct (String.prefix Pollinations.fence_sql (String c r)); [apply IH|].
    destruct (String.prefix Pollinations.fence (String c r)) eqn:H2; [apply IH|].
    rewrite includes_cons, IH, orb_false_r.
    destruct (String.prefix Pollinations.fence
                (String c (Pollinations.remove_fences_from 0 r))) eqn:H3; [|done].
    unfold Pollinations.fence in H2, H3. rewrite prefix_cons in H2, H3.
    apply andb_true_iff in H3 as [Hc H3]. rewrite Hc in H2.
    apply remove_fences_first_two in H3. by rewrite H3 in H2.
Qed.

(** X23: whatever the server answers, [generateSQLQuery] either fails
    with its one fixed message or returns a text in which no code fence
    is left. *)
Theorem generated_query_has_no_fence
    (fetch : list Pollinations.Message -> string + Pollinations.Response)
    (naturalLanguageQuery : string) (schema : list TableSchema.t) :
  match Pollinations.generateSQLQuery fetch naturalLanguageQuery schema with
  | inl message => message = Pollinations.FAILED
  | inr sqlQuery => Js.includes "```" sqlQuery = false
  end.
Proof.
  unfold Pollinations.generateSQLQuery.
  destruct (Pollinations.getChatCompletion fetch _) as [message|sqlQuery]; [done|].
  destruct (negb (truthy sqlQuery)); [done|].
  destruct (Js.includes "```" (Js.trim _)) eqn:H; [|done].
  apply includes_trim in H.
  pose proof (remove_fences_from_no_fence 0 (Js.trim sqlQuery)) as Hno.
  unfold Pollinations.remove_fences in H. unfold Pollinations.fence in Hno. congruence.
Qed.

Lemma fenced_answer_is_cleaned :
  Pollinations.generateSQLQuery fenced_server "all users" [] = inr "SELECT * FROM users".
Proof. vm_compute. reflexivity. Qed.

(** X24: with an active database, [handleNaturalLanguageQuery] never
    changes the text of the editor.  When the generation fails nothing is
    run: the world and the panels stay as they were.  Otherwise the
    generated text is recorded and the outcome is the one of
    [handleExecuteQuery] on it, or, when the generated text is empty (an
    answer made of fences and white space), on the text of the editor. *)
Theorem natural_language_query_outcome (clock : nat -> Z)
    (sqlite_exec : Db -> string -> Db * (string + list QueryExecResult))
    (fetch : list Pollinations.Message -> string + Pollinations.Response)
    (input : string) (a : App.t) (w : World) :
  currentDbId (hook w) ≠ EmptyString →
  let out := App.handleNaturalLanguageQuery clock sqlite_exec fetch input a w in
  App.currentQuery out.1 = App.currentQuery a
  ∧ App.isGenerating out.1 = false
  ∧ match Pollinations.generateSQLQuery fetch input (tables (hook w)) with
    | inl _ =>
        out.2 = w
        ∧ App.queryResults out.1 = App.queryResults a
        ∧ App.queryError out.1 = App.queryError a
        ∧ App.lastGeneratedQuery out.1 = App.lastGeneratedQuery a
    | inr sqlQuery =>
        let statement := if truthy sqlQuery then sqlQuery else App.currentQuery a in
        let run := App.handleExecuteQuery clock sqlite_exec (Some statement) a w in
        App.lastGeneratedQuery out.1 = sqlQuery
        ∧ out.2 = run.2
        ∧ App.queryResults out.1 = App.queryResults run.1
        ∧ App.queryError out.1 = App.queryError run.1
    end.
Proof.
  intros Hdb out. subst out. unfold App.handleNaturalLanguageQuery.
  apply truthy_true in Hdb. rewrite Hdb. cbn [negb].
  destruct (Pollinations.generateSQLQuery fetch input (tables (hook w)))
    as [message|sqlQuery]; [done|].
  cbv zeta. unfold App.handleExecuteQuery.
  set (a1 := App.setLastGeneratedQuery sqlQuery (App.setIsGenerating true a)).
  assert (App.or_else (Some sqlQuery) (App.currentQuery a1) =
          App.or_else (Some (if truthy sqlQuery then sqlQuery else App.currentQuery a))
            (App.currentQuery a)) as ->.
  { unfold App.or_else. subst a1. simpl.
    destruct (truthy sqlQuery) eqn:Hq; [by rewrite Hq|].
    by destruct (truthy (App.currentQuery a)). }
  destruct (negb (truthy (Js.trim _))); [done|].
  destruct (executeQuery clock sqlite_exec _ w) as [w' [message|r]]; done.
Qed.

Lemma natural_language_query_outcome_witness :
  let out := App.handleNaturalLanguageQuery clock_ms users_exec fenced_server
               "all users" App.initial world_shop in
  App.currentQuery out.1 = App.initial_query
  ∧ App.lastGeneratedQuery out.1 = "SELECT * FROM users"
  ∧ QueryResult.rowCount <$> App.queryResults out.1 = Some 2.
Proof.
  intros out.
  destruct (natural_language_query_outcome clock_ms users_exec fenced_server
              "all users" App.initial world_shop) as (Hq & _ & _).
  - vm_compute. discriminate.
  - split; [exact Hq|]. split; vm_compute; reflexivity.
Defined.

(** ** The history panel *)

Lemma matches_empty text : QueryHistory.matches "" text = true.
Proof.
  unfold QueryHistory.matches. change (Js.toLowerCase "") with "".
  destruct (Js.toLowerCase text); reflexivity.
Qed.

Lemma filter_all_true {A} (f : A → bool) (l : list A) :
  (∀ x, f x = true) → List.filter f l = l.
Proof.
  intros Hf. induction l as [|x l IH]; [done|]. simpl. by rewrite Hf, IH.
Qed.

(** X25: with the store open, after [toggleFavorite] on a saved
    query of the active database, the history panel with its search field
    empty shows the whole history under All, and shows the query under
    Favorites exactly when it was not a favourite before. *)
Theorem favorites_tab_follows_toggleFavorite (queryId : string)
    (q : SavedQuery.fields) (w : World) :
  idb (hook w) = true →
  QUERIES_STORE w !! queryId = Some q →
  SavedQuery.databaseId q = currentDbId (hook w) →
  let history := queryHistory (hook (toggleFavorite queryId w)) in
  QueryHistory.filteredQueries history "" QueryHistory.all = history
  ∧ ((∃ shown : SavedQuery.t,
        shown ∈ QueryHistory.filteredQueries history "" QueryHistory.favorites
        ∧ SavedQuery.id shown = queryId)
     ↔ is_favorite (SavedQuery.isFavorite q) = false).
Proof.
  intros Hi Hq Hdb history. subst history.
  rewrite (toggleFavorite_eq queryId q w Hi Hq).
  set (q2 := SavedQuery.mkFields _ _ _ _ _).
  set (w1 := put_query _ w).
  assert (QUERIES_STORE w1 !! queryId = Some q2) as Hq2.
  { subst w1. simpl. apply lookup_insert_eq. }
  split.
  { apply filter_all_true. intros x. by rewrite matches_empty. }
  unfold QueryHistory.filteredQueries. split.
  - intros (shown & Hin & Hid).
    apply list_elem_of_In, filter_In in Hin as [Hin Hfav].
    apply list_elem_of_In, elem_of_loadQueryHistory in Hin as [Hst _].
    rewrite Hid, Hq2 in Hst. injection Hst as Hst.
    rewrite matches_empty in Hfav. simpl in Hfav. rewrite <- Hst in Hfav.
    subst q2. simpl in Hfav. by destruct (SavedQuery.isFavorite q) as [[]|].
  - intros Hfav. exists (SavedQuery.mk queryId q2). split; [|done].
    apply list_elem_of_In, filter_In. split.
    + apply list_elem_of_In, elem_of_loadQueryHistory. by split.
    + rewrite matches_empty. simpl.
      by destruct (SavedQuery.isFavorite q) as [[]|].
Qed.

Lemma favorites_tab_follows_toggleFavorite_witness :
  let w := saveQuery clock_ms "SELECT 1" None world_A_active in
  let history := queryHistory (hook (toggleFavorite "1000" w)) in
  ∃ shown : SavedQuery.t,
    shown ∈ QueryHistory.filteredQueries history "" QueryHistory.favorites
    ∧ SavedQuery.id shown = "1000".
Proof.
  intros w history.
  destruct (favorites_tab_follows_toggleFavorite "1000"
              (SavedQuery.mkFields "SELECT 1" 1001 None (Some false) "A") w)
    as [_ [_ Hshow]].
  - reflexivity.
  - vm_compute. reflexivity.
  - reflexivity.
  - apply Hshow. reflexivity.
Defined.
